(** * Draft.js document model (prototype-inheritance port): a shallow embedding

    The model follows the JavaScript sources function by function.

    - Objects are immutable records that carry the address they were
      allocated at ([self]); the strict equality [===] of two objects is the
      equality of their addresses.
    - Code that allocates ([inheritAndUpdate], [new ...]) or throws runs in
      the monad [M]: a state monad over the [heap] (next free address and the
      [CharacterMetadata] intern pool) that returns [Ok v] or [Throw e].
    - Offsets are JavaScript numbers used as integers: [Z].
    - A JavaScript [Map] is insertion ordered: an association list whose
      [set] replaces in place or appends.  Keys and values of the block map
      are [option]s, [None] standing for [undefined]/[null], because the
      code can store such entries. *)

From Stdlib Require Import ZArith List String Bool Lia.
From stdpp Require Import base strings gmap.
Import ListNotations.

Local Open Scope string_scope.
Local Open Scope Z_scope.

(** ** Values, exceptions and results *)

Definition ref := nat.

Inductive exn : Type :=
| TypeError          (* calling a method that does not exist, reading a
                        property of undefined, destructuring a non-iterable *)
| ReferenceError     (* reading an identifier that is not bound at run time *)
| InvariantViolation (* [invariant(false, ...)] *).

Inductive result (A : Type) : Type :=
| Ok (a : A)
| Throw (e : exn).
Arguments Ok {A} a.
Arguments Throw {A} e.

(** [DraftInlineStyle] is a JavaScript [Set] of style names: its elements in
    insertion order, without duplicates. *)
Definition DraftInlineStyle := list string.

(** Modelled from the spec: the constant [EMPTY_STYLE] of the module
    DraftInlineStyle, which is not among the sources; the spec calls it the
    empty style set. *)
Definition EMPTY_STYLE : DraftInlineStyle := [].

Definition Set_has (s : DraftInlineStyle) (x : string) : bool :=
  existsb (String.eqb x) s.

(** [set.add(x)]: appended unless present. *)
Definition Set_add (s : DraftInlineStyle) (x : string) : DraftInlineStyle :=
  if Set_has s x then s else (s ++ [x])%list.

(** [set.delete(x)]. *)
Definition Set_delete (s : DraftInlineStyle) (x : string) : DraftInlineStyle :=
  List.filter (fun y => negb (String.eqb x y)) s.

(** [Array.from(set).join(sep)]. *)
Fixpoint join (sep : string) (l : list string) : string :=
  match l with
  | [] => ""
  | [x] => x
  | x :: rest => x ++ sep ++ join sep rest
  end.

(** The relative index of [slice]: negative counts from the end, the result
    is clamped to [0, len]. *)
Definition slice_index (len i : Z) : nat :=
  Z.to_nat (if i <? 0 then Z.max (len + i) 0 else Z.min i len).

(** [array.slice(from, to)]. *)
Definition Array_slice {A : Type} (l : list A) (from to : Z) : list A :=
  let len := Z.of_nat (List.length l) in
  let a := slice_index len from in
  let b := slice_index len to in
  firstn (b - a)%nat (skipn a l).

(** [array.slice(from)]. *)
Definition Array_slice_from {A : Type} (l : list A) (from : Z) : list A :=
  Array_slice l from (Z.of_nat (List.length l)).

(** [string.slice(from, to)]. *)
Definition String_slice (s : string) (from to : Z) : string :=
  let len := Z.of_nat (String.length s) in
  let a := slice_index len from in
  let b := slice_index len to in
  substring a (b - a)%nat s.

(** [string.slice(from)]. *)
Definition String_slice_from (s : string) (from : Z) : string :=
  String_slice s from (Z.of_nat (String.length s)).

(** [array[i]]: [undefined] outside the array. *)
Definition Array_get {A : Type} (l : list A) (i : Z) : option A :=
  if i <? 0 then None else nth_error l (Z.to_nat i).

(** [Array(n).fill(x)]. *)
Definition Array_fill {A : Type} (n : nat) (x : A) : list A := repeat x n.

(** ** CharacterMetadata: the object

    The record is declared ahead of the heap, whose intern pool stores such
    objects; the class and its static methods are [Module CharacterMetadata]
    below. *)

Record CharacterMetadataObject : Type := mkCharacterMetadata
  { cm_self : ref;
    cm_style : DraftInlineStyle;
    cm_entity : option string }.

(** ** The heap and the monad *)

Record heap : Type := mkHeap
  { next_ref : ref;
    pool : gmap string CharacterMetadataObject }.

Definition M (A : Type) : Type := heap -> result A * heap.

Definition ret {A : Type} (a : A) : M A := fun h => (Ok a, h).

Definition throw {A : Type} (e : exn) : M A := fun h => (Throw e, h).

Definition bind {A B : Type} (m : M A) (k : A -> M B) : M B :=
  fun h =>
    match m h with
    | (Ok a, h') => k a h'
    | (Throw e, h') => (Throw e, h')
    end.

Notation "'let*' x ':=' m 'in' k" := (bind m (fun x => k))
  (at level 10, x pattern, m at level 100, k at level 200).

(** A pure result inside the monad. *)
Definition lift {A : Type} (r : result A) : M A :=
  match r with
  | Ok a => ret a
  | Throw e => throw e
  end.

(** Allocation of a new object. *)
Definition alloc : M ref :=
  fun h => (Ok (next_ref h), {| next_ref := S (next_ref h); pool := pool h |}).

Definition pool_get (k : string) : M (option CharacterMetadataObject) :=
  fun h => (Ok (pool h !! k), h).

Definition pool_set (k : string) (c : CharacterMetadataObject) : M unit :=
  fun h => (Ok tt, {| next_ref := next_ref h; pool := <[k := c]> (pool h) |}).

(** [invariant(cond, msg)]. *)
Definition invariant (cond : bool) : M unit :=
  if cond then ret tt else throw InvariantViolation.

(** ** SelectionState *)

Module SelectionState.

Record t : Type := mk
  { self : ref;
    anchorKey : string;
    anchorOffset : Z;
    focusKey : string;
    focusOffset : Z;
    isBackward : bool;
    hasFocus : bool }.

(** [$Shape<SelectionStateConfig>]. *)
Record config : Type := mkConfig
  { put_anchorKey : option string;
    put_anchorOffset : option Z;
    put_focusKey : option string;
    put_focusOffset : option Z;
    put_isBackward : option bool;
    put_hasFocus : option bool }.

Definition no_put : config := mkConfig None None None None None None.

Definition getAnchorKey := anchorKey.
Definition getAnchorOffset := anchorOffset.
Definition getFocusKey := focusKey.
Definition getFocusOffset := focusOffset.
Definition getIsBackward := isBackward.
Definition getHasFocus := hasFocus.

Definition getStartKey (s : t) : string :=
  if getIsBackward s then getFocusKey s else getAnchorKey s.

Definition getStartOffset (s : t) : Z :=
  if getIsBackward s then getFocusOffset s else getAnchorOffset s.

Definition getEndKey (s : t) : string :=
  if getIsBackward s then getAnchorKey s else getFocusKey s.

Definition getEndOffset (s : t) : Z :=
  if getIsBackward s then getAnchorOffset s else getFocusOffset s.

Definition hasEdgeWithin (s : t) (blockKey : string) (start end_ : Z) : bool :=
  let anchorKey := getAnchorKey s in
  let focusKey := getFocusKey s in
  if String.eqb anchorKey focusKey && String.eqb anchorKey blockKey then
    let selectionStart := getStartOffset s in
    let selectionEnd := getEndOffset s in
    ((start <=? selectionStart) && (selectionStart <=? end_))
    || ((start <=? selectionEnd) && (selectionEnd <=? end_))
  else if negb (String.eqb blockKey anchorKey) && negb (String.eqb blockKey focusKey) then
    false
  else
    let offsetToCheck :=
      if String.eqb blockKey anchorKey then getAnchorOffset s else getFocusOffset s in
    (start <=? offsetToCheck) && (end_ >=? offsetToCheck).

Definition isCollapsed (s : t) : bool :=
  String.eqb (getAnchorKey s) (getFocusKey s)
  && (getAnchorOffset s =? getFocusOffset s).

(** [inheritAndUpdate(selectionState, put)]: a new object whose own
    properties are those of [put] and whose other properties are read
    through the prototype. *)
Definition set (s : t) (put : config) : M t :=
  let* r := alloc in
  ret {| self := r;
         anchorKey := default (anchorKey s) (put_anchorKey put);
         anchorOffset := default (anchorOffset s) (put_anchorOffset put);
         focusKey := default (focusKey s) (put_focusKey put);
         focusOffset := default (focusOffset s) (put_focusOffset put);
         isBackward := default (isBackward s) (put_isBackward put);
         hasFocus := default (hasFocus s) (put_hasFocus put) |}.

Definition merge := set.

(** [new SelectionState({...})] with every property given. *)
Definition new (ak : string) (ao : Z) (fk : string) (fo : Z) (bw hf : bool) : M t :=
  let* r := alloc in
  ret (mk r ak ao fk fo bw hf).

(** [key || '']. *)
Definition createEmpty (key : option string) : M t :=
  let k := match key with Some k => k | None => "" end in
  new k 0 k 0 false false.

(** [a === b] on values that may be [undefined]. *)
Definition same (a b : option t) : bool :=
  match a, b with
  | Some x, Some y => Nat.eqb (self x) (self y)
  | None, None => true
  | _, _ => false
  end.

End SelectionState.

(** ** CharacterMetadata: the class *)

Module CharacterMetadata.

Definition t : Type := CharacterMetadataObject.

(** [CharacterMetadataConfig]: every property may be absent. *)
Record config : Type := mkConfig
  { cfg_style : option DraftInlineStyle;
    cfg_entity : option (option string) }.

Definition defaultConfig : config :=
  {| cfg_style := Some EMPTY_STYLE; cfg_entity := Some None |}.

(** [Object.assign({}, defaultConfig, config)]. *)
Definition merge_config (c : config) : config :=
  {| cfg_style :=
       match cfg_style c with Some s => Some s | None => cfg_style defaultConfig end;
     cfg_entity :=
       match cfg_entity c with Some e => Some e | None => cfg_entity defaultConfig end |}.

Definition hashDraftInlineStyle (styleSet : option DraftInlineStyle) : string :=
  match styleSet with
  | None => ""
  | Some s => join (String (Ascii.ascii_of_nat 10) "") s
  end.

(** [config.entity || '']: [null] and the empty string both give ['']. *)
Definition hashCharacterMetadataConfig (c : config) : string :=
  hashDraftInlineStyle (cfg_style c)
  ++ match cfg_entity c with
     | Some (Some e) => e
     | _ => ""
     end.

Definition getStyle (c : t) : DraftInlineStyle := cm_style c.
Definition getEntity (c : t) : option string := cm_entity c.
Definition hasStyle (c : t) (s : string) : bool := Set_has (getStyle c) s.

(** [a === b]. *)
Definition same (a b : t) : bool := Nat.eqb (cm_self a) (cm_self b).

(** [new CharacterMetadata(config)]: [Object.assign(this, defaultConfig, config)]. *)
Definition new (c : config) : M t :=
  let m := merge_config c in
  let* r := alloc in
  ret {| cm_self := r;
         cm_style := default EMPTY_STYLE (cfg_style m);
         cm_entity := default None (cfg_entity m) |}.

(** [static EMPTY = new CharacterMetadata()], allocated when the module is
    loaded: the first object of the heap. *)
Definition EMPTY : t :=
  {| cm_self := 0%nat; cm_style := EMPTY_STYLE; cm_entity := None |}.

(** [static set(characterMetadata, put)]: [inheritAndUpdate], a new object
    that reads the properties [put] does not have through its prototype. *)
Definition set (c : t) (put : config) : M t :=
  let* r := alloc in
  ret {| cm_self := r;
         cm_style := default (cm_style c) (cfg_style put);
         cm_entity := default (cm_entity c) (cfg_entity put) |}.

Definition applyStyle (record : t) (style : string) : M t :=
  let newStyle := Set_add (getStyle record) style in
  set record {| cfg_style := Some newStyle; cfg_entity := None |}.

Definition removeStyle (record : t) (style : string) : M t :=
  let newStyle := Set_delete (getStyle record) style in
  set record {| cfg_style := Some newStyle; cfg_entity := None |}.

Definition applyEntity (record : t) (entityKey : option string) : M t :=
  set record
      (if decide (getEntity record = entityKey)
       then {| cfg_style := None; cfg_entity := None |}
       else {| cfg_style := None; cfg_entity := Some entityKey |}).

(** [static create(config)]: the pooled constructor. *)
Definition create (cfg : option config) : M t :=
  match cfg with
  | None => ret EMPTY
  | Some c =>
      let mergedConfig := merge_config c in
      let poolKey := hashCharacterMetadataConfig mergedConfig in
      let* existing := pool_get poolKey in
      match existing with
      | Some e => ret e
      | None =>
          let* newCharacter := new mergedConfig in
          let* _ := pool_set poolKey newCharacter in
          ret newCharacter
      end
  end.

End CharacterMetadata.

(** The heap once the modules are loaded: [EMPTY] is allocated at address 0
    and the entity registry at address 1, and the pool maps the hash of the
    default configuration to [EMPTY]. *)
Definition initial_heap : heap :=
  {| next_ref := 2%nat;
     pool := {[ CharacterMetadata.hashCharacterMetadataConfig
                  CharacterMetadata.defaultConfig := CharacterMetadata.EMPTY ]} |}.

(** ** JavaScript [Map] and array searches *)

Section JSMap.
Context {K V : Type} `{EqDecision K}.

Fixpoint Map_get (m : list (K * V)) (k : K) : option V :=
  match m with
  | [] => None
  | (k', v) :: rest => if decide (k' = k) then Some v else Map_get rest k
  end.

(** [map.set(k, v)]: an existing key keeps its place. *)
Fixpoint Map_set (m : list (K * V)) (k : K) (v : V) : list (K * V) :=
  match m with
  | [] => [(k, v)]
  | (k', v') :: rest =>
      if decide (k' = k) then (k', v) :: rest else (k', v') :: Map_set rest k v
  end.

(** [new Map(entries)]. *)
Definition Map_of_entries (entries : list (K * V)) : list (K * V) :=
  fold_left (fun m e => Map_set m (fst e) (snd e)) entries [].

Definition Map_keys (m : list (K * V)) : list K := map fst m.

(** [array.indexOf(x)], counted from [i]. *)
Fixpoint indexOf_from (l : list K) (x : K) (i : Z) : Z :=
  match l with
  | [] => -1
  | y :: rest => if decide (y = x) then i else indexOf_from rest x (i + 1)
  end.

(** [array.lastIndexOf(x)], counted from [i]: the greatest index. *)
Fixpoint lastIndexOf_from (l : list K) (x : K) (i : Z) : Z :=
  match l with
  | [] => -1
  | y :: rest =>
      let j := lastIndexOf_from rest x (i + 1) in
      if j =? -1 then (if decide (y = x) then i else -1) else j
  end.

Definition Array_indexOf (l : list K) (x : K) : Z := indexOf_from l x 0.
Definition Array_lastIndexOf (l : list K) (x : K) : Z := lastIndexOf_from l x 0.

End JSMap.

(** ** ContentBlock

    The blocks of the model are the flat [ContentBlock]s: for every block
    [block instanceof ContentBlockNode] is false. *)

Module ContentBlock.

Record t : Type := mk
  { self : ref;
    key : string;
    type : string;
    text : string;
    depth : Z;
    characterList : list CharacterMetadata.t;
    data : list (string * string) }.

Definition getKey := key.
Definition getType := type.
Definition getText := text.
Definition getCharacterList := characterList.
Definition getLength (b : t) : Z := Z.of_nat (String.length (getText b)).
Definition getDepth := depth.
Definition getData := data.

Definition getInlineStyleAt (b : t) (offset : Z) : DraftInlineStyle :=
  match Array_get (getCharacterList b) offset with
  | Some character => CharacterMetadata.getStyle character
  | None => EMPTY_STYLE
  end.

Definition getEntityAt (b : t) (offset : Z) : option string :=
  match Array_get (getCharacterList b) offset with
  | Some character => CharacterMetadata.getEntity character
  | None => None
  end.

(** [a === b]. *)
Definition same (a b : t) : bool := Nat.eqb (self a) (self b).

(** [inheritAndUpdate(block, {text, characterList})]. *)
Definition update (b : t) (newText : option string)
    (newCharacterList : option (list CharacterMetadata.t)) : M t :=
  let* r := alloc in
  ret {| self := r;
         key := key b;
         type := type b;
         text := default (text b) newText;
         depth := depth b;
         characterList := default (characterList b) newCharacterList;
         data := data b |}.

End ContentBlock.

(** A key of the block map is a string, or [undefined] ([None]); a value is
    a block, or [undefined]/[null] ([None]). *)
Definition BlockMap : Type := list (option string * option ContentBlock.t).

(** [blockMap.get(key)]: [undefined] for a missing key and for a key that
    holds [undefined]. *)
Definition BlockMap_get (m : BlockMap) (k : string) : option ContentBlock.t :=
  match Map_get m (Some k) with
  | Some (Some b) => Some b
  | _ => None
  end.

(** The entity map is the process-wide registry object; the model keeps its
    address only. *)
Definition EntityMap : Type := ref.

(** ** ContentState *)

Module ContentState.

Record t : Type := mk
  { self : ref;
    blockMap : BlockMap;
    entityMap : EntityMap;
    selectionBefore : option SelectionState.t;
    selectionAfter : option SelectionState.t }.

(** [ContentStateConfig]: an absent property is [None]; a selection property
    that is present may hold [undefined]. *)
Record config : Type := mkConfig
  { put_blockMap : option BlockMap;
    put_entityMap : option EntityMap;
    put_selectionBefore : option (option SelectionState.t);
    put_selectionAfter : option (option SelectionState.t) }.

Definition no_put : config := mkConfig None None None None.

Definition getBlockMap := blockMap.
Definition getSelectionBefore := selectionBefore.
Definition getSelectionAfter := selectionAfter.

(** [a === b]. *)
Definition same (a b : t) : bool := Nat.eqb (self a) (self b).

Definition getBlockForKey (c : t) (k : string) : M ContentBlock.t :=
  match BlockMap_get (getBlockMap c) k with
  | Some b => ret b
  | None => throw InvariantViolation
  end.

(** [keys[i]]: [undefined] outside the array, and where the key itself is
    [undefined]. *)
Definition key_at (keys : list (option string)) (i : Z) : option string :=
  match Array_get keys i with
  | Some k => k
  | None => None
  end.

Definition getKeyBefore (c : t) (k : string) : option string :=
  let keys := Map_keys (getBlockMap c) in
  let index := Array_lastIndexOf keys (Some k) in
  let keyBefore := key_at keys (index + 1) in
  keyBefore.

Definition getKeyAfter (c : t) (k : string) : option string :=
  let keys := Map_keys (getBlockMap c) in
  let index := Array_indexOf keys (Some k) in
  let keyAfter := key_at keys (index + 1) in
  keyAfter.

(** [static set(contentState, put)]: [inheritAndUpdate]. *)
Definition set (c : t) (put : config) : M t :=
  let* r := alloc in
  ret {| self := r;
         blockMap := default (blockMap c) (put_blockMap put);
         entityMap := default (entityMap c) (put_entityMap put);
         selectionBefore := default (selectionBefore c) (put_selectionBefore put);
         selectionAfter := default (selectionAfter c) (put_selectionAfter put) |}.

End ContentState.

(** ** insertIntoList *)

Definition insertIntoList {T : Type} (targetList toInsert : list T) (offset : Z) : list T :=
  if offset =? Z.of_nat (List.length targetList) then
    (* returnList = [...targetList]; toInsert.forEach(c => returnList.push(c)) *)
    fold_left (fun returnList c => (returnList ++ [c])%list) toInsert targetList
  else if offset =? 0 then
    (* [...toInsert].reverse().forEach(c => returnList.unshift(c)) *)
    fold_left (fun returnList c => c :: returnList) (rev toInsert) targetList
  else
    let head := Array_slice targetList 0 offset in
    let tail := Array_slice_from targetList offset in
    (head ++ toInsert ++ tail)%list.

(** ** insertTextIntoContentState *)

(** Which of the class names a source file uses as values are bound when it
    runs: [const X = require('X')] binds [X]; [import type X from 'X'] is
    erased with the other type annotations and binds nothing. *)
Record module_scope : Type := mkScope
  { binds_ContentState : bool;
    binds_SelectionState : bool }.

(** Reading an identifier. *)
Definition identifier (bound : bool) : M unit :=
  if bound then ret tt else throw ReferenceError.

(** The file of insertTextIntoContentState requires [insertIntoList],
    [inheritAndUpdate] and [invariant]; [CharacterMetadata], [ContentState]
    and [SelectionState] are imported as types only. *)
Definition insertText_scope : module_scope :=
  {| binds_ContentState := false; binds_SelectionState := false |}.

(** A file that requires both classes, as removeRangeFromContentState does. *)
Definition required_scope : module_scope :=
  {| binds_ContentState := true; binds_SelectionState := true |}.

Definition insertTextIntoContentState_in (scope : module_scope)
    (contentState : ContentState.t) (selectionState : SelectionState.t)
    (text : string) (characterMetadata : CharacterMetadata.t) : M ContentState.t :=
  let* _ := invariant (SelectionState.isCollapsed selectionState) in
  let len := Z.of_nat (String.length text) in
  if len =? 0 then ret contentState
  else
    let blockMap := ContentState.getBlockMap contentState in
    let key := SelectionState.getStartKey selectionState in
    let offset := SelectionState.getStartOffset selectionState in
    match BlockMap_get blockMap key with
    | None => throw TypeError (* block.getText() on undefined *)
    | Some block =>
        let blockText := ContentBlock.getText block in
        let* newBlock :=
          ContentBlock.update block
            (Some (String_slice blockText 0 offset ++ text
                   ++ String_slice blockText offset (ContentBlock.getLength block)))
            (Some (insertIntoList (ContentBlock.getCharacterList block)
                     (Array_fill (String.length text) characterMetadata) offset)) in
        let newOffset := offset + len in
        let newBlockMap := Map_set blockMap (Some key) (Some newBlock) in
        (* ContentState.set(contentState, {..., selectionAfter:
           SelectionState.set(...)}): the callee, then the arguments *)
        let* _ := identifier (binds_ContentState scope) in
        let* _ := identifier (binds_SelectionState scope) in
        let* after :=
          SelectionState.set selectionState
            {| SelectionState.put_anchorKey := None;
               SelectionState.put_anchorOffset := Some newOffset;
               SelectionState.put_focusKey := None;
               SelectionState.put_focusOffset := Some newOffset;
               SelectionState.put_isBackward := None;
               SelectionState.put_hasFocus := None |} in
        ContentState.set contentState
          {| ContentState.put_blockMap := Some newBlockMap;
             ContentState.put_entityMap := None;
             ContentState.put_selectionBefore := None;
             ContentState.put_selectionAfter := Some (Some after) |}
    end.

Definition insertTextIntoContentState :=
  insertTextIntoContentState_in insertText_scope.

(** ** removeRangeFromContentState *)

(** What the variable [targetList] of [removeFromList] can hold: the array
    it is given, or what [shift()] returned. *)
Inductive listValue : Type :=
| VArray (l : list CharacterMetadata.t)
| VCharacter (c : CharacterMetadata.t)
| VUndefined.

(** [while (startOffset < endOffset) { targetList = targetList.shift();
    startOffset++ }]: [shift] exists on arrays only and returns the removed
    first element. *)
Fixpoint shift_loop (iterations : nat) (targetList : listValue) : result listValue :=
  match iterations with
  | O => Ok targetList
  | S n =>
      match targetList with
      | VArray [] => shift_loop n VUndefined
      | VArray (c :: _) => shift_loop n (VCharacter c)
      | VCharacter _ | VUndefined => Throw TypeError
      end
  end.

(** [removeFromList(targetList, startOffset, endOffset)] on an array.  The
    result comes with the array as the call leaves it: [shift()] removes the
    first element from the array object itself.  When [startOffset] is not
    0 the condition [endOffset === targetList.count()] is evaluated next, and
    an array has no method [count]. *)
Definition removeFromList (targetList : list CharacterMetadata.t)
    (startOffset endOffset : Z) : result listValue * list CharacterMetadata.t :=
  if startOffset =? 0 then
    (shift_loop (Z.to_nat (endOffset - startOffset)) (VArray targetList),
     if startOffset <? endOffset then tl targetList else targetList)
  else
    (Throw TypeError, targetList).

(** [inheritAndUpdate(startBlock, {text, characterList})] as
    removeRangeFromContentState builds it. *)
Record modifiedBlock : Type := mkModified
  { mb_self : ref;
    mb_prototype : ContentBlock.t;
    mb_text : string;
    mb_characterList : listValue }.

Definition key_is (k : option string) (s : string) : bool :=
  bool_decide (k = Some s).

(** The loop over the block map that collects [blockMapUpdatedEntries]. *)
Fixpoint removeRange_entries (startKey endKey : string) (parentAncestors : list string)
    (loopState : Z) (entries : BlockMap) : BlockMap :=
  match entries with
  | [] => []
  | blockMapEntry :: rest =>
      if (loopState =? 0) && key_is (fst blockMapEntry) startKey then
        removeRange_entries startKey endKey parentAncestors (loopState + 1) rest
      else if (loopState =? 1) && key_is (fst blockMapEntry) endKey then
        (fst blockMapEntry, None)
          :: removeRange_entries startKey endKey parentAncestors (loopState + 1) rest
      else if loopState =? 1 then
        if existsb (key_is (fst blockMapEntry)) parentAncestors then
          removeRange_entries startKey endKey parentAncestors loopState rest
        else
          blockMapEntry
            :: removeRange_entries startKey endKey parentAncestors loopState rest
      else
        removeRange_entries startKey endKey parentAncestors loopState rest
  end.

(** The array of a block after [shift()] took its first element: every entry
    of the block map that holds this block object sees it. *)
Definition with_shared_array (m : BlockMap) (b : ContentBlock.t)
    (arr : list CharacterMetadata.t) : BlockMap :=
  map (fun e =>
         match snd e with
         | Some b' =>
             if ContentBlock.same b' b then
               (fst e,
                Some (ContentBlock.mk (ContentBlock.self b') (ContentBlock.key b')
                        (ContentBlock.type b') (ContentBlock.text b')
                        (ContentBlock.depth b') arr (ContentBlock.data b')))
             else e
         | None => e
         end) m.

Definition same_block (a b : option ContentBlock.t) : bool :=
  match a, b with
  | Some x, Some y => ContentBlock.same x y
  | None, None => true
  | _, _ => false
  end.

Definition removeRangeFromContentState (contentState : ContentState.t)
    (selectionState : SelectionState.t) : M ContentState.t :=
  if SelectionState.isCollapsed selectionState then ret contentState
  else
    let blockMap := ContentState.getBlockMap contentState in
    let startKey := SelectionState.getStartKey selectionState in
    let startOffset := SelectionState.getStartOffset selectionState in
    let endKey := SelectionState.getEndKey selectionState in
    let endOffset := SelectionState.getEndOffset selectionState in
    let startBlock := BlockMap_get blockMap startKey in
    let endBlock := BlockMap_get blockMap endKey in
    (* isExperimentalTreeBlock is false: no block is a ContentBlockNode *)
    let parentAncestors : list string := [] in
    let* removed :=
      match startBlock, endBlock with
      | Some sb, Some eb =>
          if same_block startBlock endBlock then
            let '(r, arr) :=
              removeFromList (ContentBlock.getCharacterList sb) startOffset endOffset in
            match r with
            | Ok v => ret (v, with_shared_array blockMap sb arr)
            | Throw e => throw e
            end
          else
            ret (VArray (Array_slice (ContentBlock.getCharacterList sb) 0 startOffset
                         ++ Array_slice_from (ContentBlock.getCharacterList eb) endOffset)%list,
                 blockMap)
      | _, _ => throw TypeError (* getCharacterList() on undefined *)
      end in
    let characterList := fst removed in
    let blockMap := snd removed in
    match startBlock, endBlock with
    | Some sb, Some eb =>
        let* r := alloc in
        let modifiedStart :=
          {| mb_self := r;
             mb_prototype := sb;
             mb_text := String_slice (ContentBlock.getText sb) 0 startOffset
                        ++ String_slice_from (ContentBlock.getText eb) endOffset;
             mb_characterList := characterList |} in
        (* shouldDeleteParent is false *)
        let blockMapUpdatedEntries :=
          map (fun e => if key_is (fst e) startKey then Some modifiedStart else None)
              (removeRange_entries startKey endKey parentAncestors 0 blockMap) in
        (* [...blockMap.entries(), ...blockMapUpdatedEntries].filter(([_, block])
           => !!block): the added elements are blocks or null, not pairs *)
        match blockMapUpdatedEntries with
        | _ :: _ => throw TypeError
        | [] =>
            let updatedBlockMap :=
              Map_of_entries
                (List.filter (fun e => match snd e with Some _ => true | None => false end)
                        blockMap) in
            let* after :=
              SelectionState.set selectionState
                {| SelectionState.put_anchorKey := Some startKey;
                   SelectionState.put_anchorOffset := Some startOffset;
                   SelectionState.put_focusKey := Some startKey;
                   SelectionState.put_focusOffset := Some startOffset;
                   SelectionState.put_isBackward := Some false;
                   SelectionState.put_hasFocus := None |} in
            ContentState.set contentState
              {| ContentState.put_blockMap := Some updatedBlockMap;
                 ContentState.put_entityMap := None;
                 ContentState.put_selectionBefore := Some (Some selectionState);
                 ContentState.put_selectionAfter := Some (Some after) |}
        end
    | _, _ => throw TypeError
    end.

(** ** applyEntityToContentBlock *)

(** [array[i] = x] at an index inside the array. *)
Definition Array_set {A : Type} (l : list A) (i : Z) (x : A) : list A :=
  <[Z.to_nat i := x]> l.

(** [while (start < end) { characterList[start] =
    CharacterMetadata.applyEntity(characterList[start], entityKey); start++ }];
    outside the array [characterList[start]] is undefined and
    [record.getEntity()] throws. *)
Fixpoint applyEntity_loop (iterations : nat) (characterList : list CharacterMetadata.t)
    (start : Z) (entityKey : option string) : M (list CharacterMetadata.t) :=
  match iterations with
  | O => ret characterList
  | S n =>
      match Array_get characterList start with
      | None => throw TypeError
      | Some current =>
          let* updated := CharacterMetadata.applyEntity current entityKey in
          applyEntity_loop n (Array_set characterList start updated) (start + 1) entityKey
      end
  end.

Definition applyEntityToContentBlock (contentBlock : option ContentBlock.t)
    (start end_ : Z) (entityKey : option string) : M ContentBlock.t :=
  match contentBlock with
  | None => throw TypeError (* getCharacterList() on undefined *)
  | Some b =>
      let* characterList :=
        applyEntity_loop (Z.to_nat (end_ - start)) (ContentBlock.getCharacterList b)
          start entityKey in
      ContentBlock.update b None (Some characterList)
  end.

(** ** applyEntityToContentState *)

(** The loop over the block map: it collects the rewritten blocks, not
    [key, block] pairs. *)
Fixpoint applyEntity_blocks (startKey endKey : string) (startOffset endOffset : Z)
    (entityKey : option string) (loopState : Z) (entries : BlockMap)
  : M (list ContentBlock.t) :=
  match entries with
  | [] => ret []
  | (key, block) :: rest =>
      let loopState :=
        if (loopState =? 0) && key_is key startKey then loopState + 1 else loopState in
      if loopState =? 1 then
        let sliceStart := if key_is key startKey then startOffset else 0 in
        let* sliceEnd :=
          if key_is key endKey then ret endOffset
          else match block with
               | Some b => ret (ContentBlock.getLength b)
               | None => throw TypeError
               end in
        let* newBlock := applyEntityToContentBlock block sliceStart sliceEnd entityKey in
        if key_is key endKey then ret [newBlock]
        else
          let* more :=
            applyEntity_blocks startKey endKey startOffset endOffset entityKey
              loopState rest in
          ret (newBlock :: more)
      else
        applyEntity_blocks startKey endKey startOffset endOffset entityKey loopState rest
  end.

(** [new Map(iterable)] reads [item[0]] and [item[1]] of every item: a block
    object has neither property, so it adds the entry undefined -> undefined. *)
Definition entry_of_block (b : ContentBlock.t) : option string * option ContentBlock.t :=
  (None, None).

Definition applyEntityToContentState (contentState : ContentState.t)
    (selectionState : SelectionState.t) (entityKey : option string) : M ContentState.t :=
  let blockMap := ContentState.getBlockMap contentState in
  let startKey := SelectionState.getStartKey selectionState in
  let startOffset := SelectionState.getStartOffset selectionState in
  let endKey := SelectionState.getEndKey selectionState in
  let endOffset := SelectionState.getEndOffset selectionState in
  let* newBlockEntries :=
    applyEntity_blocks startKey endKey startOffset endOffset entityKey 0 blockMap in
  ContentState.set contentState
    {| ContentState.put_blockMap :=
         Some (Map_of_entries (blockMap ++ map entry_of_block newBlockEntries)%list);
       ContentState.put_entityMap := None;
       ContentState.put_selectionBefore := Some (Some selectionState);
       ContentState.put_selectionAfter := Some (Some selectionState) |}.

(** ** modifyBlockForContentState *)

(** The loop over the block map.  [operation] is called with the block
    alone. *)
Fixpoint modifyBlock_entries (operation : option ContentBlock.t -> M ContentBlock.t)
    (startKey endKey : string) (loopState : Z) (entries : BlockMap)
  : M (list (option string * option ContentBlock.t)) :=
  match entries with
  | [] => ret []
  | blockMapEntry :: rest =>
      if (loopState =? 0) && key_is (fst blockMapEntry) startKey then
        (* skipUntil done *)
        modifyBlock_entries operation startKey endKey (loopState + 1) rest
      else if (loopState =? 1) && key_is (fst blockMapEntry) endKey then
        (* takeUntil done, concat the endKey block *)
        let* b := operation (snd blockMapEntry) in
        let* more := modifyBlock_entries operation startKey endKey (loopState + 1) rest in
        ret ((fst blockMapEntry, Some b) :: more)
      else if loopState =? 1 then
        (* takeUntil after skipUntil *)
        let* b := operation (snd blockMapEntry) in
        let* more := modifyBlock_entries operation startKey endKey loopState rest in
        ret ((fst blockMapEntry, Some b) :: more)
      else
        modifyBlock_entries operation startKey endKey loopState rest
  end.

Definition modifyBlockForContentState (contentState : ContentState.t)
    (selectionState : SelectionState.t)
    (operation : option ContentBlock.t -> M ContentBlock.t) : M ContentState.t :=
  let startKey := SelectionState.getStartKey selectionState in
  let endKey := SelectionState.getEndKey selectionState in
  let blockMap := ContentState.getBlockMap contentState in
  let* blockMapUpdatedEntries :=
    modifyBlock_entries operation startKey endKey 0 blockMap in
  ContentState.set contentState
    {| ContentState.put_blockMap :=
         Some (Map_of_entries (blockMap ++ blockMapUpdatedEntries)%list);
       ContentState.put_entityMap := None;
       ContentState.put_selectionBefore := Some (Some selectionState);
       ContentState.put_selectionAfter := Some (Some selectionState) |}.

(** ** ContentStateInlineStyle *)

(** [while (sliceStart < sliceEnd) { current = chars[sliceStart];
    chars[sliceStart] = addOrRemove ? applyStyle(current, inlineStyle)
    : removeStyle(current, inlineStyle); sliceStart++ }]. *)
Fixpoint modifyStyle_loop (iterations : nat) (chars : list CharacterMetadata.t)
    (sliceStart : Z) (inlineStyle : string) (addOrRemove : bool)
  : M (list CharacterMetadata.t) :=
  match iterations with
  | O => ret chars
  | S n =>
      match Array_get chars sliceStart with
      | None => throw TypeError (* record.getStyle() on undefined *)
      | Some current =>
          let* updated :=
            if addOrRemove then CharacterMetadata.applyStyle current inlineStyle
            else CharacterMetadata.removeStyle current inlineStyle in
          modifyStyle_loop n (Array_set chars sliceStart updated) (sliceStart + 1)
            inlineStyle addOrRemove
      end
  end.

(** The operation [(block, blockKey) => ...] of [modifyInlineStyle]. *)
Definition modifyInlineStyle_operation (startKey endKey : string)
    (startOffset endOffset : Z) (inlineStyle : string) (addOrRemove : bool)
    (block : option ContentBlock.t) (blockKey : option string) : M ContentBlock.t :=
  let* slice :=
    if String.eqb startKey endKey then ret (startOffset, endOffset)
    else
      let sliceStart := if key_is blockKey startKey then startOffset else 0 in
      match block with
      | Some b =>
          ret (sliceStart,
               if key_is blockKey endKey then endOffset else ContentBlock.getLength b)
      | None =>
          if key_is blockKey endKey then ret (sliceStart, endOffset)
          else throw TypeError
      end in
  match block with
  | None => throw TypeError (* getCharacterList() on undefined *)
  | Some b =>
      let* chars :=
        modifyStyle_loop (Z.to_nat (snd slice - fst slice))
          (ContentBlock.getCharacterList b) (fst slice) inlineStyle addOrRemove in
      ContentBlock.update b None (Some chars)
  end.

(** [modifyBlockForContentState] calls the operation with one argument: its
    parameter [blockKey] is undefined. *)
Definition modifyInlineStyle (contentState : ContentState.t)
    (selectionState : SelectionState.t) (inlineStyle : string) (addOrRemove : bool)
  : M ContentState.t :=
  let startKey := SelectionState.getStartKey selectionState in
  let startOffset := SelectionState.getStartOffset selectionState in
  let endKey := SelectionState.getEndKey selectionState in
  let endOffset := SelectionState.getEndOffset selectionState in
  modifyBlockForContentState contentState selectionState
    (fun block =>
       modifyInlineStyle_operation startKey endKey startOffset endOffset
         inlineStyle addOrRemove block None).

Module ContentStateInlineStyle.

Definition add (contentState : ContentState.t) (selectionState : SelectionState.t)
    (inlineStyle : string) : M ContentState.t :=
  modifyInlineStyle contentState selectionState inlineStyle true.

Definition remove (contentState : ContentState.t) (selectionState : SelectionState.t)
    (inlineStyle : string) : M ContentState.t :=
  modifyInlineStyle contentState selectionState inlineStyle false.

End ContentStateInlineStyle.

(** ** findRangesImmutable

    [foundFn] is called with the ranges in order: the model returns the list
    of the pairs [(start, end)] it is called with.  Indices of an array are
    natural numbers. *)

Section FindRanges.
Context {T : Type}.
Variable areEqualFn : T -> T -> bool.
Variable filterFn : T -> bool.

(** [haystack.reduce((value, nextValue, nextIndex) => ...)] from the second
    element on, followed by the last statement of the function, which runs
    when [nextIndex] has reached [haystack.length] and [value] is the last
    element: [filterFn(haystack[haystack.length - 1]) && foundFn(cursor,
    haystack.length)]. *)
Fixpoint findRanges_reduce (value : T) (cursor nextIndex : nat) (rest : list T)
  : list (nat * nat) :=
  match rest with
  | [] => if filterFn value then [(cursor, nextIndex)] else []
  | nextValue :: rest' =>
      if negb (areEqualFn value nextValue) then
        ((if filterFn value then [(cursor, nextIndex)] else [])
         ++ findRanges_reduce nextValue nextIndex (S nextIndex) rest')%list
      else findRanges_reduce nextValue cursor (S nextIndex) rest'
  end.

Definition findRangesImmutable (haystack : list T) : list (nat * nat) :=
  match haystack with
  | [] => []
  | first :: rest => findRanges_reduce first 0 1 rest
  end.

End FindRanges.

(** ** EditorState *)

(** A decorator is compared by identity only: its address. *)
Definition Decorator : Type := ref.

(** The process-wide entity registry, which [getEntityMap()] returns for
    every ContentState. *)
Definition DraftEntity : EntityMap := 1%nat.

(** ** BlockTree and EditorBidiService *)

Record LeafRange : Type := mkLeafRange
  { leaf_start : Z;
    leaf_end : Z }.

Record DecoratorRange : Type := mkDecoratorRange
  { range_start : Z;
    range_end : Z;
    decoratorKey : option string;
    leaves : list LeafRange }.

(** What the derived caches of an EditorState take from outside the
    sources: the class [UnicodeBidiService] (a service is [reset()] at the
    start of every call, which is taken to put it in the state of a new
    one), the decorator objects a caller supplies, and the identity of style
    set objects, which the characters of the model do not record. *)
Record collaborators : Type := mkCollaborators
  { BidiDirection : Type;
    (* a === b on directions *)
    BidiDirection_eq_dec : forall a b : BidiDirection, {a = b} + {a <> b};
    (* the state of a UnicodeBidiService *)
    BidiService : Type;
    (* new UnicodeBidiService(), and a service after reset() *)
    bidiService_reset : BidiService;
    (* bidiService.getDirection(text): the direction, and the service after
       the call *)
    bidiService_getDirection : BidiService -> string -> BidiDirection * BidiService;
    (* decorator.getDecorations(block, contentState) *)
    getDecorations : Decorator -> ContentBlock.t -> ContentState.t -> list (option string);
    (* decorator.getDecorations(x, contentState)
       !== existingDecorator.getDecorations(x, contentState), where x is a
       value of the previous tree map *)
    decorations_differ :
      Decorator -> Decorator -> list DecoratorRange -> ContentState.t -> bool;
    (* a.getStyle() === b.getStyle() *)
    same_style_object : CharacterMetadata.t -> CharacterMetadata.t -> bool }.

Section Collaborating.
Variable X : collaborators.

Definition BidiDirectionMap : Type := list (option string * BidiDirection X).

(** [prevBidiMap != null && prevBidiMap.get(key) !== direction]. *)
Definition direction_changed (prevBidiMap : option BidiDirectionMap)
    (key : option string) (direction : BidiDirection X) : bool :=
  match prevBidiMap with
  | None => false
  | Some prev =>
      match Map_get prev key with
      | Some d => if BidiDirection_eq_dec X d direction then false else true
      | None => true
      end
  end.

(** The loop [for (const [key, block] of blockMap)] of
    [EditorBidiService.getDirectionMap]. *)
Fixpoint getDirectionMap_loop (bidiService : BidiService X)
    (prevBidiMap : option BidiDirectionMap) (entries : BlockMap)
    (bidiMap : BidiDirectionMap) (bidiChanged : bool)
  : result (BidiDirectionMap * bool) :=
  match entries with
  | [] => Ok (bidiMap, bidiChanged)
  | entry :: rest =>
      match snd entry with
      | None => Throw TypeError (* block.getText() on undefined *)
      | Some block =>
          let answer :=
            bidiService_getDirection X bidiService (ContentBlock.getText block) in
          let direction := fst answer in
          let bidiMap := Map_set bidiMap (fst entry) direction in
          let bidiChanged :=
            bidiChanged || direction_changed prevBidiMap (fst entry) direction in
          getDirectionMap_loop (snd answer) prevBidiMap rest bidiMap bidiChanged
      end
  end.

Definition EditorBidiService_getDirectionMap (content : ContentState.t)
    (prevBidiMap : option BidiDirectionMap) : result BidiDirectionMap :=
  let blockMap := ContentState.getBlockMap content in
  match getDirectionMap_loop (bidiService_reset X) prevBidiMap blockMap [] false with
  | Throw e => Throw e
  | Ok looped =>
      let bidiMap := fst looped in
      let bidiChanged := snd looped in
      match prevBidiMap with
      | Some prev => if negb bidiChanged then Ok prev else Ok bidiMap
      | None => Ok bidiMap
      end
  end.

(** [generateLeaves(characters, offset)]. *)
Definition generateLeaves (characters : list CharacterMetadata.t) (offset : Z)
  : list LeafRange :=
  map (fun r =>
         {| leaf_start := Z.of_nat (fst r) + offset;
            leaf_end := Z.of_nat (snd r) + offset |})
      (findRangesImmutable (same_style_object X) (fun _ => true) characters).

(** [areEqual(a, b)] of BlockTree on decorator keys. *)
Definition areEqual (a b : option string) : bool := bool_decide (a = b).

(** [BlockTree.generate(contentState, block, decorator)]. *)
Definition BlockTree_generate (contentState : ContentState.t)
    (block : option ContentBlock.t) (decorator : option Decorator)
  : result (list DecoratorRange) :=
  match block with
  | None => Throw TypeError (* block.getLength() on undefined *)
  | Some block =>
      let textLength := ContentBlock.getLength block in
      if textLength =? 0 then
        Ok [{| range_start := 0; range_end := 0; decoratorKey := None;
               leaves := [{| leaf_start := 0; leaf_end := 0 |}] |}]
      else
        let decorations :=
          match decorator with
          | Some d => getDecorations X d block contentState
          | None => Array_fill (Z.to_nat textLength) None
          end in
        let chars := ContentBlock.getCharacterList block in
        Ok (map (fun r =>
                   let start := Z.of_nat (fst r) in
                   let end_ := Z.of_nat (snd r) in
                   {| range_start := start;
                      range_end := end_;
                      decoratorKey :=
                        match Array_get decorations start with
                        | Some k => k
                        | None => None
                        end;
                      leaves := generateLeaves (Array_slice chars start end_) start |})
                (findRangesImmutable areEqual (fun _ => true) decorations))
  end.

End Collaborating.

Module EditorState.

Section WithCollaborators.
Variable X : collaborators.

Definition EditorStateTreeMap : Type := list (option string * list DecoratorRange).
Definition EditorStateDirectionMap : Type := BidiDirectionMap X.

(** [EditorStateData].  A boolean property that was never set reads as
    undefined, which is falsy: [false]. *)
Record EditorStateData : Type := mkData
  { allowUndo : bool;
    currentContent : ContentState.t;
    decorator : option Decorator;
    directionMap : EditorStateDirectionMap;
    forceSelection_flag : bool;
    inCompositionMode : bool;
    inlineStyleOverride : option DraftInlineStyle;
    lastChangeType : option string;
    nativelyRenderedContent : option ContentState.t;
    redoStack : list ContentState.t;
    selection : option SelectionState.t;
    treeMap : EditorStateTreeMap;
    undoStack : list ContentState.t }.

Record t : Type := mk
  { self : ref;
    _state : EditorStateData }.

(** [EditorStateConfig]: an absent property is [None]. *)
Record config : Type := mkConfig
  { put_allowUndo : option bool;
    put_currentContent : option ContentState.t;
    put_decorator : option (option Decorator);
    put_directionMap : option EditorStateDirectionMap;
    put_forceSelection : option bool;
    put_inCompositionMode : option bool;
    put_inlineStyleOverride : option (option DraftInlineStyle);
    put_lastChangeType : option (option string);
    put_nativelyRenderedContent : option (option ContentState.t);
    put_redoStack : option (list ContentState.t);
    put_selection : option (option SelectionState.t);
    put_treeMap : option EditorStateTreeMap;
    put_undoStack : option (list ContentState.t) }.

Definition no_put : config :=
  mkConfig None None None None None None None None None None None None None.

Definition getAllowUndo (e : t) := allowUndo (_state e).
Definition getCurrentContent (e : t) := currentContent (_state e).
Definition getUndoStack (e : t) := undoStack (_state e).
Definition getRedoStack (e : t) := redoStack (_state e).
Definition getSelection (e : t) := selection (_state e).
Definition getDecorator (e : t) := decorator (_state e).
Definition isInCompositionMode (e : t) := inCompositionMode (_state e).
Definition mustForceSelection (e : t) := forceSelection_flag (_state e).
Definition getNativelyRenderedContent (e : t) := nativelyRenderedContent (_state e).
Definition getLastChangeType (e : t) := lastChangeType (_state e).
Definition getInlineStyleOverride (e : t) := inlineStyleOverride (_state e).
Definition getDirectionMap (e : t) := directionMap (_state e).

(** [Object.assign(newState, put)]. *)
Definition assign (s : EditorStateData) (put : config) : EditorStateData :=
  {| allowUndo := default (allowUndo s) (put_allowUndo put);
     currentContent := default (currentContent s) (put_currentContent put);
     decorator := default (decorator s) (put_decorator put);
     directionMap := default (directionMap s) (put_directionMap put);
     forceSelection_flag := default (forceSelection_flag s) (put_forceSelection put);
     inCompositionMode := default (inCompositionMode s) (put_inCompositionMode put);
     inlineStyleOverride := default (inlineStyleOverride s) (put_inlineStyleOverride put);
     lastChangeType := default (lastChangeType s) (put_lastChangeType put);
     nativelyRenderedContent :=
       default (nativelyRenderedContent s) (put_nativelyRenderedContent put);
     redoStack := default (redoStack s) (put_redoStack put);
     selection := default (selection s) (put_selection put);
     treeMap := default (treeMap s) (put_treeMap put);
     undoStack := default (undoStack s) (put_undoStack put) |}.

(** [entries.map(([key, block]) => [key, BlockTree.generate(contentState,
    block, decorator)])]. *)
Fixpoint generate_entries (contentState : ContentState.t)
    (decorator : option Decorator) (entries : BlockMap) : result EditorStateTreeMap :=
  match entries with
  | [] => Ok []
  | e :: rest =>
      match BlockTree_generate X contentState (snd e) decorator with
      | Throw ex => Throw ex
      | Ok tree =>
          match generate_entries contentState decorator rest with
          | Throw ex => Throw ex
          | Ok more => Ok ((fst e, tree) :: more)
          end
      end
  end.

Definition generateNewTreeMap (contentState : ContentState.t)
    (decorator : option Decorator) : result EditorStateTreeMap :=
  match generate_entries contentState decorator
          (ContentState.getBlockMap contentState) with
  | Throw ex => Throw ex
  | Ok newTreeMapEntries => Ok (Map_of_entries newTreeMapEntries)
  end.

Definition regenerateTreeForNewBlocks (editorState : t) (newBlockMap : BlockMap)
    (newEntityMap : EntityMap) (decorator : option Decorator) : M EditorStateTreeMap :=
  let* contentState :=
    ContentState.set (getCurrentContent editorState)
      {| ContentState.put_blockMap := None;
         ContentState.put_entityMap := Some newEntityMap;
         ContentState.put_selectionBefore := None;
         ContentState.put_selectionAfter := None |} in
  let prevBlockMap := ContentState.getBlockMap contentState in
  let prevTreeMap := treeMap (_state editorState) in
  let* regenerated :=
    lift (generate_entries contentState decorator
            (List.filter
               (fun e =>
                  negb (same_block (snd e)
                          (match Map_get prevBlockMap (fst e) with
                           | Some b => b
                           | None => None
                           end)))
               newBlockMap)) in
  ret (Map_of_entries (prevTreeMap ++ regenerated)%list).

(** The entries of the previous tree map hold arrays of ranges, not blocks:
    for every entry the filter lets through, [BlockTree.generate] is called
    with such an array and its first statement, [block.getLength()], throws. *)
Definition regenerateTreeForNewDecorator (contentState : ContentState.t)
    (blockMap : BlockMap) (previousTreeMap : EditorStateTreeMap)
    (decorator existingDecorator : Decorator) : result EditorStateTreeMap :=
  match List.filter
          (fun e => decorations_differ X decorator existingDecorator (snd e) contentState)
          previousTreeMap with
  | [] => Ok (Map_of_entries [])
  | _ :: _ => Throw TypeError
  end.

Definition same_decorator (a b : option Decorator) : bool :=
  bool_decide (a = b).

(** [static set(editorState, put)]. *)
Definition set (editorState : t) (put : config) : M t :=
  let newState := _state editorState in
  let existingDecorator := decorator newState in
  let decorator :=
    match put_decorator put with
    | Some None => None
    | Some (Some d) => Some d
    | None => existingDecorator
    end in
  let newContent :=
    match put_currentContent put with
    | Some c => c
    | None => getCurrentContent editorState
    end in
  let* newState :=
    if negb (same_decorator decorator existingDecorator) then
      let treeMap := treeMap newState in
      let* newTreeMap :=
        lift (match decorator, existingDecorator with
              | Some d, Some ed =>
                  regenerateTreeForNewDecorator newContent
                    (ContentState.getBlockMap newContent) treeMap d ed
              | _, _ => generateNewTreeMap newContent decorator
              end) in
      ret (assign newState
             {| put_allowUndo := None; put_currentContent := None;
                put_decorator := Some decorator; put_directionMap := None;
                put_forceSelection := None; put_inCompositionMode := None;
                put_inlineStyleOverride := None; put_lastChangeType := None;
                put_nativelyRenderedContent := Some None; put_redoStack := None;
                put_selection := None; put_treeMap := Some newTreeMap;
                put_undoStack := None |})
    else
      let existingContent := getCurrentContent editorState in
      let* newState :=
        if negb (ContentState.same newContent existingContent) then
          let* newTreeMap :=
            regenerateTreeForNewBlocks editorState
              (ContentState.getBlockMap newContent) DraftEntity decorator in
          ret (assign newState
                 {| put_allowUndo := None; put_currentContent := None;
                    put_decorator := None; put_directionMap := None;
                    put_forceSelection := None; put_inCompositionMode := None;
                    put_inlineStyleOverride := None; put_lastChangeType := None;
                    put_nativelyRenderedContent := None; put_redoStack := None;
                    put_selection := None; put_treeMap := Some newTreeMap;
                    put_undoStack := None |})
        else ret newState in
      ret (assign newState put) in
  let* r := alloc in
  ret {| self := r; _state := newState |}.

(** [updateSelection]. *)
Definition updateSelection (editorState : t) (selection : SelectionState.t)
    (forceSelection : bool) : M t :=
  set editorState
    {| put_allowUndo := None; put_currentContent := None; put_decorator := None;
       put_directionMap := None; put_forceSelection := Some forceSelection;
       put_inCompositionMode := None; put_inlineStyleOverride := Some None;
       put_lastChangeType := None; put_nativelyRenderedContent := Some None;
       put_redoStack := None; put_selection := Some (Some selection);
       put_treeMap := None; put_undoStack := None |}.

Definition acceptSelection (editorState : t) (selection : SelectionState.t) : M t :=
  updateSelection editorState selection false.

Definition forceSelection (editorState : t) (selection : SelectionState.t) : M t :=
  let* selection :=
    if negb (SelectionState.getHasFocus selection) then
      SelectionState.set selection
        {| SelectionState.put_anchorKey := None; SelectionState.put_anchorOffset := None;
           SelectionState.put_focusKey := None; SelectionState.put_focusOffset := None;
           SelectionState.put_isBackward := None;
           SelectionState.put_hasFocus := Some true |}
    else ret selection in
  updateSelection editorState selection true.

(** [changeType !== lastChangeType]. *)
Definition changeType_differs (changeType : string) (last : option string) : bool :=
  negb (bool_decide (last = Some changeType)).

Definition mustBecomeBoundary (editorState : t) (changeType : string) : bool :=
  let lastChangeType := getLastChangeType editorState in
  changeType_differs changeType lastChangeType
  || (negb (String.eqb changeType "insert-characters")
      && negb (String.eqb changeType "backspace-character")
      && negb (String.eqb changeType "delete-character")).

(** The three change types of typing. *)
Definition typing_change (changeType : string) : bool :=
  String.eqb changeType "insert-characters"
  || String.eqb changeType "backspace-character"
  || String.eqb changeType "delete-character".

(** The condition of [push] under which the current content goes onto the
    undo stack. *)
Definition is_boundary (editorState : t) (changeType : string) : bool :=
  negb (SelectionState.same (getSelection editorState)
          (ContentState.getSelectionAfter (getCurrentContent editorState)))
  || mustBecomeBoundary editorState changeType.

(** [static push(editorState, contentState, changeType, forceSelection)]. *)
Definition push (editorState : t) (contentState : ContentState.t)
    (changeType : string) (forceSelection : bool) : M t :=
  if ContentState.same (getCurrentContent editorState) contentState then ret editorState
  else
    let* directionMap :=
      lift (EditorBidiService_getDirectionMap X contentState
              (Some (getDirectionMap editorState))) in
    if negb (getAllowUndo editorState) then
      set editorState
        {| put_allowUndo := None; put_currentContent := Some contentState;
           put_decorator := None; put_directionMap := Some directionMap;
           put_forceSelection := Some forceSelection; put_inCompositionMode := None;
           put_inlineStyleOverride := Some None;
           put_lastChangeType := Some (Some changeType);
           put_nativelyRenderedContent := None; put_redoStack := None;
           put_selection := Some (ContentState.getSelectionAfter contentState);
           put_treeMap := None; put_undoStack := None |}
    else
      let selection := getSelection editorState in
      let currentContent := getCurrentContent editorState in
      let undoStack := getUndoStack editorState in
      let newContent := contentState in
      let* pushed :=
        if negb (SelectionState.same selection
                   (ContentState.getSelectionAfter currentContent))
           || mustBecomeBoundary editorState changeType
        then
          let* newContent :=
            ContentState.set newContent
              {| ContentState.put_blockMap := None; ContentState.put_entityMap := None;
                 ContentState.put_selectionBefore := Some selection;
                 ContentState.put_selectionAfter := None |} in
          ret ((undoStack ++ [currentContent])%list, newContent)
        else if String.eqb changeType "insert-characters"
                || String.eqb changeType "backspace-character"
                || String.eqb changeType "delete-character"
        then
          (* Preserve the previous selection. *)
          let* newContent :=
            ContentState.set newContent
              {| ContentState.put_blockMap := None; ContentState.put_entityMap := None;
                 ContentState.put_selectionBefore :=
                   Some (ContentState.getSelectionBefore currentContent);
                 ContentState.put_selectionAfter := None |} in
          ret (undoStack, newContent)
        else ret (undoStack, newContent) in
      let undoStack := fst pushed in
      let newContent := snd pushed in
      let inlineStyleOverride := getInlineStyleOverride editorState in
      (* Don't discard inline style overrides for the following change types *)
      let overrideChangeTypes :=
        ["adjust-depth"; "change-block-type"; "split-block"] in
      let inlineStyleOverride :=
        if Array_indexOf overrideChangeTypes changeType =? -1 then None
        else inlineStyleOverride in
      set editorState
        {| put_allowUndo := None; put_currentContent := Some newContent;
           put_decorator := None; put_directionMap := Some directionMap;
           put_forceSelection := Some forceSelection; put_inCompositionMode := None;
           put_inlineStyleOverride := Some inlineStyleOverride;
           put_lastChangeType := Some (Some changeType);
           put_nativelyRenderedContent := None; put_redoStack := Some [];
           put_selection := Some (ContentState.getSelectionAfter contentState);
           put_treeMap := None; put_undoStack := Some undoStack |}.

(** [static undo(editorState)]. *)
Definition undo (editorState : t) : M t :=
  if negb (getAllowUndo editorState) then ret editorState
  else
    let undoStack := getUndoStack editorState in
    match Array_get undoStack 0 with
    | None => ret editorState
    | Some newCurrentContent =>
        let currentContent := getCurrentContent editorState in
        let* directionMap :=
          lift (EditorBidiService_getDirectionMap X newCurrentContent
                  (Some (getDirectionMap editorState))) in
        set editorState
          {| put_allowUndo := None; put_currentContent := Some newCurrentContent;
             put_decorator := None; put_directionMap := Some directionMap;
             put_forceSelection := Some true; put_inCompositionMode := None;
             put_inlineStyleOverride := Some None;
             put_lastChangeType := Some (Some "undo");
             put_nativelyRenderedContent := Some None;
             put_redoStack := Some (getRedoStack editorState ++ [currentContent])%list;
             put_selection := Some (ContentState.getSelectionBefore currentContent);
             put_treeMap := None;
             put_undoStack := Some (Array_slice_from undoStack 1) |}
    end.

(** [static redo(editorState)]. *)
Definition redo (editorState : t) : M t :=
  if negb (getAllowUndo editorState) then ret editorState
  else
    let redoStack := getRedoStack editorState in
    match Array_get redoStack 0 with
    | None => ret editorState
    | Some newCurrentContent =>
        let currentContent := getCurrentContent editorState in
        let* directionMap :=
          lift (EditorBidiService_getDirectionMap X newCurrentContent
                  (Some (getDirectionMap editorState))) in
        set editorState
          {| put_allowUndo := None; put_currentContent := Some newCurrentContent;
             put_decorator := None; put_directionMap := Some directionMap;
             put_forceSelection := Some true; put_inCompositionMode := None;
             put_inlineStyleOverride := Some None;
             put_lastChangeType := Some (Some "redo");
             put_nativelyRenderedContent := Some None;
             put_redoStack := Some (Array_slice_from redoStack 1);
             put_selection := Some (ContentState.getSelectionAfter newCurrentContent);
             put_treeMap := None;
             put_undoStack := Some (getUndoStack editorState ++ [currentContent])%list |}
    end.

End WithCollaborators.

End EditorState.

(** Every entry of the block map of a content holds a block. *)
Definition blocks_defined (c : ContentState.t) : Prop :=
  forall entry, List.In entry (ContentState.blockMap c) -> snd entry <> None.

(** Some entry of the block map of a content holds [undefined]. *)
Definition has_undefined_block (c : ContentState.t) : Prop :=
  exists entry, List.In entry (ContentState.blockMap c) /\ snd entry = None.

(** Ranges that follow one another between [lo] and [hi]: each is not empty
    and starts at or after the end of the one before. *)
Fixpoint ranges_ordered (lo : nat) (ranges : list (nat * nat)) (hi : nat) : Prop :=
  match ranges with
  | [] => (lo <= hi)%nat
  | (s, e) :: more => (lo <= s)%nat /\ (s < e)%nat /\ ranges_ordered e more hi
  end.

(** Ranges that tile [lo, hi): each is not empty and starts where the one
    before ends. *)
Fixpoint ranges_tile (lo : nat) (ranges : list (nat * nat)) (hi : nat) : Prop :=
  match ranges with
  | [] => lo = hi
  | (s, e) :: more => s = lo /\ (s < e)%nat /\ ranges_tile e more hi
  end.

(** [haveEqualEntity] of ContentBlock: [===] on entity keys. *)
Definition haveEqualEntity (charA charB : CharacterMetadata.t) : bool :=
  bool_decide (CharacterMetadata.getEntity charA = CharacterMetadata.getEntity charB).

(** [block.findEntityRanges(filterFn, callback)]. *)
Definition findEntityRanges (b : ContentBlock.t)
    (filterFn : CharacterMetadata.t -> bool) : list (nat * nat) :=
  findRangesImmutable haveEqualEntity filterFn (ContentBlock.getCharacterList b).

(** ** A sample document

    Two of the blocks of the test fixture [getSampleStateForTesting], with
    plain characters, and an editor over them. *)

Definition sample_blockA : ContentBlock.t :=
  ContentBlock.mk 10%nat "a" "unstyled" "Alpha" 0
    (Array_fill 5 CharacterMetadata.EMPTY) [].

Definition sample_blockB : ContentBlock.t :=
  ContentBlock.mk 11%nat "b" "unordered-list-item" "Bravo" 0
    (Array_fill 5 CharacterMetadata.EMPTY) [].

Definition sample_blockMap : BlockMap :=
  [(Some "a", Some sample_blockA); (Some "b", Some sample_blockB)].

(** A collapsed selection at offset [offset] of block [key]. *)
Definition cursor (r : ref) (key : string) (offset : Z) : SelectionState.t :=
  SelectionState.mk r key offset key offset false true.

(** A forward selection inside block [key]. *)
Definition range (r : ref) (key : string) (from to : Z) : SelectionState.t :=
  SelectionState.mk r key from key to false true.

Definition sample_selection : SelectionState.t := cursor 12%nat "a" 0.

Definition sample_content : ContentState.t :=
  ContentState.mk 13%nat sample_blockMap DraftEntity
    (Some sample_selection) (Some sample_selection).

(** A heap in which the sample objects (addresses below 40) are allocated. *)
Definition sample_heap : heap :=
  {| next_ref := 40%nat; pool := pool initial_heap |}.

(** The simplest collaborators: one direction, decorators that decorate
    nothing, and one style set object per character object. *)
Definition no_collaborators : collaborators :=
  {| BidiDirection := unit;
     BidiDirection_eq_dec := fun a b => match a, b with tt, tt => left eq_refl end;
     BidiService := unit;
     bidiService_reset := tt;
     bidiService_getDirection := fun _ _ => (tt, tt);
     getDecorations :=
       fun _ block _ => Array_fill (String.length (ContentBlock.getText block)) None;
     decorations_differ := fun _ _ _ _ => false;
     same_style_object := fun a b => Nat.eqb (cm_self a) (cm_self b) |}.

(** The value of a result, [fallback] for an error. *)
Definition value_or {A : Type} (fallback : A) (r : result A) : A :=
  match r with
  | Ok a => a
  | Throw _ => fallback
  end.

(** An editor with undo enabled over [content], with the given history. *)
Definition sample_editor (r : ref) (content : ContentState.t)
    (undoStack redoStack : list ContentState.t)
    (selection : option SelectionState.t) (lastChangeType : option string)
  : EditorState.t no_collaborators :=
  EditorState.mk no_collaborators r
    (EditorState.mkData no_collaborators
       true content None
       (value_or [] (EditorBidiService_getDirectionMap no_collaborators content None))
       false false None lastChangeType None
       redoStack selection
       (value_or [] (EditorState.generateNewTreeMap no_collaborators content None))
       undoStack).

(** Collaborators whose decorators never return the decorations of another
    decorator. *)
Definition differing_collaborators : collaborators :=
  {| BidiDirection := unit;
     BidiDirection_eq_dec := fun a b => match a, b with tt, tt => left eq_refl end;
     BidiService := unit;
     bidiService_reset := tt;
     bidiService_getDirection := fun _ _ => (tt, tt);
     getDecorations :=
       fun _ block _ => Array_fill (String.length (ContentBlock.getText block)) None;
     decorations_differ := fun _ _ _ _ => true;
     same_style_object := fun a b => Nat.eqb (cm_self a) (cm_self b) |}.

(** An editor over [content] with the decorator at address [decorator]. *)
Definition sample_editor_decorated (r : ref) (content : ContentState.t)
    (decorator : Decorator) : EditorState.t differing_collaborators :=
  EditorState.mk differing_collaborators r
    (EditorState.mkData differing_collaborators
       true content (Some decorator)
       (value_or [] (EditorBidiService_getDirectionMap differing_collaborators content None))
       false false None None None [] (ContentState.getSelectionAfter content)
       (value_or []
          (EditorState.generateNewTreeMap differing_collaborators content (Some decorator)))
       []).

(** Three further snapshots of the sample document, each with its own
    selections. *)
Definition sample_content1 : ContentState.t :=
  ContentState.mk 21%nat sample_blockMap DraftEntity
    (Some (cursor 22%nat "a" 1)) (Some (cursor 23%nat "a" 2)).

Definition sample_content2 : ContentState.t :=
  ContentState.mk 24%nat sample_blockMap DraftEntity
    (Some (cursor 25%nat "a" 2)) (Some (cursor 26%nat "a" 3)).

Definition sample_content3 : ContentState.t :=
  ContentState.mk 27%nat sample_blockMap DraftEntity
    (Some (cursor 28%nat "a" 3)) (Some (cursor 29%nat "a" 4)).

Definition sample_content4 : ContentState.t :=
  ContentState.mk 31%nat sample_blockMap DraftEntity
    (Some (range 32%nat "a" 0 4)) (Some (range 33%nat "a" 0 4)).

(** The editor the samples start from: undo enabled, no history, no change
    made yet. *)
Definition sample_editor0 : EditorState.t no_collaborators :=
  sample_editor 14%nat sample_content [] [] (Some sample_selection) None.

(** An editor whose last change was typing and whose cursor was moved
    since: its selection is not the selectionAfter of its content. *)
Definition sample_editor_moved : EditorState.t no_collaborators :=
  sample_editor 14%nat sample_content [] [] (Some (cursor 15%nat "a" 2))
    (Some "insert-characters").

(** An editor whose last change was typing and whose cursor stayed where
    that change left it. *)
Definition sample_editor_typing : EditorState.t no_collaborators :=
  sample_editor 14%nat sample_content [] [] (Some sample_selection)
    (Some "insert-characters").

(** An editor with one entry on the undo stack. *)
Definition sample_editor_one_undo : EditorState.t no_collaborators :=
  sample_editor 14%nat sample_content2 [sample_content1] []
    (Some (cursor 26%nat "a" 3)) (Some "insert-fragment").

(** The block of the fixture [getSampleBlock]: "Alpha" with a bold
    character that carries the entity "x", two plain ones, a bold one and one
    with the entity alone. *)
Definition sample_bold_x : CharacterMetadata.t := mkCharacterMetadata 5%nat ["BOLD"] (Some "x").
Definition sample_bold : CharacterMetadata.t := mkCharacterMetadata 6%nat ["BOLD"] None.
Definition sample_x : CharacterMetadata.t := mkCharacterMetadata 7%nat [] (Some "x").

Definition getSampleBlock : ContentBlock.t :=
  ContentBlock.mk 16%nat "a" "unstyled" "Alpha" 0
    [sample_bold_x; CharacterMetadata.EMPTY; CharacterMetadata.EMPTY; sample_bold; sample_x]
    [].

(** The filter [c => c.getEntity() !== null]. *)
Definition hasEntity (c : CharacterMetadata.t) : bool :=
  match CharacterMetadata.getEntity c with Some _ => true | None => false end.

(** ** ContentState: the neighbours of a block *)

(** [entries.findIndex(([k]) => k === key)], counted from [i]. *)
Fixpoint findIndex_key (entries : BlockMap) (key : string) (i : Z) : Z :=
  match entries with
  | [] => -1
  | e :: rest => if key_is (fst e) key then i else findIndex_key rest key (i + 1)
  end.

(** [entries[i][1]]: outside the array [entries[i]] is undefined and reading
    its property throws. *)
Definition entry_value (entries : BlockMap) (i : Z) : result (option ContentBlock.t) :=
  match Array_get entries i with
  | Some e => Ok (snd e)
  | None => Throw TypeError
  end.

Definition ContentState_getBlockAfter (c : ContentState.t) (key : string)
  : result (option ContentBlock.t) :=
  let entries := ContentState.getBlockMap c in
  let index := findIndex_key entries key 0 in
  let blockAfter := entry_value entries (index + 1) in
  blockAfter.

Definition ContentState_getBlockBefore (c : ContentState.t) (key : string)
  : result (option ContentBlock.t) :=
  let entries := rev (ContentState.getBlockMap c) in
  let index := findIndex_key entries key 0 in
  let blockBefore := entry_value entries (index - 1) in
  blockBefore.

(** ** The intern pool and createCharacterList *)

(** The configuration a CharacterMetadata object stands for. *)
Definition config_of (c : CharacterMetadata.t) : CharacterMetadata.config :=
  {| CharacterMetadata.cfg_style := Some (cm_style c);
     CharacterMetadata.cfg_entity := Some (cm_entity c) |}.

(** Every object of the pool sits under the hash of its own configuration. *)
Definition pool_consistent (h : heap) : Prop :=
  forall (k : string) (c : CharacterMetadata.t),
    pool h !! k = Some c ->
    CharacterMetadata.hashCharacterMetadataConfig (config_of c) = k.

(** [inlineStyles.map((style, ii) => CharacterMetadata.create({style,
    entity: entities[ii]}))], from index [ii] on. *)
Fixpoint createCharacterList_from (inlineStyles : list DraftInlineStyle)
    (entities : list (option string)) (ii : nat) : M (list CharacterMetadata.t) :=
  match inlineStyles with
  | [] => ret []
  | style :: rest =>
      let entity := match nth_error entities ii with Some e => e | None => None end in
      let* c :=
        CharacterMetadata.create
          (Some {| CharacterMetadata.cfg_style := Some style;
                   CharacterMetadata.cfg_entity := Some entity |}) in
      let* more := createCharacterList_from rest entities (S ii) in
      ret (c :: more)
  end.

Definition createCharacterList (inlineStyles : list DraftInlineStyle)
    (entities : list (option string)) : M (list CharacterMetadata.t) :=
  createCharacterList_from inlineStyles entities 0.

(** ** ContentBlock.set, adjustBlockDepthForContentState *)

(** [BlockNodeConfig]: every property may be absent. *)
Record ContentBlockConfig : Type := mkBlockConfig
  { put_characterList : option (list CharacterMetadata.t);
    put_data : option (list (string * string));
    put_depth : option Z;
    put_key : option string;
    put_text : option string;
    put_type : option string }.

(** [inheritAndUpdate(block, put)]; [Object.create(undefined)] throws. *)
Definition ContentBlock_set (block : option ContentBlock.t) (put : ContentBlockConfig)
  : M ContentBlock.t :=
  match block with
  | None => throw TypeError
  | Some b =>
      let* r := alloc in
      ret {| ContentBlock.self := r;
             ContentBlock.key := default (ContentBlock.key b) (put_key put);
             ContentBlock.type := default (ContentBlock.type b) (put_type put);
             ContentBlock.text := default (ContentBlock.text b) (put_text put);
             ContentBlock.depth := default (ContentBlock.depth b) (put_depth put);
             ContentBlock.characterList :=
               default (ContentBlock.characterList b) (put_characterList put);
             ContentBlock.data := default (ContentBlock.data b) (put_data put) |}
  end.

(** The operation of [adjustBlockDepthForContentState]. *)
Definition adjustBlockDepth_operation (adjustment maxDepth : Z)
    (block : option ContentBlock.t) : M ContentBlock.t :=
  match block with
  | None => throw TypeError (* block.getDepth() on undefined *)
  | Some b =>
      let depth := ContentBlock.getDepth b + adjustment in
      let depth := Z.max 0 (Z.min depth maxDepth) in
      ContentBlock_set (Some b)
        {| put_characterList := None; put_data := None; put_depth := Some depth;
           put_key := None; put_text := None; put_type := None |}
  end.

Definition adjustBlockDepthForContentState (contentState : ContentState.t)
    (selectionState : SelectionState.t) (adjustment maxDepth : Z) : M ContentState.t :=
  modifyBlockForContentState contentState selectionState
    (adjustBlockDepth_operation adjustment maxDepth).

(** ** The blocks modifyBlockForContentState rewrites *)

(** The entries after the first entry of [key]; none when no entry has the
    key. *)
Fixpoint entries_after (key : string) (entries : BlockMap) : BlockMap :=
  match entries with
  | [] => []
  | e :: rest => if key_is (fst e) key then rest else entries_after key rest
  end.

(** The entries up to the first entry of [key], that entry included; all of
    them when no entry has the key. *)
Fixpoint entries_through (key : string) (entries : BlockMap) : BlockMap :=
  match entries with
  | [] => []
  | e :: rest => if key_is (fst e) key then [e] else e :: entries_through key rest
  end.

(** The operation applied to the blocks of the entries, in order. *)
Fixpoint operate (operation : option ContentBlock.t -> M ContentBlock.t)
    (entries : BlockMap) : M BlockMap :=
  match entries with
  | [] => ret []
  | e :: rest =>
      let* b := operation (snd e) in
      let* more := operate operation rest in
      ret ((fst e, Some b) :: more)
  end.

(** What the depth operation does to one block. *)
Definition depth_adjusted (adjustment maxDepth : Z) (b b' : ContentBlock.t) : Prop :=
  ContentBlock.key b' = ContentBlock.key b
  /\ ContentBlock.type b' = ContentBlock.type b
  /\ ContentBlock.text b' = ContentBlock.text b
  /\ ContentBlock.characterList b' = ContentBlock.characterList b
  /\ ContentBlock.data b' = ContentBlock.data b
  /\ ContentBlock.depth b' = Z.max 0 (Z.min (ContentBlock.depth b + adjustment) maxDepth).

(** ** splitBlockInContentState and moveBlockInContentState

    Both are modelled for flat blocks only.  The blocks of the model are
    instances of [ContentBlock]; the class [ContentBlockNode] of tree blocks
    is not among the sources.  So [block instanceof ContentBlockNode] is
    false, and what the two functions do to tree blocks (the invariant on
    [getChildKeys()] and [updateBlockMapLinks] in [splitBlockInContentState],
    the collection of the descendants and [updateBlockMapLinks] in
    [moveBlockInContentState]) is outside the model. *)

(** The loop that sorts the entries of a block map into those before and
    those after the entry that holds the object [pivot]: an entry that holds
    it is dropped and switches the array pushed to. *)
Fixpoint entries_around (pivot : ContentBlock.t) (entries : BlockMap) (switched : bool)
  : BlockMap * BlockMap :=
  match entries with
  | [] => ([], [])
  | blockMapEntry :: rest =>
      if same_block (snd blockMapEntry) (Some pivot) then
        entries_around pivot rest true
      else
        let around := entries_around pivot rest switched in
        if switched then (fst around, blockMapEntry :: snd around)
        else (blockMapEntry :: fst around, snd around)
  end.

(** [splitBlockInContentState] for a flat block to split.  [keyBelow]
    stands for the key [generateRandomKey()] returns; the function is not
    among the sources. *)
Definition splitBlockInContentState (keyBelow : string) (contentState : ContentState.t)
    (selectionState : SelectionState.t) : M ContentState.t :=
  let* _ := invariant (SelectionState.isCollapsed selectionState) in
  let key := SelectionState.getAnchorKey selectionState in
  let blockMap := ContentState.getBlockMap contentState in
  match BlockMap_get blockMap key with
  | None => throw InvariantViolation
  | Some blockToSplit =>
      let text := ContentBlock.getText blockToSplit in
      let blockType := ContentBlock.getType blockToSplit in
      if (String.length text =? 0)%nat
         && (String.eqb blockType "unordered-list-item"
             || String.eqb blockType "ordered-list-item")
      then
        modifyBlockForContentState contentState selectionState
          (fun block =>
             ContentBlock_set block
               {| put_characterList := None; put_data := None; put_depth := Some 0;
                  put_key := None; put_text := None; put_type := Some "unstyled" |})
      else
        let offset := SelectionState.getAnchorOffset selectionState in
        let chars := ContentBlock.getCharacterList blockToSplit in
        let* blockAbove :=
          ContentBlock_set (Some blockToSplit)
            {| put_characterList := Some (Array_slice chars 0 offset);
               put_data := None; put_depth := None; put_key := None;
               put_text := Some (String_slice text 0 offset); put_type := None |} in
        let* blockBelow :=
          ContentBlock_set (Some blockAbove)
            {| put_characterList := Some (Array_slice_from chars offset);
               put_data := Some []; put_depth := None; put_key := Some keyBelow;
               put_text := Some (String_slice_from text offset); put_type := None |} in
        let around := entries_around blockToSplit blockMap false in
        let newBlocks :=
          Map_of_entries
            (fst around
             ++ [(Some key, Some blockAbove); (Some keyBelow, Some blockBelow)]
             ++ snd around)%list in
        (* if (isExperimentalTreeBlock) { invariant(no children);
           newBlocks = updateBlockMapLinks(...) }: not reached, blockToSplit
           is a ContentBlock *)
        let* after :=
          SelectionState.set selectionState
            {| SelectionState.put_anchorKey := Some keyBelow;
               SelectionState.put_anchorOffset := Some 0;
               SelectionState.put_focusKey := Some keyBelow;
               SelectionState.put_focusOffset := Some 0;
               SelectionState.put_isBackward := Some false;
               SelectionState.put_hasFocus := None |} in
        ContentState.set contentState
          {| ContentState.put_blockMap := Some newBlocks;
             ContentState.put_entityMap := None;
             ContentState.put_selectionBefore := Some (Some selectionState);
             ContentState.put_selectionAfter := Some (Some after) |}
  end.

(** [map.delete(key)]. *)
Definition Map_delete {K V : Type} `{EqDecision K} (m : list (K * V)) (k : K)
  : list (K * V) :=
  List.filter (fun e => negb (bool_decide (fst e = k))) m.

(** [!block || block.getKey() !== blockKey]. *)
Definition not_the_block (block : option ContentBlock.t) (blockKey : string) : bool :=
  match block with
  | None => true
  | Some b => negb (String.eqb (ContentBlock.getKey b) blockKey)
  end.

Definition moveBlockInContentState (contentState : ContentState.t)
    (blockToBeMoved targetBlock : ContentBlock.t) (insertionMode : string)
  : M ContentState.t :=
  let* _ := invariant (negb (String.eqb insertionMode "replace")) in
  let targetKey := ContentBlock.getKey targetBlock in
  let blockKey := ContentBlock.getKey blockToBeMoved in
  let* _ := invariant (negb (String.eqb blockKey targetKey)) in
  let blockMap := ContentState.getBlockMap contentState in
  let blockMapEntriesToBeMoved := [(Some blockKey, Some blockToBeMoved)] in
  let blockMapWithoutBlocksToBeMoved := Map_delete blockMap (Some blockKey) in
  let around := entries_around targetBlock blockMapWithoutBlocksToBeMoved false in
  let* newBlocks :=
    if String.eqb insertionMode "before" then
      let* blockBefore := lift (ContentState_getBlockBefore contentState targetKey) in
      let* _ := invariant (not_the_block blockBefore blockKey) in
      ret (Map_of_entries
             (fst around ++ blockMapEntriesToBeMoved
              ++ [(Some targetKey, Some targetBlock)] ++ snd around)%list)
    else if String.eqb insertionMode "after" then
      let* blockAfter := lift (ContentState_getBlockAfter contentState targetKey) in
      let* _ := invariant (not_the_block blockAfter blockKey) in
      ret (Map_of_entries
             (fst around ++ [(Some targetKey, Some targetBlock)]
              ++ blockMapEntriesToBeMoved ++ snd around)%list)
    else ret [] in
  (* updateBlockMapLinks returns the map it is given: no tree block *)
  match ContentState.getSelectionAfter contentState with
  | None => throw TypeError (* Object.create(undefined) in SelectionState.set *)
  | Some selectionAfter =>
      let* after :=
        SelectionState.set selectionAfter
          {| SelectionState.put_anchorKey := Some blockKey;
             SelectionState.put_anchorOffset := None;
             SelectionState.put_focusKey := Some blockKey;
             SelectionState.put_focusOffset := None;
             SelectionState.put_isBackward := None;
             SelectionState.put_hasFocus := None |} in
      ContentState.set contentState
        {| ContentState.put_blockMap := Some newBlocks;
           ContentState.put_entityMap := None;
           ContentState.put_selectionBefore :=
             Some (ContentState.getSelectionAfter contentState);
           ContentState.put_selectionAfter := Some (Some after) |}
  end.

(** A content whose first block is an empty list item. *)
Definition sample_item : ContentBlock.t :=
  ContentBlock.mk 35%nat "a" "unordered-list-item" "" 2 [] [].

Definition sample_list_content : ContentState.t :=
  ContentState.mk 36%nat [(Some "a", Some sample_item); (Some "b", Some sample_blockB)]
    DraftEntity (Some sample_selection) (Some sample_selection).

(** A content of three blocks. *)
Definition sample_blockC : ContentBlock.t :=
  ContentBlock.mk 37%nat "c" "unstyled" "Charlie" 0
    (Array_fill 7 CharacterMetadata.EMPTY) [].

Definition sample_three_blocks : ContentState.t :=
  ContentState.mk 38%nat
    [(Some "a", Some sample_blockA); (Some "b", Some sample_blockB);
     (Some "c", Some sample_blockC)]
    DraftEntity (Some sample_selection) (Some sample_selection).

(** ** lookUpwardForInlineStyle *)

(** The loop over the reversed entries; its result is [lastNonEmpty]. *)
Fixpoint lookUpward_loop (fromKey : string) (loopState : Z) (entries : BlockMap)
  : result (option ContentBlock.t) :=
  match entries with
  | [] => Ok None
  | blockMapEntry :: rest =>
      if (loopState =? 0) && key_is (fst blockMapEntry) fromKey then
        lookUpward_loop fromKey (loopState + 1) rest
      else if loopState =? 1 then
        (* ++loopState; continue *)
        lookUpward_loop fromKey (loopState + 1) rest
      else if loopState =? 2 then
        match snd blockMapEntry with
        | None => Throw TypeError (* blockMapEntry[1].getLength() on undefined *)
        | Some b =>
            if negb (ContentBlock.getLength b =? 0) then Ok (Some b)
            else lookUpward_loop fromKey loopState rest
        end
      else lookUpward_loop fromKey loopState rest
  end.

Definition lookUpwardForInlineStyle (content : ContentState.t) (fromKey : string)
  : result DraftInlineStyle :=
  let blockMapEntries := rev (ContentState.getBlockMap content) in
  match lookUpward_loop fromKey 0 blockMapEntries with
  | Throw e => Throw e
  | Ok (Some lastNonEmpty) =>
      Ok (ContentBlock.getInlineStyleAt lastNonEmpty
            (ContentBlock.getLength lastNonEmpty - 1))
  | Ok None => Ok EMPTY_STYLE
  end.

(** An entry whose block has text. *)
Definition has_text (e : option string * option ContentBlock.t) : bool :=
  match snd e with
  | Some b => negb (ContentBlock.getLength b =? 0)
  | None => false
  end.

(** The style of the last character of the last block with text among
    [entries]; the empty style when none has text. *)
Definition last_text_style (entries : BlockMap) : DraftInlineStyle :=
  match List.find has_text (rev entries) with
  | Some (_, Some b) => ContentBlock.getInlineStyleAt b (ContentBlock.getLength b - 1)
  | _ => EMPTY_STYLE
  end.

(** * Theorems *)

(** ** Theorems: JavaScript Map *)

Section MapLemmas.
Context {K V : Type} `{EqDecision K}.

Lemma Map_get_set (m : list (K * V)) (k k' : K) (v : V) :
  Map_get (Map_set m k v) k' = if decide (k = k') then Some v else Map_get m k'.
Proof.
  induction m as [| [k0 v0] rest IH]; cbn.
  - destruct (decide (k = k')); reflexivity.
  - destruct (decide (k0 = k)) as [-> | Hne]; cbn.
    + destruct (decide (k = k')); reflexivity.
    + destruct (decide (k0 = k')) as [-> | Hne'].
      * destruct (decide (k = k')); [congruence | reflexivity].
      * exact IH.
Qed.

Lemma Map_set_absent (m : list (K * V)) (k : K) (v : V) :
  ~ List.In k (Map_keys m) -> Map_set m k v = (m ++ [(k, v)])%list.
Proof.
  induction m as [| [k0 v0] rest IH]; cbn; intros Hnot; [reflexivity |].
  destruct (decide (k0 = k)) as [-> | _]; [exfalso; apply Hnot; left; reflexivity |].
  rewrite IH by (intros Hin; apply Hnot; right; exact Hin). reflexivity.
Qed.

Lemma fold_Map_set_unique (entries acc : list (K * V)) :
  List.NoDup (Map_keys (acc ++ entries)) ->
  fold_left (fun m e => Map_set m (fst e) (snd e)) entries acc = (acc ++ entries)%list.
Proof.
  revert acc. induction entries as [| [k v] rest IH]; intros acc Hnd; cbn.
  - rewrite app_nil_r. reflexivity.
  - assert (Hk : ~ List.In k (Map_keys acc)).
    { unfold Map_keys in *. rewrite map_app in Hnd. cbn in Hnd.
      apply NoDup_remove_2 in Hnd. intros Hin. apply Hnd.
      apply in_or_app. left. exact Hin. }
    rewrite (Map_set_absent acc k v Hk).
    rewrite IH by (rewrite <- app_assoc; exact Hnd).
    rewrite <- app_assoc. reflexivity.
Qed.

(** A map whose keys are unique is rebuilt as it is by [new Map(entries)]. *)
Lemma Map_of_entries_unique (m : list (K * V)) :
  List.NoDup (Map_keys m) -> Map_of_entries m = m.
Proof. intros Hnd. apply (fold_Map_set_unique m []). exact Hnd. Qed.

Lemma Map_of_entries_app (m extra : list (K * V)) :
  Map_of_entries (m ++ extra)
  = fold_left (fun acc e => Map_set acc (fst e) (snd e)) extra (Map_of_entries m).
Proof. unfold Map_of_entries. apply fold_left_app. Qed.

Lemma Map_get_fold_other (extra acc : list (K * V)) (k : K) :
  (forall e, List.In e extra -> fst e <> k) ->
  Map_get (fold_left (fun m e => Map_set m (fst e) (snd e)) extra acc) k = Map_get acc k.
Proof.
  revert acc. induction extra as [| e rest IH]; intros acc Hother; cbn; [reflexivity |].
  rewrite IH by (intros e' He'; apply Hother; right; exact He').
  rewrite Map_get_set.
  destruct (decide (fst e = k)) as [Heq | _]; [| reflexivity].
  exfalso. apply (Hother e); [left; reflexivity | exact Heq].
Qed.

End MapLemmas.

(** ** Theorems: SelectionState *)

(** C7: for start <= end, [hasEdgeWithin(blockKey, start, end)] is true
    exactly when the anchor offset (block key equal to the anchor key) or the
    focus offset (block key equal to the focus key) lies in [start, end]; it
    is false for a block key that is neither the anchor nor the focus key. *)
Theorem hasEdgeWithin_iff (s : SelectionState.t) (blockKey : string) (start end_ : Z) :
  start <= end_ ->
  (SelectionState.hasEdgeWithin s blockKey start end_ = true <->
     (blockKey = SelectionState.anchorKey s
      /\ start <= SelectionState.anchorOffset s <= end_)
     \/ (blockKey = SelectionState.focusKey s
         /\ start <= SelectionState.focusOffset s <= end_))
  /\ (blockKey <> SelectionState.anchorKey s ->
      blockKey <> SelectionState.focusKey s ->
      SelectionState.hasEdgeWithin s blockKey start end_ = false).
Proof.
  intros _.
  destruct s as [r ak ao fk fo bw hf].
  unfold SelectionState.hasEdgeWithin, SelectionState.getStartOffset,
    SelectionState.getEndOffset, SelectionState.getAnchorKey,
    SelectionState.getFocusKey, SelectionState.getAnchorOffset,
    SelectionState.getFocusOffset, SelectionState.getIsBackward.
  cbn [SelectionState.anchorKey SelectionState.focusKey SelectionState.anchorOffset
       SelectionState.focusOffset SelectionState.isBackward].
  destruct (String.eqb_spec ak fk) as [Eaf | Naf];
    destruct (String.eqb_spec ak blockKey) as [Eab | Nab];
    destruct (String.eqb_spec blockKey ak) as [Eba | Nba];
    destruct (String.eqb_spec blockKey fk) as [Ebf | Nbf];
    subst; try congruence; cbn [andb negb orb];
    (split; [ | intros; congruence || reflexivity ]);
    try (destruct bw);
    rewrite ?orb_true_iff, ?andb_true_iff, ?Z.leb_le, ?Z.geb_le;
    try (split; [ intros; intuition (try congruence; try lia)
                | intros [[? ?] | [? ?]]; try congruence; intuition lia ]).
Qed.

Lemma hasEdgeWithin_iff_witness :
  SelectionState.hasEdgeWithin
    (SelectionState.mk 1%nat "a" 2 "b" 4 false true) "b" 3 5 = true.
Proof.
  apply (proj1 (hasEdgeWithin_iff (SelectionState.mk 1%nat "a" 2 "b" 4 false true) "b" 3 5
                  ltac:(lia))).
  right. split; [reflexivity | cbn; lia].
Defined.

(** ** Theorems: array searches and ContentState keys *)

Section SearchLemmas.
Context {K : Type} `{EqDecision K}.

Lemma lastIndexOf_from_absent (l : list K) (x : K) (i : Z) :
  ~ List.In x l -> lastIndexOf_from l x i = -1.
Proof.
  revert i. induction l as [| y rest IH]; intros i Hnot; cbn; [reflexivity |].
  rewrite IH by (intros Hin; apply Hnot; right; exact Hin).
  cbn. destruct (decide (y = x)) as [-> | _]; [| reflexivity].
  exfalso. apply Hnot. left. reflexivity.
Qed.

Lemma indexOf_from_nth (l : list K) (x : K) (n : nat) (i : Z) :
  List.NoDup l -> nth_error l n = Some x ->
  indexOf_from l x i = i + Z.of_nat n.
Proof.
  revert n i. induction l as [| y rest IH]; intros n i Hnd Hn.
  - destruct n; discriminate.
  - inversion Hnd as [| ? ? Hnotin Hnd']; subst.
    destruct n as [| n]; cbn in Hn |- *.
    + injection Hn as ->. destruct (decide (x = x)); [lia | congruence].
    + destruct (decide (y = x)) as [-> | _].
      * exfalso. apply Hnotin. eapply nth_error_In; eassumption.
      * rewrite (IH n (i + 1) Hnd' Hn). lia.
Qed.

Lemma lastIndexOf_from_nth (l : list K) (x : K) (n : nat) (i : Z) :
  List.NoDup l -> nth_error l n = Some x -> 0 <= i ->
  lastIndexOf_from l x i = i + Z.of_nat n.
Proof.
  revert n i. induction l as [| y rest IH]; intros n i Hnd Hn Hi.
  - destruct n; discriminate.
  - inversion Hnd as [| ? ? Hnotin Hnd']; subst.
    destruct n as [| n]; cbn in Hn |- *.
    + injection Hn as ->.
      rewrite (lastIndexOf_from_absent rest x (i + 1) Hnotin). cbn.
      destruct (decide (x = x)); [lia | congruence].
    + rewrite (IH n (i + 1) Hnd' Hn) by lia.
      destruct (Z.eqb_spec (i + 1 + Z.of_nat n) (-1)); lia.
Qed.

End SearchLemmas.

(** C9: in a block map with unique keys that contains [k],
    [getKeyBefore(k)] returns what [getKeyAfter(k)] returns: with [k] the
    key at position [i] of the keys in document order, both return the key
    at position [i + 1], and [undefined] when there is none ([k] is the key
    of the last block); [getKeyBefore(k)] never returns the key that
    precedes [k]. *)
Theorem getKeyBefore_eq_getKeyAfter (c : ContentState.t) (k : string) :
  List.NoDup (Map_keys (ContentState.blockMap c)) ->
  List.In (Some k) (Map_keys (ContentState.blockMap c)) ->
  ContentState.getKeyBefore c k = ContentState.getKeyAfter c k
  /\ (forall i : nat,
        nth_error (Map_keys (ContentState.blockMap c)) i = Some (Some k) ->
        let following :=
          match nth_error (Map_keys (ContentState.blockMap c)) (S i) with
          | Some key => key
          | None => None
          end in
        ContentState.getKeyAfter c k = following
        /\ ContentState.getKeyBefore c k = following)
  /\ (forall i : nat,
        nth_error (Map_keys (ContentState.blockMap c)) i = Some (Some k) ->
        S i = List.length (Map_keys (ContentState.blockMap c)) ->
        ContentState.getKeyBefore c k = None)
  /\ (forall (i : nat) (p : string),
        nth_error (Map_keys (ContentState.blockMap c)) i = Some (Some p) ->
        nth_error (Map_keys (ContentState.blockMap c)) (S i) = Some (Some k) ->
        ContentState.getKeyBefore c k <> Some p).
Proof.
  intros Hnd Hin.
  unfold ContentState.getKeyBefore, ContentState.getKeyAfter,
    ContentState.getBlockMap, Array_indexOf, Array_lastIndexOf.
  set (keys := Map_keys (ContentState.blockMap c)) in *.
  assert (Hat : forall n : nat, nth_error keys n = Some (Some k) ->
                indexOf_from keys (Some k) 0 = Z.of_nat n
                /\ lastIndexOf_from keys (Some k) 0 = Z.of_nat n).
  { intros n Hn. split.
    - rewrite (indexOf_from_nth keys (Some k) n 0 Hnd Hn). lia.
    - rewrite (lastIndexOf_from_nth keys (Some k) n 0 Hnd Hn) by lia. lia. }
  destruct (In_nth_error _ _ Hin) as [n Hn].
  destruct (Hat n Hn) as [Hi Hl].
  split; [rewrite Hi, Hl; reflexivity |].
  split.
  { intros i Hi'. destruct (Hat i Hi') as [-> ->].
    unfold ContentState.key_at, Array_get.
    destruct (Z.ltb_spec (Z.of_nat i + 1) 0); [lia |].
    replace (Z.to_nat (Z.of_nat i + 1)) with (S i) by lia.
    split; reflexivity. }
  split.
  - intros i Hi' Hlen. destruct (Hat i Hi') as [_ ->].
    unfold ContentState.key_at, Array_get.
    destruct (Z.ltb_spec (Z.of_nat i + 1) 0); [reflexivity |].
    replace (Z.to_nat (Z.of_nat i + 1)) with (S i) by lia.
    rewrite (proj2 (nth_error_None keys (S i))); [reflexivity | lia].
  - intros i p Hp Hk. destruct (Hat (S i) Hk) as [_ ->].
    unfold ContentState.key_at, Array_get.
    destruct (Z.ltb_spec (Z.of_nat (S i) + 1) 0); [discriminate |].
    replace (Z.to_nat (Z.of_nat (S i) + 1)) with (S (S i)) by lia.
    destruct (nth_error keys (S (S i))) as [q |] eqn:Hq; [| discriminate].
    intros ->.
    assert (Hlt : (i < List.length keys)%nat)
      by (apply nth_error_Some; rewrite Hp; discriminate).
    pose proof (proj1 (NoDup_nth_error keys) Hnd i (S (S i)) Hlt) as Heq.
    rewrite Hp, Hq in Heq. specialize (Heq eq_refl). lia.
Qed.

(** ** Theorems: CharacterMetadata *)

Lemma Set_has_In (s : DraftInlineStyle) (x : string) :
  Set_has s x = true <-> List.In x s.
Proof.
  unfold Set_has. rewrite existsb_exists. split.
  - intros [y [Hy Heq]]. apply String.eqb_eq in Heq. subst. exact Hy.
  - intros Hx. exists x. split; [exact Hx | apply String.eqb_refl].
Qed.

Lemma Set_add_In (s : DraftInlineStyle) (tag x : string) :
  List.In x (Set_add s tag) <-> List.In x s \/ x = tag.
Proof.
  unfold Set_add. destruct (Set_has s tag) eqn:Hhas.
  - apply Set_has_In in Hhas. split; [tauto | intros [H | ->]; assumption].
  - rewrite in_app_iff. cbn. intuition (subst; auto).
Qed.

Lemma Set_delete_In (s : DraftInlineStyle) (tag x : string) :
  List.In x (Set_delete s tag) <-> List.In x s /\ x <> tag.
Proof.
  unfold Set_delete. rewrite filter_In, negb_true_iff, String.eqb_neq.
  split; intros [H1 H2]; split; congruence.
Qed.

Lemma create_again (cfg : option CharacterMetadata.config) (h : heap) :
  exists c h1,
    CharacterMetadata.create cfg h = (Ok c, h1)
    /\ CharacterMetadata.create cfg h1 = (Ok c, h1).
Proof.
  destruct cfg as [c |]; cbn.
  - unfold bind, pool_get.
    destruct (pool h !! _) as [e |] eqn:Hget.
    + exists e, h. cbn. rewrite Hget. split; reflexivity.
    + eexists. eexists. cbn. split; [reflexivity |].
      cbn. rewrite lookup_insert_eq. reflexivity.
  - exists CharacterMetadata.EMPTY, h. split; reflexivity.
Qed.

(** C6, as the code has it: [create] called twice with the same
    configuration (the same style names in the same order, the same entity
    key) returns the same pooled object, the second call leaving the heap as
    it is; [applyStyle] and [removeStyle] return a newly allocated object,
    which is not entered in the pool, whose style set is the record's with
    the tag added or removed and whose entity is the record's. *)
Theorem create_pooled_style_updates_fresh
    (cfg : option CharacterMetadata.config) (record : CharacterMetadata.t)
    (tag : string) (h : heap) :
  (exists c h1,
      CharacterMetadata.create cfg h = (Ok c, h1)
      /\ CharacterMetadata.create cfg h1 = (Ok c, h1))
  /\ (exists c,
         CharacterMetadata.applyStyle record tag h
         = (Ok c, mkHeap (S (next_ref h)) (pool h))
         /\ cm_self c = next_ref h
         /\ (forall x, List.In x (cm_style c) <-> List.In x (cm_style record) \/ x = tag)
         /\ cm_entity c = cm_entity record)
  /\ (exists c,
         CharacterMetadata.removeStyle record tag h
         = (Ok c, mkHeap (S (next_ref h)) (pool h))
         /\ cm_self c = next_ref h
         /\ (forall x, List.In x (cm_style c) <-> List.In x (cm_style record) /\ x <> tag)
         /\ cm_entity c = cm_entity record).
Proof.
  split; [apply create_again |].
  split; eexists; (split; [reflexivity |]); cbn;
    (split; [reflexivity |]); (split; [| reflexivity]); intros x.
  - apply Set_add_In.
  - apply Set_delete_In.
Qed.

(** C6 as stated fails: the object [applyStyle(EMPTY, 'BOLD')] returns is
    not in the pool, and [create] with the same style and entity returns
    another object; and [create] returns two objects for two style sets
    with the same names added in a different order. *)
Lemma applyStyle_result_not_pooled :
  (exists c1 h1 c2 h2,
      CharacterMetadata.applyStyle CharacterMetadata.EMPTY "BOLD" initial_heap = (Ok c1, h1)
      /\ CharacterMetadata.create
           (Some (CharacterMetadata.mkConfig (Some ["BOLD"]) (Some None))) h1
         = (Ok c2, h2)
      /\ cm_style c1 = cm_style c2
      /\ cm_entity c1 = cm_entity c2
      /\ CharacterMetadata.same c1 c2 = false
      /\ pool h1 = pool initial_heap)
  /\ (exists c1 h1 c2 h2,
         CharacterMetadata.create
           (Some (CharacterMetadata.mkConfig (Some ["BOLD"; "ITALIC"]) (Some None)))
           initial_heap = (Ok c1, h1)
         /\ CharacterMetadata.create
              (Some (CharacterMetadata.mkConfig (Some ["ITALIC"; "BOLD"]) (Some None)))
              h1 = (Ok c2, h2)
         /\ (forall x, List.In x (cm_style c1) <-> List.In x (cm_style c2))
         /\ cm_entity c1 = cm_entity c2
         /\ CharacterMetadata.same c1 c2 = false).
Proof.
  split.
  - eexists. eexists. eexists. eexists.
    split; [reflexivity |].
    split; [reflexivity |].
    repeat split.
  - eexists. eexists. eexists. eexists.
    split; [reflexivity |].
    split; [reflexivity |].
    split; [| split; reflexivity].
    intros x. cbn. tauto.
Qed.

(** ** Theorems: removeRangeFromContentState *)

Lemma same_block_refl (b : ContentBlock.t) : same_block (Some b) (Some b) = true.
Proof. cbn. unfold ContentBlock.same. apply Nat.eqb_refl. Qed.

(** C3, a defect of the code: removing a range that lies inside one block
    and does not start at offset 0 (offsets 3 to 5 of "Alpha" in the claim)
    throws a TypeError, because [removeFromList] calls [count()] on an array;
    no ContentState with text "Alp" is returned. *)
Theorem removeRange_inside_block_throws
    (c : ContentState.t) (sel : SelectionState.t) (b : ContentBlock.t) (h : heap) :
  SelectionState.isCollapsed sel = false ->
  SelectionState.getStartKey sel = SelectionState.getEndKey sel ->
  BlockMap_get (ContentState.blockMap c) (SelectionState.getStartKey sel) = Some b ->
  SelectionState.getStartOffset sel <> 0 ->
  removeRangeFromContentState c sel h = (Throw TypeError, h).
Proof.
  intros Hcol Hkey Hget Hoff.
  unfold removeRangeFromContentState, ContentState.getBlockMap.
  rewrite Hcol, <- Hkey, Hget, same_block_refl.
  unfold removeFromList.
  destruct (Z.eqb_spec (SelectionState.getStartOffset sel) 0) as [E | _];
    [contradiction | reflexivity].
Qed.

Lemma removeRange_inside_block_throws_witness :
  removeRangeFromContentState sample_content (range 30%nat "a" 3 5) sample_heap
  = (Throw TypeError, sample_heap).
Proof.
  apply (removeRange_inside_block_throws sample_content (range 30%nat "a" 3 5)
           sample_blockA sample_heap);
    [reflexivity | reflexivity | reflexivity | cbn; lia].
Defined.

(** ** Theorems: insertTextIntoContentState *)

Lemma String_length_zero (s : string) : String.length s = 0%nat -> s = "".
Proof. destruct s; [reflexivity | discriminate]. Qed.

(** C5, a defect of the code: with a collapsed selection in an existing
    block and a text that is not empty, [insertTextIntoContentState] throws
    a ReferenceError where the claim expects the spliced ContentState: its
    file imports [ContentState] and [SelectionState] as types only and then
    calls [ContentState.set]. *)
Theorem insertText_throws_ReferenceError
    (c : ContentState.t) (sel : SelectionState.t) (text : string)
    (characterMetadata : CharacterMetadata.t) (b : ContentBlock.t) (h : heap) :
  SelectionState.isCollapsed sel = true ->
  text <> "" ->
  BlockMap_get (ContentState.blockMap c) (SelectionState.getStartKey sel) = Some b ->
  exists h',
    insertTextIntoContentState c sel text characterMetadata h = (Throw ReferenceError, h').
Proof.
  intros Hcol Htext Hget.
  unfold insertTextIntoContentState, insertTextIntoContentState_in,
    ContentState.getBlockMap.
  rewrite Hcol. cbn [invariant]. unfold bind at 1. cbn [ret].
  destruct (Z.eqb_spec (Z.of_nat (String.length text)) 0) as [E | _].
  - exfalso. apply Htext, String_length_zero. lia.
  - rewrite Hget. eexists. reflexivity.
Qed.

Lemma insertText_throws_ReferenceError_witness :
  exists h',
    insertTextIntoContentState sample_content (cursor 30%nat "a" 5) "Bet"
      CharacterMetadata.EMPTY sample_heap
    = (Throw ReferenceError, h').
Proof.
  apply (insertText_throws_ReferenceError sample_content (cursor 30%nat "a" 5) "Bet"
           CharacterMetadata.EMPTY sample_blockA sample_heap);
    [reflexivity | discriminate | reflexivity].
Defined.

(** The assertion of [insertTextIntoContentState]: a selection that is not
    collapsed fails the invariant, whatever the text. *)
Lemma insertText_not_collapsed_fails
    (scope : module_scope) (c : ContentState.t) (sel : SelectionState.t)
    (text : string) (characterMetadata : CharacterMetadata.t) (h : heap) :
  SelectionState.isCollapsed sel = false ->
  insertTextIntoContentState_in scope c sel text characterMetadata h
  = (Throw InvariantViolation, h).
Proof.
  intros Hcol. unfold insertTextIntoContentState_in. rewrite Hcol. reflexivity.
Qed.

Lemma fold_push (T : Type) (toInsert targetList : list T) :
  fold_left (fun returnList c => (returnList ++ [c])%list) toInsert targetList
  = (targetList ++ toInsert)%list.
Proof.
  revert targetList. induction toInsert as [| c rest IH]; intros targetList; cbn.
  - rewrite app_nil_r. reflexivity.
  - rewrite IH, <- app_assoc. reflexivity.
Qed.

Lemma fold_unshift (T : Type) (reversed targetList : list T) :
  fold_left (fun returnList c => c :: returnList) reversed targetList
  = (rev reversed ++ targetList)%list.
Proof.
  revert targetList. induction reversed as [| c rest IH]; intros targetList; cbn.
  - reflexivity.
  - rewrite IH, <- app_assoc. reflexivity.
Qed.

(** [insertIntoList] at an offset inside the list: the elements before the
    offset, the inserted ones, the elements from the offset on. *)
Lemma insertIntoList_splice (T : Type) (targetList toInsert : list T) (offset : Z) :
  0 <= offset <= Z.of_nat (List.length targetList) ->
  insertIntoList targetList toInsert offset
  = (firstn (Z.to_nat offset) targetList ++ toInsert
     ++ skipn (Z.to_nat offset) targetList)%list.
Proof.
  intros Hoff. unfold insertIntoList.
  destruct (Z.eqb_spec offset (Z.of_nat (List.length targetList))) as [-> | Hne].
  - rewrite fold_push, Nat2Z.id, firstn_all, skipn_all, app_nil_r. reflexivity.
  - destruct (Z.eqb_spec offset 0) as [-> | Hne0].
    + rewrite fold_unshift, rev_involutive. reflexivity.
    + unfold Array_slice_from, Array_slice, slice_index.
      destruct (Z.ltb_spec offset 0); [lia |].
      destruct (Z.ltb_spec (Z.of_nat (List.length targetList)) 0); [lia |].
      cbn [Z.ltb Z.compare].
      rewrite !Z.min_l by lia. rewrite Nat2Z.id.
      change (Z.to_nat 0) with 0%nat. cbn [skipn].
      rewrite Nat.sub_0_r.
      replace (firstn (List.length targetList - Z.to_nat offset)
                 (skipn (Z.to_nat offset) targetList))
        with (skipn (Z.to_nat offset) targetList)
        by (symmetry; apply firstn_all2; rewrite length_skipn; lia).
      reflexivity.
Qed.

(** The splice of [insertTextIntoContentState], as it runs in a file that
    requires [ContentState] and [SelectionState]: the text and the
    characters go into the block of the cursor at its offset, the other
    blocks stay, and the selection after is collapsed behind the inserted
    text. *)
Lemma insertText_when_classes_bound
    (c : ContentState.t) (sel : SelectionState.t) (text : string)
    (characterMetadata : CharacterMetadata.t) (b : ContentBlock.t) (h : heap) :
  SelectionState.isCollapsed sel = true ->
  text <> "" ->
  BlockMap_get (ContentState.blockMap c) (SelectionState.getStartKey sel) = Some b ->
  exists c' h' b' after,
    insertTextIntoContentState_in required_scope c sel text characterMetadata h
    = (Ok c', h')
    /\ BlockMap_get (ContentState.blockMap c') (SelectionState.getStartKey sel) = Some b'
    /\ ContentBlock.text b'
       = String_slice (ContentBlock.text b) 0 (SelectionState.getStartOffset sel)
         ++ text
         ++ String_slice (ContentBlock.text b) (SelectionState.getStartOffset sel)
              (ContentBlock.getLength b)
    /\ ContentBlock.characterList b'
       = insertIntoList (ContentBlock.characterList b)
           (Array_fill (String.length text) characterMetadata)
           (SelectionState.getStartOffset sel)
    /\ (forall k, k <> SelectionState.getStartKey sel ->
                  BlockMap_get (ContentState.blockMap c') k
                  = BlockMap_get (ContentState.blockMap c) k)
    /\ ContentState.selectionAfter c' = Some after
    /\ SelectionState.isCollapsed after = true
    /\ SelectionState.getStartKey after = SelectionState.getStartKey sel
    /\ SelectionState.getStartOffset after
       = SelectionState.getStartOffset sel + Z.of_nat (String.length text).
Proof.
  intros Hcol Htext Hget.
  unfold insertTextIntoContentState_in, ContentState.getBlockMap.
  rewrite Hcol. cbn [invariant]. unfold bind at 1. cbn [ret].
  destruct (Z.eqb_spec (Z.of_nat (String.length text)) 0) as [E | _].
  { exfalso. apply Htext, String_length_zero. lia. }
  rewrite Hget. cbn.
  eexists. eexists. eexists. eexists.
  split; [reflexivity |]. cbn.
  split.
  { unfold BlockMap_get. rewrite Map_get_set.
    destruct (decide (Some (SelectionState.getStartKey sel)
                      = Some (SelectionState.getStartKey sel))); [reflexivity | congruence]. }
  split; [reflexivity |].
  split; [reflexivity |].
  split.
  { intros k Hk. unfold BlockMap_get. rewrite Map_get_set.
    destruct (decide (Some (SelectionState.getStartKey sel) = Some k)) as [Heq | _];
      [congruence | reflexivity]. }
  split; [reflexivity |].
  unfold SelectionState.isCollapsed, SelectionState.getStartKey,
    SelectionState.getStartOffset, SelectionState.getAnchorKey,
    SelectionState.getFocusKey, SelectionState.getAnchorOffset,
    SelectionState.getFocusOffset, SelectionState.getIsBackward in *.
  cbn. apply andb_true_iff in Hcol. destruct Hcol as [Hk _].
  rewrite Hk, Z.eqb_refl.
  split; [reflexivity |].
  destruct (SelectionState.isBackward sel); split; reflexivity.
Qed.

(** In a file that requires both classes the same code inserts "Bet" at
    offset 5 of "Alpha": the block reads "AlphaBet", has eight characters,
    and the selection after is collapsed at offset 8. *)
Lemma insertText_sample_when_classes_bound :
  exists c' h' b' after,
    insertTextIntoContentState_in required_scope sample_content (cursor 30%nat "a" 5)
      "Bet" CharacterMetadata.EMPTY sample_heap = (Ok c', h')
    /\ BlockMap_get (ContentState.blockMap c') "a" = Some b'
    /\ ContentBlock.text b' = "AlphaBet"
    /\ List.length (ContentBlock.characterList b') = 8%nat
    /\ BlockMap_get (ContentState.blockMap c') "b" = Some sample_blockB
    /\ ContentState.selectionAfter c' = Some after
    /\ SelectionState.isCollapsed after = true
    /\ SelectionState.anchorKey after = "a"
    /\ SelectionState.anchorOffset after = 8.
Proof.
  eexists. eexists. eexists. eexists.
  split; [vm_compute; reflexivity |].
  repeat split.
Qed.

(** ** Theorems: applyEntityToContentState and ContentStateInlineStyle *)

(** Whatever the selection and the entity key, when
    [applyEntityToContentState] returns, every key holds the block it held
    before (in a block map with unique keys); the selections of the result
    are the selection given. *)
Lemma applyEntity_keeps_every_block
    (c : ContentState.t) (sel : SelectionState.t) (entityKey : option string)
    (h : heap) (c' : ContentState.t) (h' : heap) :
  List.NoDup (Map_keys (ContentState.blockMap c)) ->
  applyEntityToContentState c sel entityKey h = (Ok c', h') ->
  (forall k, BlockMap_get (ContentState.blockMap c') k
             = BlockMap_get (ContentState.blockMap c) k)
  /\ ContentState.selectionBefore c' = Some sel
  /\ ContentState.selectionAfter c' = Some sel.
Proof.
  intros Hnd. unfold applyEntityToContentState, bind, ContentState.getBlockMap.
  destruct (applyEntity_blocks _ _ _ _ _ _ _ h) as [[news | e] h1]; [| discriminate].
  cbn. intros Heq. injection Heq as <- _. cbn.
  split; [| split; reflexivity].
  intros k. unfold BlockMap_get.
  rewrite Map_of_entries_app, Map_get_fold_other, (Map_of_entries_unique _ Hnd).
  - reflexivity.
  - intros e He. apply in_map_iff in He. destruct He as [b [<- _]]. discriminate.
Qed.

Lemma key_is_true (k : option string) (s : string) : key_is k s = true -> k = Some s.
Proof. unfold key_is. apply bool_decide_eq_true_1. Qed.

(** The entries [modifyBlockForContentState] rewrites have keys of the
    block map. *)
Lemma modifyBlock_entries_keys
    (operation : option ContentBlock.t -> M ContentBlock.t) (startKey endKey : string)
    (entries : BlockMap) :
  forall (loopState : Z) (h : heap) (updated : BlockMap) (h' : heap),
    modifyBlock_entries operation startKey endKey loopState entries h = (Ok updated, h') ->
    forall e, List.In e updated -> List.In (fst e) (Map_keys entries).
Proof.
  induction entries as [| entry rest IH]; intros loopState h updated h' Hrun e He.
  - cbn in Hrun. injection Hrun as <- _. destruct He.
  - cbn in Hrun.
    destruct ((loopState =? 0) && key_is (fst entry) startKey).
    { right. eapply IH; eassumption. }
    destruct ((loopState =? 1) && key_is (fst entry) endKey).
    { unfold bind in Hrun.
      destruct (operation (snd entry) h) as [[b | ?] h1]; [| discriminate].
      destruct (modifyBlock_entries _ _ _ _ rest h1) as [[more | ?] h2] eqn:Hmore;
        [| discriminate].
      cbn in Hrun. injection Hrun as <- _.
      destruct He as [<- | He]; [left; reflexivity | right; eapply IH; eassumption]. }
    destruct (loopState =? 1).
    { unfold bind in Hrun.
      destruct (operation (snd entry) h) as [[b | ?] h1]; [| discriminate].
      destruct (modifyBlock_entries _ _ _ _ rest h1) as [[more | ?] h2] eqn:Hmore;
        [| discriminate].
      cbn in Hrun. injection Hrun as <- _.
      destruct He as [<- | He]; [left; reflexivity | right; eapply IH; eassumption]. }
    right. eapply IH; eassumption.
Qed.

(** Started in loop state 0 on unique keys, the loop never rewrites the
    entry of the start key. *)
Lemma modifyBlock_entries_skip_start
    (operation : option ContentBlock.t -> M ContentBlock.t) (startKey endKey : string)
    (entries : BlockMap) :
  List.NoDup (Map_keys entries) ->
  forall (h : heap) (updated : BlockMap) (h' : heap),
    modifyBlock_entries operation startKey endKey 0 entries h = (Ok updated, h') ->
    forall e, List.In e updated -> fst e <> Some startKey.
Proof.
  induction entries as [| entry rest IH]; intros Hnd h updated h' Hrun e He.
  - cbn in Hrun. injection Hrun as <- _. destruct He.
  - cbn in Hnd. inversion Hnd as [| ? ? Hnotin Hnd']; subst.
    cbn in Hrun. destruct (key_is (fst entry) startKey) eqn:Hk; cbn in Hrun.
    + apply key_is_true in Hk. intros Heq. apply Hnotin. rewrite Hk, <- Heq.
      eapply modifyBlock_entries_keys; eassumption.
    + eapply IH; eassumption.
Qed.

(** Whatever the operation, [modifyBlockForContentState] leaves the block of
    the start key as it was (in a block map with unique keys): so does
    [modifyInlineStyle]. *)
Lemma modifyBlock_keeps_start_block
    (c : ContentState.t) (sel : SelectionState.t)
    (operation : option ContentBlock.t -> M ContentBlock.t)
    (h : heap) (c' : ContentState.t) (h' : heap) :
  List.NoDup (Map_keys (ContentState.blockMap c)) ->
  modifyBlockForContentState c sel operation h = (Ok c', h') ->
  BlockMap_get (ContentState.blockMap c') (SelectionState.getStartKey sel)
  = BlockMap_get (ContentState.blockMap c) (SelectionState.getStartKey sel)
  /\ ContentState.selectionBefore c' = Some sel
  /\ ContentState.selectionAfter c' = Some sel.
Proof.
  intros Hnd. unfold modifyBlockForContentState, bind, ContentState.getBlockMap.
  destruct (modifyBlock_entries _ _ _ _ _ h) as [[updated | e] h1] eqn:Hrun;
    [| discriminate].
  cbn. intros Heq. injection Heq as <- _. cbn.
  split; [| split; reflexivity].
  unfold BlockMap_get.
  rewrite Map_of_entries_app, Map_get_fold_other, (Map_of_entries_unique _ Hnd).
  - reflexivity.
  - intros e He. eapply modifyBlock_entries_skip_start; eassumption.
Qed.

(** C4, a defect of the code, on the sample document with the selection
    from offset 1 to offset 3 of block "a".  [applyEntityToContentState]
    leaves the characters of "a" without the entity: it returns the blocks
    it was given and one more entry, from undefined to undefined.
    [ContentStateInlineStyle.add] leaves block "a" as it was and styles
    offsets 1 and 2 of the next block "b", which the selection does not
    touch. *)
Theorem range_rewrites_miss_the_selected_block :
  (exists c' h',
      applyEntityToContentState sample_content (range 30%nat "a" 1 3) (Some "1")
        sample_heap = (Ok c', h')
      /\ BlockMap_get (ContentState.blockMap c') "a" = Some sample_blockA
      /\ BlockMap_get (ContentState.blockMap c') "b" = Some sample_blockB
      /\ ContentState.blockMap c' = (sample_blockMap ++ [(None, None)])%list)
  /\ (exists c' h' b',
         ContentStateInlineStyle.add sample_content (range 30%nat "a" 1 3) "BOLD"
           sample_heap = (Ok c', h')
         /\ BlockMap_get (ContentState.blockMap c') "a" = Some sample_blockA
         /\ BlockMap_get (ContentState.blockMap c') "b" = Some b'
         /\ map cm_style (ContentBlock.characterList b')
            = [[]; ["BOLD"]; ["BOLD"]; []; []]).
Proof.
  split.
  - eexists. eexists. split; [vm_compute; reflexivity |]. repeat split.
  - eexists. eexists. eexists. split; [vm_compute; reflexivity |]. repeat split.
Qed.

(** ** Theorems: EditorState *)

Section EditorStateTheorems.
Variable X : collaborators.

(** [EditorBidiService.getDirectionMap] returns when every block is defined,
    and throws at the first entry that holds [undefined]. *)
Lemma getDirectionMap_loop_defined (prev : option (BidiDirectionMap X))
    (entries : BlockMap) :
  (forall entry, List.In entry entries -> snd entry <> None) ->
  forall (service : BidiService X) (bidiMap : BidiDirectionMap X) (changed : bool),
  exists looped, getDirectionMap_loop X service prev entries bidiMap changed = Ok looped.
Proof.
  induction entries as [| entry rest IH]; intros Hall service bidiMap changed.
  - eexists. reflexivity.
  - cbn [getDirectionMap_loop].
    destruct (snd entry) as [block |] eqn:Hblock;
      [| exfalso; apply (Hall entry); [left; reflexivity | exact Hblock]].
    apply IH. intros entry' Hin. apply Hall. right. exact Hin.
Qed.

Lemma getDirectionMap_defined (c : ContentState.t) (prev : option (BidiDirectionMap X)) :
  blocks_defined c ->
  exists directionMap, EditorBidiService_getDirectionMap X c prev = Ok directionMap.
Proof.
  intros Hall. unfold EditorBidiService_getDirectionMap, ContentState.getBlockMap.
  destruct (getDirectionMap_loop_defined prev _ Hall (bidiService_reset X) [] false)
    as [looped Hloop].
  rewrite Hloop. destruct prev as [p |]; [| eexists; reflexivity].
  destruct (negb (snd looped)); eexists; reflexivity.
Qed.

Lemma getDirectionMap_loop_undefined (prev : option (BidiDirectionMap X))
    (entries : BlockMap) :
  (exists entry, List.In entry entries /\ snd entry = None) ->
  forall (service : BidiService X) (bidiMap : BidiDirectionMap X) (changed : bool),
    getDirectionMap_loop X service prev entries bidiMap changed = Throw TypeError.
Proof.
  induction entries as [| entry rest IH]; intros (bad & Hin & Hbad) service bidiMap changed;
    [destruct Hin |].
  cbn [getDirectionMap_loop].
  destruct (snd entry) as [block |] eqn:Hblock; [| reflexivity].
  apply IH. destruct Hin as [<- | Hin]; [congruence |].
  exists bad. split; assumption.
Qed.

Lemma getDirectionMap_undefined (c : ContentState.t) (prev : option (BidiDirectionMap X)) :
  has_undefined_block c ->
  EditorBidiService_getDirectionMap X c prev = Throw TypeError.
Proof.
  intros Hbad. unfold EditorBidiService_getDirectionMap, ContentState.getBlockMap.
  rewrite (getDirectionMap_loop_undefined prev _ Hbad). reflexivity.
Qed.

(** [BlockTree.generate] returns for every defined block. *)
Lemma generate_entries_defined (c : ContentState.t) (decorator : option Decorator)
    (entries : BlockMap) :
  (forall entry, List.In entry entries -> snd entry <> None) ->
  exists trees, EditorState.generate_entries X c decorator entries = Ok trees.
Proof.
  induction entries as [| entry rest IH]; intros Hall; [eexists; reflexivity |].
  cbn [EditorState.generate_entries].
  destruct (snd entry) as [block |] eqn:Hblock;
    [| exfalso; apply (Hall entry); [left; reflexivity | exact Hblock]].
  destruct IH as [more Hmore]; [intros entry' Hin; apply Hall; right; exact Hin |].
  unfold BlockTree_generate.
  destruct (ContentBlock.getLength block =? 0); rewrite Hmore; eexists; reflexivity.
Qed.

(** [EditorState.set] with a [put] that leaves the decorator alone, for a new
    content whose blocks are all defined. *)
Lemma set_without_decorator (e : EditorState.t X) (put : EditorState.config X) (h : heap) :
  EditorState.put_decorator X put = None ->
  blocks_defined
    (default (EditorState.getCurrentContent X e) (EditorState.put_currentContent X put)) ->
  exists e' h',
    EditorState.set X e put h = (Ok e', h')
    /\ EditorState.getAllowUndo X e'
       = default (EditorState.getAllowUndo X e) (EditorState.put_allowUndo X put)
    /\ EditorState.getCurrentContent X e'
       = default (EditorState.getCurrentContent X e) (EditorState.put_currentContent X put)
    /\ EditorState.getUndoStack X e'
       = default (EditorState.getUndoStack X e) (EditorState.put_undoStack X put)
    /\ EditorState.getRedoStack X e'
       = default (EditorState.getRedoStack X e) (EditorState.put_redoStack X put)
    /\ EditorState.getSelection X e'
       = default (EditorState.getSelection X e) (EditorState.put_selection X put)
    /\ EditorState.getLastChangeType X e'
       = default (EditorState.getLastChangeType X e) (EditorState.put_lastChangeType X put)
    /\ (next_ref h < next_ref h')%nat.
Proof.
  intros Hd Hall. unfold EditorState.set. rewrite Hd.
  unfold EditorState.same_decorator.
  rewrite bool_decide_eq_true_2 by reflexivity. cbn [negb].
  destruct (ContentState.same _ _).
  - cbn; eexists; eexists; (split; [reflexivity |]); cbn; repeat split; lia.
  - unfold EditorState.regenerateTreeForNewBlocks.
    cbv beta iota delta [bind ContentState.set alloc ret negb].
    match goal with |- context [EditorState.generate_entries X ?c ?d ?entries] =>
      destruct (generate_entries_defined c d entries) as [trees Htrees] end.
    { intros entry Hin. apply filter_In in Hin. apply Hall.
      destruct (EditorState.put_currentContent X put); exact (proj1 Hin). }
    rewrite Htrees.
    cbn; eexists; eexists; (split; [reflexivity |]); cbn; repeat split; lia.
Qed.

Lemma not_boundary_is_typing (e : EditorState.t X) (changeType : string) :
  EditorState.mustBecomeBoundary X e changeType = false ->
  EditorState.typing_change changeType = true.
Proof.
  unfold EditorState.mustBecomeBoundary, EditorState.typing_change.
  destruct (EditorState.changeType_differs _ _); [discriminate |].
  destruct (String.eqb changeType "insert-characters"),
    (String.eqb changeType "backspace-character"),
    (String.eqb changeType "delete-character"); cbn; congruence.
Qed.


Lemma push_with_undo (e : EditorState.t X) (c : ContentState.t) (changeType : string)
    (force : bool) (h : heap) :
  EditorState.getAllowUndo X e = true ->
  ContentState.same (EditorState.getCurrentContent X e) c = false ->
  blocks_defined c ->
  exists e' h',
    EditorState.push X e c changeType force h = (Ok e', h')
    /\ EditorState.getAllowUndo X e' = true
    /\ EditorState.getUndoStack X e'
       = (if EditorState.is_boundary X e changeType
          then EditorState.getUndoStack X e ++ [EditorState.getCurrentContent X e]
          else EditorState.getUndoStack X e)%list
    /\ EditorState.getRedoStack X e' = []
    /\ EditorState.getLastChangeType X e' = Some changeType
    /\ EditorState.getSelection X e' = ContentState.getSelectionAfter c
    /\ ContentState.getSelectionAfter (EditorState.getCurrentContent X e')
       = ContentState.getSelectionAfter c
    /\ ContentState.blockMap (EditorState.getCurrentContent X e') = ContentState.blockMap c
    /\ ContentState.self (EditorState.getCurrentContent X e') = next_ref h
    /\ (next_ref h < next_ref h')%nat.
Proof.
  intros Hundo Hdiff Hall. unfold EditorState.push. rewrite Hdiff.
  destruct (getDirectionMap_defined c (Some (EditorState.getDirectionMap X e)) Hall)
    as [directionMap Hmap].
  unfold bind at 1. rewrite Hmap. cbn [lift ret]. rewrite Hundo. cbn [negb].
  unfold EditorState.is_boundary.
  destruct (negb (SelectionState.same _ _) || EditorState.mustBecomeBoundary X e changeType)
    eqn:Hb.
  - unfold bind at 1. cbn [ContentState.set alloc ret bind fst snd].
    match goal with |- context [EditorState.set X e ?p ?h0] =>
      destruct (set_without_decorator e p h0 eq_refl Hall)
        as (e' & h' & Hset & Ha & Hc & Hu & Hr & Hs & Hl & Hn) end.
    exists e', h'. rewrite Hset, Ha, Hc, Hu, Hr, Hs, Hl. cbn in Hn |- *.
    repeat split; try assumption; lia.
  - apply orb_false_iff in Hb. destruct Hb as [_ Hm].
    apply not_boundary_is_typing in Hm. unfold EditorState.typing_change in Hm. rewrite Hm.
    unfold bind at 1. cbn [ContentState.set alloc ret bind fst snd].
    match goal with |- context [EditorState.set X e ?p ?h0] =>
      destruct (set_without_decorator e p h0 eq_refl Hall)
        as (e' & h' & Hset & Ha & Hc & Hu & Hr & Hs & Hl & Hn) end.
    exists e', h'. rewrite Hset, Ha, Hc, Hu, Hr, Hs, Hl. cbn in Hn |- *.
    repeat split; try assumption; lia.
Qed.

(** [push] of a content with an undefined block throws in
    [EditorBidiService.getDirectionMap], before anything is allocated. *)
Lemma push_undefined_block (e : EditorState.t X) (c : ContentState.t)
    (changeType : string) (force : bool) (h : heap) :
  ContentState.same (EditorState.getCurrentContent X e) c = false ->
  has_undefined_block c ->
  EditorState.push X e c changeType force h = (Throw TypeError, h).
Proof.
  intros Hdiff Hbad. unfold EditorState.push. rewrite Hdiff.
  unfold bind at 1. rewrite (getDirectionMap_undefined c _ Hbad). reflexivity.
Qed.

(** The current content after such a [push] is a new object. *)
Lemma push_current_content_fresh (e : EditorState.t X) (c : ContentState.t)
    (changeType : string) (force : bool) (h : heap) (e' : EditorState.t X) (h' : heap) :
  EditorState.push X e c changeType force h = (Ok e', h') ->
  EditorState.getAllowUndo X e = true ->
  ContentState.same (EditorState.getCurrentContent X e) c = false ->
  blocks_defined c ->
  EditorState.getAllowUndo X e' = true
  /\ ContentState.self (EditorState.getCurrentContent X e') = next_ref h
  /\ (next_ref h < next_ref h')%nat.
Proof.
  intros Hp Hundo Hdiff Hall.
  destruct (push_with_undo e c changeType force h Hundo Hdiff Hall)
    as (e2 & h2 & Hp2 & Ha & _ & _ & _ & _ & _ & _ & Hr & Hn).
  rewrite Hp2 in Hp. injection Hp as <- <-.
  repeat split; assumption.
Qed.

Lemma Array_slice_from_one {A : Type} (x : A) (l : list A) :
  Array_slice_from (x :: l) 1 = l.
Proof.
  unfold Array_slice_from, Array_slice, slice_index.
  set (len := Z.of_nat (List.length (x :: l))).
  assert (Hlen : len = Z.of_nat (List.length l) + 1) by (subst len; cbn [List.length]; lia).
  destruct (Z.ltb_spec 1 0); [lia |].
  destruct (Z.ltb_spec len 0); [lia |].
  replace (Z.to_nat (Z.min 1 len)) with 1%nat by lia.
  replace (Z.to_nat (Z.min len len) - 1)%nat with (List.length l) by lia.
  cbn [skipn]. apply firstn_all.
Qed.

Lemma same_content_fresh (c c' : ContentState.t) (n : nat) :
  ContentState.self c = n -> (ContentState.self c' < n)%nat ->
  ContentState.same c c' = false.
Proof.
  intros <- Hlt. unfold ContentState.same. apply Nat.eqb_neq. lia.
Qed.

Lemma same_selection_refl (s : option SelectionState.t) : SelectionState.same s s = true.
Proof. destruct s; cbn; [apply Nat.eqb_refl | reflexivity]. Qed.

(** One step of [undo] on a non-empty undo stack whose first entry has all
    its blocks defined. *)
Lemma undo_step (e : EditorState.t X) (u0 : ContentState.t) (us : list ContentState.t)
    (h : heap) :
  EditorState.getAllowUndo X e = true ->
  EditorState.getUndoStack X e = u0 :: us ->
  blocks_defined u0 ->
  exists e' h',
    EditorState.undo X e h = (Ok e', h')
    /\ EditorState.getAllowUndo X e' = true
    /\ EditorState.getCurrentContent X e' = u0
    /\ EditorState.getUndoStack X e' = us
    /\ EditorState.getRedoStack X e'
       = (EditorState.getRedoStack X e ++ [EditorState.getCurrentContent X e])%list
    /\ EditorState.getSelection X e'
       = ContentState.getSelectionBefore (EditorState.getCurrentContent X e)
    /\ EditorState.getLastChangeType X e' = Some "undo".
Proof.
  intros Hundo Hstack Hall. unfold EditorState.undo. rewrite Hundo, Hstack. cbn [negb].
  change (Array_get (u0 :: us) 0) with (Some u0). cbv beta iota.
  destruct (getDirectionMap_defined u0 (Some (EditorState.getDirectionMap X e)) Hall)
    as [directionMap Hmap].
  unfold bind at 1. rewrite Hmap. cbn [lift ret].
  match goal with |- context [EditorState.set X e ?p ?h0] =>
    destruct (set_without_decorator e p h0 eq_refl Hall)
      as (e' & h' & Hset & Ha & Hc & Hu & Hr & Hs & Hl & Hn) end.
  exists e', h'. rewrite Hset, Ha, Hc, Hu, Hr, Hs, Hl. cbn.
  rewrite Array_slice_from_one. repeat split; assumption.
Qed.

(** C1, as the code has it by design.  With undo enabled and a non-empty
    undo stack whose first entry has all its blocks defined, [undo] makes
    that entry the current content and takes it off the stack (the rest of
    the stack stays, in order), appends the content that was current to the
    redo stack, and sets the selection to the selectionBefore of the content
    that was current (the selection before the change that is undone).
    When that entry has an undefined block, [undo] throws a TypeError (in
    [EditorBidiService.getDirectionMap]) and allocates nothing.  With undo
    disabled or an empty undo stack it returns the EditorState it was
    given. *)
Theorem undo_restores_an_entry (e : EditorState.t X) (h : heap) :
  (EditorState.getAllowUndo X e = true ->
   forall (restored : ContentState.t) (rest : list ContentState.t),
     EditorState.getUndoStack X e = restored :: rest ->
     (blocks_defined restored ->
      exists e' h',
        EditorState.undo X e h = (Ok e', h')
        /\ EditorState.getCurrentContent X e' = restored
        /\ EditorState.getUndoStack X e' = rest
        /\ EditorState.getRedoStack X e'
           = (EditorState.getRedoStack X e ++ [EditorState.getCurrentContent X e])%list
        /\ EditorState.getSelection X e'
           = ContentState.getSelectionBefore (EditorState.getCurrentContent X e))
     /\ (has_undefined_block restored ->
         EditorState.undo X e h = (Throw TypeError, h)))
  /\ (EditorState.getAllowUndo X e = false \/ EditorState.getUndoStack X e = [] ->
      EditorState.undo X e h = (Ok e, h)).
Proof.
  split.
  - intros Hundo restored rest Hstack. split.
    + intros Hall.
      destruct (undo_step e restored rest h Hundo Hstack Hall)
        as (e' & h' & Hrun & _ & Hc & Hu & Hr & Hs & _).
      exists e', h'. repeat split; assumption.
    + intros Hbad. unfold EditorState.undo. rewrite Hundo, Hstack. cbn [negb].
      change (Array_get (restored :: rest) 0) with (Some restored). cbv beta iota.
      unfold bind at 1. rewrite (getDirectionMap_undefined restored _ Hbad). reflexivity.
  - intros [Hoff | Hempty]; unfold EditorState.undo.
    + rewrite Hoff. reflexivity.
    + rewrite Hempty. destruct (EditorState.getAllowUndo X e); reflexivity.
Qed.

Lemma typing_is_boundary_free (e : EditorState.t X) :
  EditorState.getLastChangeType X e = Some "insert-characters" ->
  EditorState.mustBecomeBoundary X e "insert-characters" = false.
Proof.
  intros Hl. unfold EditorState.mustBecomeBoundary, EditorState.changeType_differs.
  rewrite Hl. reflexivity.
Qed.

Lemma style_change_is_boundary (e : EditorState.t X) :
  EditorState.mustBecomeBoundary X e "change-inline-style" = true.
Proof.
  unfold EditorState.mustBecomeBoundary. apply orb_true_r.
Qed.

Lemma first_typing_is_boundary (e : EditorState.t X) :
  EditorState.getLastChangeType X e <> Some "insert-characters" ->
  EditorState.mustBecomeBoundary X e "insert-characters" = true.
Proof.
  intros Hl. unfold EditorState.mustBecomeBoundary, EditorState.changeType_differs.
  rewrite bool_decide_eq_false_2 by exact Hl. reflexivity.
Qed.

(** C2, as the code has it by design.  With undo enabled, [push] of a
    content that is not the current one and has all its blocks defined
    appends the current content to the undo stack exactly when the selection
    is not the object that is the current content's selectionAfter, or the
    change type differs from the last one, or it is none of
    insert-characters, backspace-character and delete-character.  So from an
    editor whose last change was not insert-characters, three consecutive
    pushes with insert-characters (each of such a content) add one entry,
    the content that was current before the first; a following push with
    change-inline-style adds a second entry, the content that was current
    after the third.  A [push] of a content with an undefined block throws
    a TypeError (in [EditorBidiService.getDirectionMap]) and allocates
    nothing. *)
Theorem push_boundaries
    (e : EditorState.t X) (c1 : ContentState.t) (changeType : string)
    (f : bool) (h : heap) :
  EditorState.getAllowUndo X e = true ->
  ContentState.same (EditorState.getCurrentContent X e) c1 = false ->
  (blocks_defined c1 ->
   exists e' h',
     EditorState.push X e c1 changeType f h = (Ok e', h')
     /\ EditorState.getUndoStack X e'
        = (if negb (SelectionState.same (EditorState.getSelection X e)
                      (ContentState.getSelectionAfter (EditorState.getCurrentContent X e)))
              || (EditorState.changeType_differs changeType
                    (EditorState.getLastChangeType X e)
                  || negb (EditorState.typing_change changeType))
           then EditorState.getUndoStack X e ++ [EditorState.getCurrentContent X e]
           else EditorState.getUndoStack X e)%list)
  /\ (blocks_defined c1 ->
      EditorState.getLastChangeType X e <> Some "insert-characters" ->
      exists e1 h1,
        EditorState.push X e c1 "insert-characters" f h = (Ok e1, h1)
        /\ forall (c2 : ContentState.t) (f2 : bool) (h1' : heap),
            ContentState.same (EditorState.getCurrentContent X e1) c2 = false ->
            blocks_defined c2 ->
            exists e2 h2,
              EditorState.push X e1 c2 "insert-characters" f2 h1' = (Ok e2, h2)
              /\ forall (c3 : ContentState.t) (f3 : bool) (h2' : heap),
                  ContentState.same (EditorState.getCurrentContent X e2) c3 = false ->
                  blocks_defined c3 ->
                  exists e3 h3,
                    EditorState.push X e2 c3 "insert-characters" f3 h2' = (Ok e3, h3)
                    /\ EditorState.getUndoStack X e3
                       = (EditorState.getUndoStack X e
                          ++ [EditorState.getCurrentContent X e])%list
                    /\ forall (c4 : ContentState.t) (f4 : bool) (h3' : heap),
                        ContentState.same (EditorState.getCurrentContent X e3) c4 = false ->
                        blocks_defined c4 ->
                        exists e4 h4,
                          EditorState.push X e3 c4 "change-inline-style" f4 h3'
                          = (Ok e4, h4)
                          /\ EditorState.getUndoStack X e4
                             = (EditorState.getUndoStack X e
                                ++ [EditorState.getCurrentContent X e;
                                    EditorState.getCurrentContent X e3])%list)
  /\ (has_undefined_block c1 ->
      EditorState.push X e c1 changeType f h = (Throw TypeError, h)).
Proof.
  intros Hundo Hdiff. split; [| split].
  - intros Hall.
    destruct (push_with_undo e c1 changeType f h Hundo Hdiff Hall)
      as (e' & h' & Hp & _ & Hu & _).
    exists e', h'. split; [exact Hp |]. rewrite Hu.
    unfold EditorState.is_boundary, EditorState.mustBecomeBoundary,
      EditorState.typing_change.
    rewrite !negb_orb. reflexivity.
  - intros Hall Hlast.
    destruct (push_with_undo e c1 "insert-characters" f h Hundo Hdiff Hall)
      as (e1 & h1 & Hp1 & Ha1 & Hu1 & _ & Hl1 & Hs1 & Hsa1 & _).
    assert (Hb1 : EditorState.is_boundary X e "insert-characters" = true).
    { unfold EditorState.is_boundary. rewrite first_typing_is_boundary by exact Hlast.
      apply orb_true_r. }
    rewrite Hb1 in Hu1.
    exists e1, h1. split; [exact Hp1 |]. intros c2 f2 h1' Hd2 Hall2.
    destruct (push_with_undo e1 c2 "insert-characters" f2 h1' Ha1 Hd2 Hall2)
      as (e2 & h2 & Hp2 & Ha2 & Hu2 & _ & Hl2 & Hs2 & Hsa2 & _).
    assert (Hb2 : EditorState.is_boundary X e1 "insert-characters" = false).
    { unfold EditorState.is_boundary.
      rewrite typing_is_boundary_free by exact Hl1.
      unfold ContentState.getSelectionAfter in *.
      rewrite Hs1, Hsa1, same_selection_refl. reflexivity. }
    rewrite Hb2 in Hu2.
    exists e2, h2. split; [exact Hp2 |]. intros c3 f3 h2' Hd3 Hall3.
    destruct (push_with_undo e2 c3 "insert-characters" f3 h2' Ha2 Hd3 Hall3)
      as (e3 & h3 & Hp3 & Ha3 & Hu3 & _ & Hl3 & Hs3 & Hsa3 & _).
    assert (Hb3 : EditorState.is_boundary X e2 "insert-characters" = false).
    { unfold EditorState.is_boundary.
      rewrite typing_is_boundary_free by exact Hl2.
      unfold ContentState.getSelectionAfter in *.
      rewrite Hs2, Hsa2, same_selection_refl. reflexivity. }
    rewrite Hb3 in Hu3.
    exists e3, h3. split; [exact Hp3 |].
    split; [rewrite Hu3, Hu2, Hu1; reflexivity |]. intros c4 f4 h3' Hd4 Hall4.
    destruct (push_with_undo e3 c4 "change-inline-style" f4 h3' Ha3 Hd4 Hall4)
      as (e4 & h4 & Hp4 & _ & Hu4 & _).
    assert (Hb4 : EditorState.is_boundary X e3 "change-inline-style" = true).
    { unfold EditorState.is_boundary. rewrite style_change_is_boundary.
      apply orb_true_r. }
    rewrite Hb4 in Hu4.
    exists e4, h4. split; [exact Hp4 |].
    rewrite Hu4, Hu3, Hu2, Hu1, <- app_assoc. reflexivity.
  - intros Hbad. apply push_undefined_block; assumption.
Qed.

(** C8: [removeRangeFromContentState] with a collapsed
    selection and [insertTextIntoContentState] with a collapsed selection
    and the empty text return the ContentState they were given; [push] of
    the content object that is current, [undo] with an empty undo stack and
    [redo] with an empty redo stack return the EditorState they were given.
    None of them allocates. *)
Theorem soft_conditions_return_the_input
    (c : ContentState.t) (sel : SelectionState.t) (characterMetadata : CharacterMetadata.t)
    (e : EditorState.t X) (pushed : ContentState.t) (changeType : string)
    (f : bool) (h : heap) :
  (SelectionState.isCollapsed sel = true ->
   removeRangeFromContentState c sel h = (Ok c, h))
  /\ (SelectionState.isCollapsed sel = true ->
      insertTextIntoContentState c sel "" characterMetadata h = (Ok c, h))
  /\ (ContentState.same (EditorState.getCurrentContent X e) pushed = true ->
      EditorState.push X e pushed changeType f h = (Ok e, h))
  /\ (EditorState.getUndoStack X e = [] -> EditorState.undo X e h = (Ok e, h))
  /\ (EditorState.getRedoStack X e = [] -> EditorState.redo X e h = (Ok e, h)).
Proof.
  repeat split.
  - intros Hcol. unfold removeRangeFromContentState. rewrite Hcol. reflexivity.
  - intros Hcol. unfold insertTextIntoContentState, insertTextIntoContentState_in.
    rewrite Hcol. reflexivity.
  - intros Hsame. unfold EditorState.push. rewrite Hsame. reflexivity.
  - intros Hempty. unfold EditorState.undo. rewrite Hempty.
    destruct (EditorState.getAllowUndo X e); reflexivity.
  - intros Hempty. unfold EditorState.redo. rewrite Hempty.
    destruct (EditorState.getAllowUndo X e); reflexivity.
Qed.

End EditorStateTheorems.

Lemma sample_blockMap_defined (c : ContentState.t) :
  ContentState.blockMap c = sample_blockMap -> blocks_defined c.
Proof.
  intros Hmap entry Hin. rewrite Hmap in Hin.
  destruct Hin as [<- | [<- | []]]; discriminate.
Qed.

Lemma undo_restores_an_entry_witness :
  exists e' h',
    EditorState.undo no_collaborators sample_editor_one_undo sample_heap = (Ok e', h')
    /\ EditorState.getCurrentContent no_collaborators e' = sample_content1
    /\ EditorState.getUndoStack no_collaborators e' = []
    /\ EditorState.getRedoStack no_collaborators e'
       = (EditorState.getRedoStack no_collaborators sample_editor_one_undo
          ++ [EditorState.getCurrentContent no_collaborators sample_editor_one_undo])%list
    /\ EditorState.getSelection no_collaborators e'
       = ContentState.getSelectionBefore
           (EditorState.getCurrentContent no_collaborators sample_editor_one_undo).
Proof.
  apply (proj1 (proj1 (undo_restores_an_entry no_collaborators sample_editor_one_undo
                         sample_heap)
                  eq_refl sample_content1 [] eq_refl)).
  apply sample_blockMap_defined. reflexivity.
Defined.

(** C1 as stated fails.  After two changes pushed on the sample editor the
    undo stack holds the first document and then the content of the first
    change; [undo] makes the first document current, not the entry pushed
    last, and the selection it sets is the selectionBefore of the content
    that was current, not that of the restored content. *)
Lemma undo_takes_the_oldest_entry :
  exists e1 h1 e2 h2 e3 h3,
    EditorState.push no_collaborators sample_editor0 sample_content1
      "insert-fragment" true sample_heap = (Ok e1, h1)
    /\ EditorState.push no_collaborators e1 sample_content2
         "insert-fragment" true h1 = (Ok e2, h2)
    /\ EditorState.undo no_collaborators e2 h2 = (Ok e3, h3)
    /\ EditorState.getUndoStack no_collaborators e2
       = [sample_content; EditorState.getCurrentContent no_collaborators e1]
    /\ EditorState.getCurrentContent no_collaborators e3 = sample_content
    /\ ContentState.same (EditorState.getCurrentContent no_collaborators e3)
         (EditorState.getCurrentContent no_collaborators e1) = false
    /\ EditorState.getSelection no_collaborators e3
       = ContentState.getSelectionBefore (EditorState.getCurrentContent no_collaborators e2)
    /\ SelectionState.same (EditorState.getSelection no_collaborators e3)
         (ContentState.getSelectionBefore
            (EditorState.getCurrentContent no_collaborators e3)) = false.
Proof.
  eexists. eexists. eexists. eexists. eexists. eexists.
  split; [vm_compute; reflexivity |].
  split; [vm_compute; reflexivity |].
  split; [vm_compute; reflexivity |].
  repeat split.
Qed.

Lemma push_boundaries_witness :
  exists e1 h1 e2 h2 e3 h3 e4 h4,
    EditorState.push no_collaborators sample_editor0 sample_content1
      "insert-characters" true sample_heap = (Ok e1, h1)
    /\ EditorState.push no_collaborators e1 sample_content2
         "insert-characters" true h1 = (Ok e2, h2)
    /\ EditorState.push no_collaborators e2 sample_content3
         "insert-characters" true h2 = (Ok e3, h3)
    /\ EditorState.push no_collaborators e3 sample_content4
         "change-inline-style" true h3 = (Ok e4, h4)
    /\ EditorState.getUndoStack no_collaborators e3 = [sample_content]
    /\ EditorState.getUndoStack no_collaborators e4
       = [sample_content; EditorState.getCurrentContent no_collaborators e3].
Proof.
  assert (B : forall c, ContentState.blockMap c = sample_blockMap -> blocks_defined c)
    by exact sample_blockMap_defined.
  destruct (proj1 (proj2 (push_boundaries no_collaborators sample_editor0 sample_content1
                            "insert-characters" true sample_heap eq_refl eq_refl))
              (B sample_content1 eq_refl))
    as (e1 & h1 & Hp1 & K1); [discriminate |].
  destruct (push_current_content_fresh no_collaborators _ _ _ _ _ _ _ Hp1 eq_refl eq_refl
              (B sample_content1 eq_refl))
    as (A1 & R1 & N1).
  cbn in R1, N1.
  assert (D2 : ContentState.same
                 (EditorState.getCurrentContent no_collaborators e1) sample_content2
               = false)
    by (eapply same_content_fresh; [exact R1 | cbn; lia]).
  destruct (K1 sample_content2 true h1 D2 (B sample_content2 eq_refl)) as (e2 & h2 & Hp2 & K2).
  destruct (push_current_content_fresh no_collaborators _ _ _ _ _ _ _ Hp2 A1 D2
              (B sample_content2 eq_refl))
    as (A2 & R2 & N2).
  assert (D3 : ContentState.same
                 (EditorState.getCurrentContent no_collaborators e2) sample_content3
               = false)
    by (eapply same_content_fresh; [exact R2 | cbn; lia]).
  destruct (K2 sample_content3 true h2 D3 (B sample_content3 eq_refl)) as (e3 & h3 & Hp3 & Hu3 & K3).
  destruct (push_current_content_fresh no_collaborators _ _ _ _ _ _ _ Hp3 A2 D3
              (B sample_content3 eq_refl))
    as (A3 & R3 & N3).
  assert (D4 : ContentState.same
                 (EditorState.getCurrentContent no_collaborators e3) sample_content4
               = false)
    by (eapply same_content_fresh; [exact R3 | cbn; lia]).
  destruct (K3 sample_content4 true h3 D4 (B sample_content4 eq_refl)) as (e4 & h4 & Hp4 & Hu4).
  exists e1, h1, e2, h2, e3, h3, e4, h4.
  repeat (split; [assumption |]). exact Hu4.
Defined.

(** C2 as stated fails.  On an editor whose last change was
    insert-characters and whose cursor was moved since, a push with
    insert-characters puts the current content on the undo stack, although
    the change type is the preceding one and a typing type.  On an editor
    whose last change was insert-characters and whose cursor was not moved,
    three pushes with insert-characters add no entry at all. *)
Lemma typing_after_cursor_move_is_boundary :
  (exists e' h',
      EditorState.push no_collaborators sample_editor_moved sample_content1
        "insert-characters" true sample_heap = (Ok e', h')
      /\ EditorState.getLastChangeType no_collaborators sample_editor_moved
         = Some "insert-characters"
      /\ EditorState.mustBecomeBoundary no_collaborators sample_editor_moved
           "insert-characters" = false
      /\ EditorState.getUndoStack no_collaborators sample_editor_moved = []
      /\ EditorState.getUndoStack no_collaborators e' = [sample_content])
  /\ (exists e1 h1 e2 h2 e3 h3,
         EditorState.push no_collaborators sample_editor_typing sample_content1
           "insert-characters" true sample_heap = (Ok e1, h1)
         /\ EditorState.push no_collaborators e1 sample_content2
              "insert-characters" true h1 = (Ok e2, h2)
         /\ EditorState.push no_collaborators e2 sample_content3
              "insert-characters" true h2 = (Ok e3, h3)
         /\ EditorState.getAllowUndo no_collaborators sample_editor_typing = true
         /\ EditorState.getUndoStack no_collaborators sample_editor_typing = []
         /\ EditorState.getUndoStack no_collaborators e3 = []).
Proof.
  split.
  - eexists. eexists.
    split; [vm_compute; reflexivity |].
    repeat split.
  - eexists. eexists. eexists. eexists. eexists. eexists.
    split; [vm_compute; reflexivity |].
    split; [vm_compute; reflexivity |].
    split; [vm_compute; reflexivity |].
    repeat split.
Qed.

Lemma soft_conditions_return_the_input_witness :
  removeRangeFromContentState sample_content sample_selection sample_heap
  = (Ok sample_content, sample_heap)
  /\ insertTextIntoContentState sample_content sample_selection ""
       CharacterMetadata.EMPTY sample_heap = (Ok sample_content, sample_heap)
  /\ EditorState.push no_collaborators sample_editor0 sample_content
       "insert-characters" true sample_heap = (Ok sample_editor0, sample_heap)
  /\ EditorState.undo no_collaborators sample_editor0 sample_heap
     = (Ok sample_editor0, sample_heap)
  /\ EditorState.redo no_collaborators sample_editor0 sample_heap
     = (Ok sample_editor0, sample_heap).
Proof.
  destruct (soft_conditions_return_the_input no_collaborators sample_content
              sample_selection CharacterMetadata.EMPTY sample_editor0 sample_content
              "insert-characters" true sample_heap) as (H1 & H2 & H3 & H4 & H5).
  split; [apply H1; reflexivity |].
  split; [apply H2; reflexivity |].
  split; [apply H3; reflexivity |].
  split; [apply H4; reflexivity | apply H5; reflexivity].
Defined.

Lemma getKeyBefore_eq_getKeyAfter_witness :
  ContentState.getKeyAfter sample_content "a" = Some "b"
  /\ ContentState.getKeyBefore sample_content "a" = Some "b".
Proof.
  refine (proj1 (proj2 (getKeyBefore_eq_getKeyAfter sample_content "a" _ _)) 0%nat eq_refl).
  - cbn. repeat constructor; cbn; intuition discriminate.
  - cbn. left. reflexivity.
Defined.

(** ** Theorems: findRangesImmutable *)

Lemma ranges_ordered_weaken (lo lo' : nat) (ranges : list (nat * nat)) (hi : nat) :
  (lo' <= lo)%nat -> ranges_ordered lo ranges hi -> ranges_ordered lo' ranges hi.
Proof.
  destruct ranges as [| [s e] more]; cbn; intros Hle H; [lia |].
  destruct H as (H1 & H2 & H3). repeat split; [lia | assumption | assumption].
Qed.

Section FindRangesTheorems.
Context {T : Type}.
Variable areEqualFn : T -> T -> bool.
Variable filterFn : T -> bool.

Lemma findRanges_reduce_ordered (rest : list T) :
  forall (value : T) (cursor nextIndex : nat),
    (cursor < nextIndex)%nat ->
    ranges_ordered cursor (findRanges_reduce areEqualFn filterFn value cursor nextIndex rest)
      (nextIndex + List.length rest).
Proof.
  induction rest as [| nextValue rest' IH]; intros value cursor nextIndex Hlt; cbn.
  - destruct (filterFn value); cbn; lia.
  - destruct (areEqualFn value nextValue); cbn.
    + replace (nextIndex + S (List.length rest'))%nat
        with (S nextIndex + List.length rest')%nat by lia.
      apply IH. lia.
    + specialize (IH nextValue nextIndex (S nextIndex) ltac:(lia)).
      replace (nextIndex + S (List.length rest'))%nat
        with (S nextIndex + List.length rest')%nat by lia.
      destruct (filterFn value); cbn.
      * repeat split; [lia | assumption | assumption].
      * eapply ranges_ordered_weaken; [| exact IH]. lia.
Qed.

(** X1: the ranges [findRangesImmutable] reports lie inside the haystack,
    are not empty, and come in increasing order without overlap; for an
    empty haystack there is none. *)
Theorem findRangesImmutable_ordered (haystack : list T) :
  ranges_ordered 0 (findRangesImmutable areEqualFn filterFn haystack)
    (List.length haystack)
  /\ (haystack = [] -> findRangesImmutable areEqualFn filterFn haystack = []).
Proof.
  split; [| intros ->; reflexivity].
  destruct haystack as [| first rest]; cbn; [lia |].
  apply (findRanges_reduce_ordered rest first 0 1). lia.
Qed.

Lemma findRanges_reduce_tile (rest : list T) :
  (forall x, filterFn x = true) ->
  forall (value : T) (cursor nextIndex : nat),
    (cursor < nextIndex)%nat ->
    ranges_tile cursor (findRanges_reduce areEqualFn filterFn value cursor nextIndex rest)
      (nextIndex + List.length rest).
Proof.
  intros Hall.
  induction rest as [| nextValue rest' IH]; intros value cursor nextIndex Hlt; cbn.
  - rewrite Hall. cbn. repeat split; lia.
  - replace (nextIndex + S (List.length rest'))%nat
      with (S nextIndex + List.length rest')%nat by lia.
    destruct (areEqualFn value nextValue); cbn.
    + apply IH. lia.
    + rewrite Hall. cbn. repeat split; [assumption |]. apply IH. lia.
Qed.

(** X2: when the filter accepts every value, the ranges tile the haystack:
    the first starts at 0, each starts where the one before ends, and the
    last ends at the length. *)
Theorem findRangesImmutable_tile (haystack : list T) :
  (forall x, filterFn x = true) ->
  ranges_tile 0 (findRangesImmutable areEqualFn filterFn haystack) (List.length haystack).
Proof.
  intros Hall. destruct haystack as [| first rest]; cbn; [reflexivity |].
  apply (findRanges_reduce_tile rest Hall first 0 1). lia.
Qed.


Lemma nth_error_middle (pre : list T) (value : T) (rest : list T) :
  nth_error (pre ++ value :: rest) (List.length pre) = Some value.
Proof. rewrite nth_error_app2 by lia. rewrite Nat.sub_diag. reflexivity. Qed.

Lemma nth_error_after_middle (pre : list T) (value : T) (rest : list T) :
  nth_error (pre ++ value :: rest) (S (List.length pre)) = nth_error rest 0.
Proof.
  rewrite nth_error_app2 by lia.
  replace (S (List.length pre) - List.length pre)%nat with 1%nat by lia. reflexivity.
Qed.

Lemma findRanges_reduce_runs (rest : list T) :
  forall (h pre : list T) (value : T) (cursor : nat),
    h = (pre ++ value :: rest)%list ->
    (cursor <= List.length pre)%nat ->
    (forall i a b, (cursor <= i)%nat -> (S i <= List.length pre)%nat ->
                   nth_error h i = Some a -> nth_error h (S i) = Some b ->
                   areEqualFn a b = true) ->
    (cursor = 0%nat
     \/ exists a b, nth_error h (cursor - 1) = Some a /\ nth_error h cursor = Some b
                    /\ areEqualFn a b = false) ->
    forall s e,
      List.In (s, e)
        (findRanges_reduce areEqualFn filterFn value cursor (S (List.length pre)) rest) ->
      (forall i a b, (s <= i)%nat -> (S i < e)%nat ->
                     nth_error h i = Some a -> nth_error h (S i) = Some b ->
                     areEqualFn a b = true)
      /\ (exists l, nth_error h (e - 1) = Some l /\ filterFn l = true)
      /\ (forall a b, nth_error h (e - 1) = Some a -> nth_error h e = Some b ->
                      areEqualFn a b = false)
      /\ (s = 0%nat
          \/ exists a b, nth_error h (s - 1) = Some a /\ nth_error h s = Some b
                         /\ areEqualFn a b = false).
Proof.
  induction rest as [| nextValue rest' IH]; intros h pre value cursor Hh Hc Hadj Hstart s e Hin.
  - cbn in Hin. destruct (filterFn value) eqn:Hf; [| destruct Hin].
    destruct Hin as [Heq | []]. injection Heq as <- <-.
    replace (S (List.length pre) - 1)%nat with (List.length pre) by lia.
    split; [intros i a b Hi Hlt; apply Hadj; [exact Hi | lia] |].
    split; [exists value; split; [subst h; apply nth_error_middle | exact Hf] |].
    split; [| exact Hstart].
    intros a b _ Hb. subst h. rewrite nth_error_after_middle in Hb. discriminate.
  - assert (Hh' : h = ((pre ++ [value]) ++ nextValue :: rest')%list)
      by (rewrite Hh, <- app_assoc; reflexivity).
    assert (Hlen' : List.length (pre ++ [value]) = S (List.length pre))
      by (rewrite length_app; cbn; lia).
    assert (Hv : nth_error h (List.length pre) = Some value)
      by (subst h; apply nth_error_middle).
    assert (Hn : nth_error h (S (List.length pre)) = Some nextValue)
      by (rewrite Hh, nth_error_after_middle; reflexivity).
    cbn in Hin. destruct (areEqualFn value nextValue) eqn:Heqv; cbn in Hin.
    + rewrite <- Hlen' in Hin.
      apply (IH h (pre ++ [value])%list nextValue cursor Hh'); [lia | | exact Hstart | exact Hin].
      intros i a b Hi Hle Ha Hb. rewrite Hlen' in Hle.
      destruct (Nat.eq_dec i (List.length pre)) as [-> | Hne].
      * rewrite Hv in Ha. rewrite Hn in Hb. injection Ha as <-. injection Hb as <-.
        exact Heqv.
      * apply (Hadj i a b Hi); [lia | exact Ha | exact Hb].
    + apply in_app_or in Hin. destruct Hin as [Hin | Hin].
      * destruct (filterFn value) eqn:Hf; [| destruct Hin].
        destruct Hin as [Heq | []]. injection Heq as <- <-.
        replace (S (List.length pre) - 1)%nat with (List.length pre) by lia.
        split; [intros i a b Hi Hlt; apply Hadj; [exact Hi | lia] |].
        split; [exists value; split; [exact Hv | exact Hf] |].
        split; [| exact Hstart].
        intros a b Ha Hb. rewrite Hv in Ha. rewrite Hn in Hb.
        injection Ha as <-. injection Hb as <-. exact Heqv.
      * rewrite <- Hlen' in Hin.
        apply (IH h (pre ++ [value])%list nextValue (List.length (pre ++ [value]))
                 Hh'); [lia | | | exact Hin].
        -- intros i a b Hi Hle. lia.
        -- right. exists value, nextValue. rewrite Hlen'.
           replace (S (List.length pre) - 1)%nat with (List.length pre) by lia.
           repeat split; assumption.
Qed.

(** X3: every range [(s, e)] reported is a maximal run: neighbours inside
    it are equal for [areEqualFn], the element before it and the element
    after it (where there is one) differ from their neighbour inside it, and
    [filterFn] accepts its last element. *)
Theorem findRangesImmutable_runs (haystack : list T) (s e : nat) :
  List.In (s, e) (findRangesImmutable areEqualFn filterFn haystack) ->
  (forall i a b, (s <= i)%nat -> (S i < e)%nat ->
                 nth_error haystack i = Some a -> nth_error haystack (S i) = Some b ->
                 areEqualFn a b = true)
  /\ (exists l, nth_error haystack (e - 1) = Some l /\ filterFn l = true)
  /\ (forall a b, nth_error haystack (e - 1) = Some a -> nth_error haystack e = Some b ->
                  areEqualFn a b = false)
  /\ (s = 0%nat
      \/ exists a b, nth_error haystack (s - 1) = Some a /\ nth_error haystack s = Some b
                     /\ areEqualFn a b = false).
Proof.
  destruct haystack as [| first rest]; cbn [findRangesImmutable]; [intros [] |].
  intros Hin.
  apply (findRanges_reduce_runs rest (first :: rest) [] first 0 eq_refl);
    [cbn; lia | cbn; intros; lia | left; reflexivity | exact Hin].
Qed.


Lemma findRanges_reduce_covers (rest : list T) :
  (forall a b, areEqualFn a b = true -> filterFn a = filterFn b) ->
  forall (h pre : list T) (value : T) (cursor : nat),
    h = (pre ++ value :: rest)%list ->
    (cursor <= List.length pre)%nat ->
    (forall i a, (cursor <= i)%nat -> (i <= List.length pre)%nat ->
                 nth_error h i = Some a -> filterFn a = filterFn value) ->
    forall i a,
      (cursor <= i)%nat -> nth_error h i = Some a -> filterFn a = true ->
      exists s e,
        List.In (s, e)
          (findRanges_reduce areEqualFn filterFn value cursor (S (List.length pre)) rest)
        /\ (s <= i)%nat /\ (i < e)%nat.
Proof.
  intros Hresp.
  induction rest as [| nextValue rest' IH]; intros h pre value cursor Hh Hc Hinv i a Hi Ha Hf.
  - assert (Hle : (i <= List.length pre)%nat).
    { assert (i < List.length h)%nat by (apply nth_error_Some; congruence).
      subst h. rewrite length_app in *. cbn in *. lia. }
    cbn. rewrite <- (Hinv i a Hi Hle Ha), Hf.
    exists cursor, (S (List.length pre)). split; [left; reflexivity | lia].
  - assert (Hh' : h = ((pre ++ [value]) ++ nextValue :: rest')%list)
      by (rewrite Hh, <- app_assoc; reflexivity).
    assert (Hlen' : List.length (pre ++ [value]) = S (List.length pre))
      by (rewrite length_app; cbn; lia).
    assert (Hv : nth_error h (List.length pre) = Some value)
      by (subst h; apply nth_error_middle).
    assert (Hn : nth_error h (S (List.length pre)) = Some nextValue)
      by (rewrite Hh, nth_error_after_middle; reflexivity).
    cbn. destruct (areEqualFn value nextValue) eqn:Heqv; cbn.
    + rewrite <- Hlen'.
      apply (IH h (pre ++ [value])%list nextValue cursor Hh') with (a := a);
        [lia | | exact Hi | exact Ha | exact Hf].
      intros j c Hj Hle Hc'. rewrite Hlen' in Hle.
      destruct (Nat.eq_dec j (S (List.length pre))) as [-> | Hne].
      * rewrite Hn in Hc'. injection Hc' as <-. reflexivity.
      * rewrite (Hinv j c Hj ltac:(lia) Hc'). apply Hresp. exact Heqv.
    + destruct (Nat.le_gt_cases i (List.length pre)) as [Hle | Hgt].
      * rewrite <- (Hinv i a Hi Hle Ha), Hf.
        exists cursor, (S (List.length pre)). split; [left; reflexivity | lia].
      * destruct (IH h (pre ++ [value])%list nextValue (List.length (pre ++ [value]))
                    Hh' ltac:(lia)) with (i := i) (a := a) as (s & e & Hin & Hs & He);
          [ | lia | exact Ha | exact Hf | ].
        -- intros j c Hj Hle Hc'. rewrite Hlen' in Hj, Hle.
           assert (j = S (List.length pre)) as -> by lia.
           rewrite Hn in Hc'. injection Hc' as <-. reflexivity.
        -- exists s, e. rewrite Hlen' in Hin.
           split; [apply in_or_app; right; exact Hin | lia].
Qed.

(** X4: when [filterFn] gives equal answers on values that [areEqualFn]
    holds equal, every index whose element the filter accepts lies in one
    of the ranges reported. *)
Theorem findRangesImmutable_covers (haystack : list T) (i : nat) (a : T) :
  (forall x y, areEqualFn x y = true -> filterFn x = filterFn y) ->
  nth_error haystack i = Some a ->
  filterFn a = true ->
  exists s e,
    List.In (s, e) (findRangesImmutable areEqualFn filterFn haystack)
    /\ (s <= i)%nat /\ (i < e)%nat.
Proof.
  intros Hresp Ha Hf.
  destruct haystack as [| first rest]; [destruct i; discriminate |].
  cbn [findRangesImmutable].
  apply (findRanges_reduce_covers rest Hresp (first :: rest) [] first 0 eq_refl)
    with (a := a); [cbn; lia | | lia | exact Ha | exact Hf].
  cbn. intros j c _ Hj Hc. assert (j = 0%nat) as -> by lia.
  cbn in Hc. injection Hc as <-. reflexivity.
Qed.

(** The three facts about the ranges that the entity ranges of a block rest
    on. *)
Lemma findRanges_within (haystack : list T) :
  ranges_ordered 0 (findRangesImmutable areEqualFn filterFn haystack)
    (List.length haystack).
Proof.
  destruct haystack as [| first rest]; cbn; [lia |].
  apply (findRanges_reduce_ordered rest first 0 1). lia.
Qed.

Lemma findRanges_adjacent (haystack : list T) (s e : nat) :
  List.In (s, e) (findRangesImmutable areEqualFn filterFn haystack) ->
  forall i a b, (s <= i)%nat -> (S i < e)%nat ->
                nth_error haystack i = Some a -> nth_error haystack (S i) = Some b ->
                areEqualFn a b = true.
Proof.
  destruct haystack as [| first rest]; cbn [findRangesImmutable]; [intros [] |].
  intros Hin.
  apply (findRanges_reduce_runs rest (first :: rest) [] first 0 eq_refl);
    [cbn; lia | cbn; intros; lia | left; reflexivity | exact Hin].
Qed.

Lemma findRanges_accepted (haystack : list T) (i : nat) (a : T) :
  (forall x y, areEqualFn x y = true -> filterFn x = filterFn y) ->
  nth_error haystack i = Some a ->
  filterFn a = true ->
  exists s e,
    List.In (s, e) (findRangesImmutable areEqualFn filterFn haystack)
    /\ (s <= i)%nat /\ (i < e)%nat.
Proof.
  intros Hresp Ha Hf.
  destruct haystack as [| first rest]; [destruct i; discriminate |].
  cbn [findRangesImmutable].
  apply (findRanges_reduce_covers rest Hresp (first :: rest) [] first 0 eq_refl)
    with (a := a); [cbn; lia | | lia | exact Ha | exact Hf].
  cbn. intros j c _ Hj Hc. assert (j = 0%nat) as -> by lia.
  cbn in Hc. injection Hc as <-. reflexivity.
Qed.

End FindRangesTheorems.

Lemma ranges_ordered_In (ranges : list (nat * nat)) :
  forall (lo hi s e : nat),
    ranges_ordered lo ranges hi -> List.In (s, e) ranges ->
    (lo <= s)%nat /\ (s < e)%nat /\ (e <= hi)%nat.
Proof.
  induction ranges as [| [s0 e0] more IH]; intros lo hi s e Hord Hin; [destruct Hin |].
  cbn in Hord. destruct Hord as (H1 & H2 & H3).
  assert (Hhi : forall rs l, ranges_ordered l rs hi -> (l <= hi)%nat).
  { induction rs as [| [s1 e1] rs IHrs]; cbn; intros l Hl; [exact Hl |].
    destruct Hl as (A & B & C). specialize (IHrs e1 C). lia. }
  destruct Hin as [Heq | Hin].
  - injection Heq as <- <-. specialize (Hhi more e0 H3). lia.
  - destruct (IH e0 hi s e H3 Hin) as (A & B & C). lia.
Qed.

Lemma Array_get_of_nat {A : Type} (l : list A) (i : nat) :
  Array_get l (Z.of_nat i) = nth_error l i.
Proof.
  unfold Array_get. destruct (Z.ltb_spec (Z.of_nat i) 0); [lia |].
  rewrite Nat2Z.id. reflexivity.
Qed.

(** X5: the entity ranges of a block decode back to the entities of its
    characters.  Inside a range [findEntityRanges] reports, every offset
    has the entity of the first offset of the range; and when the filter
    depends on the entity only, every offset whose character it accepts
    lies in a reported range. *)
Theorem findEntityRanges_round_trip (b : ContentBlock.t)
    (filterFn : CharacterMetadata.t -> bool) :
  (forall s e i,
      List.In (s, e) (findEntityRanges b filterFn) ->
      (s <= i)%nat -> (i < e)%nat ->
      (e <= List.length (ContentBlock.getCharacterList b))%nat
      /\ ContentBlock.getEntityAt b (Z.of_nat i) = ContentBlock.getEntityAt b (Z.of_nat s))
  /\ ((forall x y, CharacterMetadata.getEntity x = CharacterMetadata.getEntity y ->
                   filterFn x = filterFn y) ->
      forall i c,
        nth_error (ContentBlock.getCharacterList b) i = Some c ->
        filterFn c = true ->
        exists s e,
          List.In (s, e) (findEntityRanges b filterFn) /\ (s <= i)%nat /\ (i < e)%nat).
Proof.
  split.
  - intros s e i Hin Hs He. unfold findEntityRanges in Hin.
    set (chars := ContentBlock.getCharacterList b) in *.
    pose proof (findRanges_within haveEqualEntity filterFn chars) as Hord.
    destruct (ranges_ordered_In _ _ _ _ _ Hord Hin) as (_ & _ & Hhi).
    split; [exact Hhi |].
    pose proof (findRanges_adjacent haveEqualEntity filterFn chars s e Hin) as Hadj.
    unfold ContentBlock.getEntityAt. fold chars. rewrite !Array_get_of_nat.
    induction i as [| i IHi]; [assert (s = 0%nat) as -> by lia; reflexivity |].
    destruct (Nat.eq_dec s (S i)) as [-> | Hne]; [reflexivity |].
    rewrite <- IHi by lia.
    destruct (nth_error chars i) as [a |] eqn:Ha;
      [| apply nth_error_None in Ha; lia].
    destruct (nth_error chars (S i)) as [c |] eqn:Hc;
      [| apply nth_error_None in Hc; lia].
    specialize (Hadj i a c ltac:(lia) ltac:(lia) Ha Hc).
    unfold haveEqualEntity in Hadj. apply bool_decide_eq_true_1 in Hadj.
    symmetry. exact Hadj.
  - intros Hdep i c Hc Hf. unfold findEntityRanges.
    apply (findRanges_accepted haveEqualEntity filterFn _ i c); [| exact Hc | exact Hf].
    intros x y Hxy. apply Hdep. unfold haveEqualEntity in Hxy.
    apply bool_decide_eq_true_1 in Hxy. exact Hxy.
Qed.

Lemma findRangesImmutable_tile_witness :
  ranges_tile 0
    (findRangesImmutable haveEqualEntity (fun _ => true)
       (ContentBlock.getCharacterList getSampleBlock))
    (List.length (ContentBlock.getCharacterList getSampleBlock)).
Proof.
  apply (findRangesImmutable_tile haveEqualEntity (fun _ => true)
           (ContentBlock.getCharacterList getSampleBlock)).
  intros x. reflexivity.
Defined.

Lemma findRangesImmutable_runs_witness :
  exists l,
    nth_error (ContentBlock.getCharacterList getSampleBlock) (4 - 1) = Some l
    /\ (fun _ : CharacterMetadata.t => true) l = true.
Proof.
  apply (findRangesImmutable_runs haveEqualEntity (fun _ => true)
           (ContentBlock.getCharacterList getSampleBlock) 1 4).
  right. left. reflexivity.
Defined.

Lemma findRangesImmutable_covers_witness :
  exists s e,
    List.In (s, e)
      (findRangesImmutable haveEqualEntity hasEntity
         (ContentBlock.getCharacterList getSampleBlock))
    /\ (s <= 4)%nat /\ (4 < e)%nat.
Proof.
  apply (findRangesImmutable_covers haveEqualEntity hasEntity
           (ContentBlock.getCharacterList getSampleBlock) 4 sample_x).
  - intros x y Hxy. unfold haveEqualEntity in Hxy.
    apply bool_decide_eq_true_1 in Hxy. unfold hasEntity. rewrite Hxy. reflexivity.
  - reflexivity.
  - reflexivity.
Defined.

Lemma findEntityRanges_round_trip_witness :
  ((4 <= List.length (ContentBlock.getCharacterList getSampleBlock))%nat
   /\ ContentBlock.getEntityAt getSampleBlock (Z.of_nat 3)
      = ContentBlock.getEntityAt getSampleBlock (Z.of_nat 1))
  /\ exists s e,
       List.In (s, e) (findEntityRanges getSampleBlock hasEntity)
       /\ (s <= 0)%nat /\ (0 < e)%nat.
Proof.
  split.
  - apply (proj1 (findEntityRanges_round_trip getSampleBlock (fun _ => true)) 1 4 3)%nat;
      [right; left; reflexivity | lia | lia].
  - apply (proj2 (findEntityRanges_round_trip getSampleBlock hasEntity)) with (c := sample_bold_x).
    + intros x y Hxy. unfold hasEntity. rewrite Hxy. reflexivity.
    + reflexivity.
    + reflexivity.
Defined.

(** ** Theorems: the neighbours of a block *)

Lemma findIndex_key_nth (entries : BlockMap) (key : string) :
  forall (i : nat) (j : Z),
    List.NoDup (Map_keys entries) ->
    nth_error (Map_keys entries) i = Some (Some key) ->
    findIndex_key entries key j = j + Z.of_nat i.
Proof.
  induction entries as [| e rest IH]; intros i j Hnd Hi.
  - destruct i; discriminate.
  - cbn in Hnd. inversion Hnd as [| ? ? Hnotin Hnd']; subst.
    cbn. unfold key_is. destruct i as [| i]; cbn in Hi.
    + injection Hi as ->. rewrite bool_decide_eq_true_2 by reflexivity. lia.
    + rewrite bool_decide_eq_false_2.
      * rewrite (IH i (j + 1) Hnd' Hi). lia.
      * intros Heq. apply Hnotin. rewrite Heq. eapply nth_error_In. exact Hi.
Qed.

Lemma findIndex_key_absent (entries : BlockMap) (key : string) (j : Z) :
  ~ List.In (Some key) (Map_keys entries) -> findIndex_key entries key j = -1.
Proof.
  revert j. induction entries as [| e rest IH]; intros j Hnot; cbn; [reflexivity |].
  unfold key_is. rewrite bool_decide_eq_false_2.
  - apply IH. intros Hin. apply Hnot. right. exact Hin.
  - intros Heq. apply Hnot. left. exact Heq.
Qed.

Lemma entry_value_of_nat (entries : BlockMap) (i : nat) :
  entry_value entries (Z.of_nat i)
  = match nth_error entries i with
    | Some e => Ok (snd e)
    | None => Throw TypeError
    end.
Proof. unfold entry_value. rewrite Array_get_of_nat. reflexivity. Qed.

Lemma getBlockAfter_at (c : ContentState.t) (key : string) (i : nat) :
  List.NoDup (Map_keys (ContentState.blockMap c)) ->
  nth_error (Map_keys (ContentState.blockMap c)) i = Some (Some key) ->
  ContentState_getBlockAfter c key
  = match nth_error (ContentState.blockMap c) (S i) with
    | Some e => Ok (snd e)
    | None => Throw TypeError
    end.
Proof.
  intros Hnd Hi. unfold ContentState_getBlockAfter, ContentState.getBlockMap.
  rewrite (findIndex_key_nth _ key i 0 Hnd Hi).
  replace (0 + Z.of_nat i + 1) with (Z.of_nat (S i)) by lia.
  apply entry_value_of_nat.
Qed.

(** X6: in a block map with unique keys, [getBlockAfter(key)] returns the
    block of the entry that follows the entry of [key]; for the key of the
    last block it throws a TypeError instead of returning undefined; for a
    key that is not in the map it returns the first block. *)
Theorem getBlockAfter_spec (c : ContentState.t) (key : string) :
  List.NoDup (Map_keys (ContentState.blockMap c)) ->
  (forall i : nat,
      nth_error (Map_keys (ContentState.blockMap c)) i = Some (Some key) ->
      ContentState_getBlockAfter c key
      = match nth_error (ContentState.blockMap c) (S i) with
        | Some e => Ok (snd e)
        | None => Throw TypeError
        end)
  /\ (~ List.In (Some key) (Map_keys (ContentState.blockMap c)) ->
      ContentState_getBlockAfter c key
      = match ContentState.blockMap c with
        | e :: _ => Ok (snd e)
        | [] => Throw TypeError
        end).
Proof.
  intros Hnd. split.
  - intros i Hi. apply getBlockAfter_at; assumption.
  - intros Hnot. unfold ContentState_getBlockAfter, ContentState.getBlockMap.
    rewrite (findIndex_key_absent _ key 0 Hnot).
    destruct (ContentState.blockMap c); reflexivity.
Qed.

(** For a key of the map, [getBlockBefore] reads the entry [getBlockAfter]
    reads. *)
Lemma getBlockBefore_in (c : ContentState.t) (key : string) :
  List.NoDup (Map_keys (ContentState.blockMap c)) ->
  List.In (Some key) (Map_keys (ContentState.blockMap c)) ->
  ContentState_getBlockBefore c key = ContentState_getBlockAfter c key.
Proof.
  intros Hnd Hin. destruct (In_nth_error _ _ Hin) as [i Hi].
  rewrite (getBlockAfter_at c key i Hnd Hi).
  unfold ContentState_getBlockBefore, ContentState.getBlockMap.
  set (entries := ContentState.blockMap c) in *.
  assert (Hlt : (i < List.length entries)%nat).
  { unfold Map_keys in Hi. rewrite <- (length_map fst). apply nth_error_Some.
    rewrite Hi. discriminate. }
  assert (Hrev : nth_error (Map_keys (rev entries)) (List.length entries - S i)
                 = Some (Some key)).
  { unfold Map_keys in *. rewrite map_rev, nth_error_rev, length_map.
    destruct (Nat.ltb_spec (List.length entries - S i) (List.length entries)); [| lia].
    replace (List.length entries - S (List.length entries - S i))%nat with i by lia.
    exact Hi. }
  assert (Hndr : List.NoDup (Map_keys (rev entries))).
  { unfold Map_keys in *. rewrite map_rev. apply NoDup_rev. exact Hnd. }
  rewrite (findIndex_key_nth _ key _ 0 Hndr Hrev).
  destruct (Nat.eq_dec (S i) (List.length entries)) as [Hlast | Hnot].
  + rewrite (proj2 (nth_error_None entries (S i))) by lia.
    replace (List.length entries - S i)%nat with 0%nat by lia. reflexivity.
  + replace (0 + Z.of_nat (List.length entries - S i) - 1)
      with (Z.of_nat (List.length entries - S (S i))) by lia.
    rewrite entry_value_of_nat, nth_error_rev.
    destruct (Nat.ltb_spec (List.length entries - S (S i)) (List.length entries)); [| lia].
    replace (List.length entries - S (List.length entries - S (S i)))%nat
      with (S i) by lia.
    reflexivity.
Qed.

(** X7: in a block map with unique keys, [getBlockBefore(key)] returns what
    [getBlockAfter(key)] returns for every key of the map: the block that
    follows, never the one before, and a TypeError for the last block.  For
    a key that is not in the map it throws a TypeError. *)
Theorem getBlockBefore_spec (c : ContentState.t) (key : string) :
  List.NoDup (Map_keys (ContentState.blockMap c)) ->
  (List.In (Some key) (Map_keys (ContentState.blockMap c)) ->
   ContentState_getBlockBefore c key = ContentState_getBlockAfter c key)
  /\ (~ List.In (Some key) (Map_keys (ContentState.blockMap c)) ->
      ContentState_getBlockBefore c key = Throw TypeError).
Proof.
  intros Hnd. split.
  - intros Hin. apply getBlockBefore_in; assumption.
  - intros Hnot. unfold ContentState_getBlockBefore, ContentState.getBlockMap.
    rewrite findIndex_key_absent; [reflexivity |].
    intros Hin. apply Hnot. unfold Map_keys in *. rewrite map_rev in Hin.
    apply in_rev in Hin. exact Hin.
Qed.

Lemma sample_keys_unique : List.NoDup (Map_keys (ContentState.blockMap sample_content)).
Proof. cbn. repeat constructor; cbn; intuition discriminate. Qed.

Lemma getBlockAfter_spec_witness :
  ContentState_getBlockAfter sample_content "b" = Throw TypeError.
Proof.
  apply (proj1 (getBlockAfter_spec sample_content "b" sample_keys_unique) 1%nat).
  reflexivity.
Defined.

Lemma getBlockBefore_spec_witness :
  ContentState_getBlockBefore sample_content "a"
  = ContentState_getBlockAfter sample_content "a".
Proof.
  apply (proj1 (getBlockBefore_spec sample_content "a" sample_keys_unique)).
  left. reflexivity.
Defined.

(** ** Theorems: the intern pool *)

Lemma hash_of_new (cfg : CharacterMetadata.config) (r : ref) :
  let m := CharacterMetadata.merge_config cfg in
  CharacterMetadata.hashCharacterMetadataConfig
    (config_of
       {| cm_self := r;
          cm_style := default EMPTY_STYLE
                        (CharacterMetadata.cfg_style (CharacterMetadata.merge_config m));
          cm_entity := default None
                         (CharacterMetadata.cfg_entity (CharacterMetadata.merge_config m)) |})
  = CharacterMetadata.hashCharacterMetadataConfig m.
Proof.
  destruct cfg as [[s |] [[e |] |]]; reflexivity.
Qed.

Lemma initial_pool_consistent : pool_consistent initial_heap.
Proof.
  intros k c Hk. cbn in Hk.
  apply lookup_singleton_Some in Hk. destruct Hk as [<- <-]. reflexivity.
Qed.

Lemma create_some_spec (cfg : CharacterMetadata.config) (h : heap) :
  pool_consistent h ->
  exists c h',
    CharacterMetadata.create (Some cfg) h = (Ok c, h')
    /\ pool_consistent h'
    /\ pool h' !! CharacterMetadata.hashCharacterMetadataConfig
                    (CharacterMetadata.merge_config cfg) = Some c
    /\ CharacterMetadata.hashCharacterMetadataConfig (config_of c)
       = CharacterMetadata.hashCharacterMetadataConfig (CharacterMetadata.merge_config cfg)
    /\ (forall k c0, pool h !! k = Some c0 -> pool h' !! k = Some c0)
    /\ (next_ref h <= next_ref h')%nat.
Proof.
  intros Hcons. cbn. unfold bind, pool_get.
  set (key := CharacterMetadata.hashCharacterMetadataConfig
                (CharacterMetadata.merge_config cfg)).
  destruct (pool h !! key) as [e |] eqn:Hget.
  - exists e, h. cbn. repeat split; try assumption; try lia.
    + exact (Hcons key e Hget).
    + intros k c0 Hk. exact Hk.
  - eexists. eexists. cbn. split; [reflexivity |]. cbn.
    assert (Hnew := hash_of_new cfg (next_ref h)). cbn zeta in Hnew. fold key in Hnew.
    repeat split.
    + intros k c Hk. cbn [pool] in Hk. destruct (decide (key = k)) as [<- | Hne].
      * rewrite lookup_insert_eq in Hk. injection Hk as <-. exact Hnew.
      * rewrite lookup_insert_ne in Hk by exact Hne. exact (Hcons k c Hk).
    + cbn [pool]. apply lookup_insert_eq.
    + exact Hnew.
    + intros k c0 Hk. cbn [pool]. destruct (decide (key = k)) as [<- | Hne]; [congruence |].
      rewrite lookup_insert_ne by exact Hne. exact Hk.
    + lia.
Qed.

(** X8: [CharacterMetadata.create] keeps the intern pool consistent and only
    lets it grow.  On a pool in which every object sits under the hash of
    its own configuration (as the pool of a freshly loaded module does),
    [create(config)] returns the object the pool then holds under the hash
    of [config]; the pool stays consistent, and no entry it had is replaced
    or removed. *)
Theorem create_keeps_pool_consistent (cfg : CharacterMetadata.config) (h : heap) :
  pool_consistent initial_heap
  /\ (pool_consistent h ->
      exists c h',
        CharacterMetadata.create (Some cfg) h = (Ok c, h')
        /\ pool_consistent h'
        /\ pool h' !! CharacterMetadata.hashCharacterMetadataConfig
                        (CharacterMetadata.merge_config cfg) = Some c
        /\ CharacterMetadata.hashCharacterMetadataConfig (config_of c)
           = CharacterMetadata.hashCharacterMetadataConfig
               (CharacterMetadata.merge_config cfg)
        /\ (forall k c0, pool h !! k = Some c0 -> pool h' !! k = Some c0)).
Proof.
  split; [exact initial_pool_consistent |].
  intros Hcons.
  destruct (create_some_spec cfg h Hcons) as (c & h' & H1 & H2 & H3 & H4 & H5 & _).
  exists c, h'. repeat split; assumption.
Qed.

Lemma create_keeps_pool_consistent_witness :
  exists c h',
    CharacterMetadata.create
      (Some (CharacterMetadata.mkConfig (Some ["BOLD"]) (Some (Some "x")))) initial_heap
    = (Ok c, h')
    /\ pool_consistent h'
    /\ pool h' !! CharacterMetadata.hashCharacterMetadataConfig
                    (CharacterMetadata.merge_config
                       (CharacterMetadata.mkConfig (Some ["BOLD"]) (Some (Some "x"))))
       = Some c
    /\ CharacterMetadata.hashCharacterMetadataConfig (config_of c)
       = CharacterMetadata.hashCharacterMetadataConfig
           (CharacterMetadata.merge_config
              (CharacterMetadata.mkConfig (Some ["BOLD"]) (Some (Some "x"))))
    /\ (forall k c0, pool initial_heap !! k = Some c0 -> pool h' !! k = Some c0).
Proof.
  apply (proj2 (create_keeps_pool_consistent
                  (CharacterMetadata.mkConfig (Some ["BOLD"]) (Some (Some "x")))
                  initial_heap)).
  exact initial_pool_consistent.
Defined.

(** X9: the pool key decides the object.  When two configurations have the
    same hash, [create] of the second returns the object [create] of the
    first returned, and leaves the heap as it is: also when their style sets
    or entities differ. *)
Theorem create_shares_by_hash (cfg1 cfg2 : CharacterMetadata.config)
    (h : heap) (c : CharacterMetadata.t) (h1 : heap) :
  CharacterMetadata.hashCharacterMetadataConfig (CharacterMetadata.merge_config cfg1)
  = CharacterMetadata.hashCharacterMetadataConfig (CharacterMetadata.merge_config cfg2) ->
  CharacterMetadata.create (Some cfg1) h = (Ok c, h1) ->
  CharacterMetadata.create (Some cfg2) h1 = (Ok c, h1).
Proof.
  intros Hhash. cbn. unfold bind, pool_get. rewrite <- Hhash.
  set (key := CharacterMetadata.hashCharacterMetadataConfig
                (CharacterMetadata.merge_config cfg1)).
  destruct (pool h !! key) as [e |] eqn:Hget; cbn.
  - intros Heq. injection Heq as <- <-. rewrite Hget. reflexivity.
  - intros Heq. injection Heq as <- <-. cbn. rewrite lookup_insert_eq. reflexivity.
Qed.

Lemma create_shares_by_hash_witness :
  exists c h1,
    CharacterMetadata.create
      (Some (CharacterMetadata.mkConfig (Some ["A"]) (Some (Some "B")))) initial_heap
    = (Ok c, h1)
    /\ CharacterMetadata.create
         (Some (CharacterMetadata.mkConfig (Some ["AB"]) (Some None))) h1
       = (Ok c, h1)
    /\ cm_style c = ["A"] /\ cm_entity c = Some "B".
Proof.
  eexists. eexists.
  split; [reflexivity |].
  split; [| split; reflexivity].
  apply (create_shares_by_hash
           (CharacterMetadata.mkConfig (Some ["A"]) (Some (Some "B")))
           (CharacterMetadata.mkConfig (Some ["AB"]) (Some None)) initial_heap);
    reflexivity.
Defined.

(** [CharacterMetadata.applyEntity] always allocates: it returns a new
    object with the entity key given and the style of the record, also when
    the record already has that entity; the pool is not touched. *)
Lemma applyEntity_always_new (record : CharacterMetadata.t)
    (entityKey : option string) (h : heap) :
  exists c,
    CharacterMetadata.applyEntity record entityKey h
    = (Ok c, mkHeap (S (next_ref h)) (pool h))
    /\ cm_self c = next_ref h
    /\ cm_entity c = entityKey
    /\ cm_style c = cm_style record.
Proof.
  unfold CharacterMetadata.applyEntity, CharacterMetadata.getEntity.
  destruct (decide (cm_entity record = entityKey)) as [<- | Hne];
    eexists; (split; [reflexivity |]); repeat split.
Qed.

Lemma createCharacterList_from_spec (inlineStyles : list DraftInlineStyle)
    (entities : list (option string)) :
  forall (ii : nat) (h : heap),
    pool_consistent h ->
    exists cs h',
      createCharacterList_from inlineStyles entities ii h = (Ok cs, h')
      /\ pool_consistent h'
      /\ List.length cs = List.length inlineStyles
      /\ (forall i style c,
             nth_error inlineStyles i = Some style ->
             nth_error cs i = Some c ->
             pool h' !! CharacterMetadata.hashCharacterMetadataConfig
                          {| CharacterMetadata.cfg_style := Some style;
                             CharacterMetadata.cfg_entity :=
                               Some (match nth_error entities (ii + i) with
                                     | Some e => e
                                     | None => None
                                     end) |}
             = Some c)
      /\ (forall k c0, pool h !! k = Some c0 -> pool h' !! k = Some c0).
Proof.
  induction inlineStyles as [| style rest IH]; intros ii h Hcons.
  - exists [], h. cbn. repeat split; try assumption.
    + intros i s c Hi. destruct i; discriminate.
    + intros k c0 Hk. exact Hk.
  - cbn [createCharacterList_from].
    set (cfg := {| CharacterMetadata.cfg_style := Some style;
                   CharacterMetadata.cfg_entity :=
                     Some (match nth_error entities ii with
                           | Some e => e
                           | None => None
                           end) |}).
    destruct (create_some_spec cfg h Hcons) as (c & h1 & Hc & Hcons1 & Hp1 & _ & Hgrow1 & _).
    destruct (IH (S ii) h1 Hcons1) as (cs & h2 & Hcs & Hcons2 & Hlen & Hall & Hgrow2).
    exists (c :: cs), h2. unfold bind. rewrite Hc, Hcs. cbn.
    split; [reflexivity |]. split; [exact Hcons2 |]. split; [lia |]. split.
    + intros i s c' Hi Hc'. destruct i as [| i]; cbn in Hi, Hc'.
      * injection Hi as <-. injection Hc' as <-. rewrite Nat.add_0_r.
        apply Hgrow2. exact Hp1.
      * replace (ii + S i)%nat with (S ii + i)%nat by lia.
        apply (Hall i s c' Hi Hc').
    + intros k c0 Hk. apply Hgrow2, Hgrow1. exact Hk.
Qed.

(** X10: [createCharacterList] returns one character per style set, whatever
    the number of entities (a missing entity reads as none, entities beyond
    the styles are ignored); on a consistent pool each character is the
    pooled object for its style set and entity, and the pool stays
    consistent. *)
Theorem createCharacterList_spec (inlineStyles : list DraftInlineStyle)
    (entities : list (option string)) (h : heap) :
  pool_consistent h ->
  exists cs h',
    createCharacterList inlineStyles entities h = (Ok cs, h')
    /\ pool_consistent h'
    /\ List.length cs = List.length inlineStyles
    /\ (forall i style c,
           nth_error inlineStyles i = Some style ->
           nth_error cs i = Some c ->
           pool h' !! CharacterMetadata.hashCharacterMetadataConfig
                        {| CharacterMetadata.cfg_style := Some style;
                           CharacterMetadata.cfg_entity :=
                             Some (match nth_error entities i with
                                   | Some e => e
                                   | None => None
                                   end) |}
           = Some c).
Proof.
  intros Hcons.
  destruct (createCharacterList_from_spec inlineStyles entities 0 h Hcons)
    as (cs & h' & H1 & H2 & H3 & H4 & _).
  exists cs, h'. repeat split; assumption.
Qed.

Lemma createCharacterList_spec_witness :
  exists cs h',
    createCharacterList [["BOLD"]; []; ["BOLD"]] [Some "x"] initial_heap = (Ok cs, h')
    /\ pool_consistent h'
    /\ List.length cs = 3%nat.
Proof.
  destruct (createCharacterList_spec [["BOLD"]; []; ["BOLD"]] [Some "x"] initial_heap
              initial_pool_consistent) as (cs & h' & H1 & H2 & H3 & _).
  exists cs, h'. repeat split; assumption.
Defined.

(** ** Theorems: applyEntityToContentBlock *)

Lemma nth_error_Array_set {A : Type} (l : list A) (i : nat) (x : A) (j : nat) :
  (i < List.length l)%nat ->
  nth_error (Array_set l (Z.of_nat i) x) j = if decide (i = j) then Some x else nth_error l j.
Proof.
  unfold Array_set. rewrite Nat2Z.id. revert i j.
  induction l as [| y l IH]; intros i j Hlt; cbn in Hlt; [lia |].
  destruct i as [| i]; destruct j as [| j]; cbn; try reflexivity.
  rewrite IH by lia.
  destruct (decide (i = j)), (decide (S i = S j)); try reflexivity; lia.
Qed.

Lemma length_Array_set {A : Type} (l : list A) (i : Z) (x : A) :
  List.length (Array_set l i x) = List.length l.
Proof. unfold Array_set. apply length_insert. Qed.

Lemma applyEntity_fresh (record : CharacterMetadata.t) (entityKey : option string)
    (h : heap) :
  exists c,
    CharacterMetadata.applyEntity record entityKey h
    = (Ok c, mkHeap (S (next_ref h)) (pool h))
    /\ cm_self c = next_ref h
    /\ cm_entity c = entityKey
    /\ cm_style c = cm_style record.
Proof.
  unfold CharacterMetadata.applyEntity, CharacterMetadata.getEntity.
  destruct (decide (cm_entity record = entityKey)) as [<- | Hne];
    eexists; (split; [reflexivity |]); repeat split.
Qed.

Lemma applyEntity_loop_in_range (n : nat) :
  forall (chars : list CharacterMetadata.t) (start : nat) (entityKey : option string)
         (h : heap),
    (start + n <= List.length chars)%nat ->
    exists chars',
      applyEntity_loop n chars (Z.of_nat start) entityKey h
      = (Ok chars', mkHeap (next_ref h + n)%nat (pool h))
      /\ List.length chars' = List.length chars
      /\ (forall i c, (start <= i)%nat -> (i < start + n)%nat ->
                      nth_error chars i = Some c ->
                      exists c', nth_error chars' i = Some c'
                                 /\ cm_entity c' = entityKey
                                 /\ cm_style c' = cm_style c)
      /\ (forall i, (i < start)%nat \/ (start + n <= i)%nat ->
                    nth_error chars' i = nth_error chars i).
Proof.
  induction n as [| n IH]; intros chars start entityKey h Hle.
  - exists chars. cbn. rewrite Nat.add_0_r. destruct h. repeat split.
    intros i c Hs He. lia.
  - cbn [applyEntity_loop]. rewrite Array_get_of_nat.
    destruct (nth_error chars start) as [current |] eqn:Hcur;
      [| apply nth_error_None in Hcur; lia].
    destruct (applyEntity_fresh current entityKey h) as (u & Hu & _ & Hue & Hus).
    unfold bind. rewrite Hu.
    replace (Z.of_nat start + 1) with (Z.of_nat (S start)) by lia.
    destruct (IH (Array_set chars (Z.of_nat start) u) (S start) entityKey
                (mkHeap (S (next_ref h)) (pool h)))
      as (chars' & Hrun & Hlen & Hin & Hout).
    { rewrite length_Array_set. lia. }
    exists chars'. rewrite Hrun. cbn [next_ref pool].
    replace (S (next_ref h) + n)%nat with (next_ref h + S n)%nat by lia.
    split; [reflexivity |].
    split; [rewrite Hlen; apply length_Array_set |].
    split.
    + intros i c Hs He Hc.
      destruct (Nat.eq_dec i start) as [-> | Hne].
      * exists u. rewrite (Hout start) by lia.
        rewrite nth_error_Array_set by lia.
        destruct (decide (start = start)); [| congruence].
        rewrite Hcur in Hc. injection Hc as <-. repeat split; assumption.
      * apply (Hin i c); [lia | lia |].
        rewrite nth_error_Array_set by lia.
        destruct (decide (start = i)); [lia | exact Hc].
    + intros i Hi. rewrite (Hout i) by lia.
      rewrite nth_error_Array_set by lia.
      destruct (decide (start = i)); [lia | reflexivity].
Qed.

Lemma applyEntity_loop_out_of_range (n : nat) :
  forall (chars : list CharacterMetadata.t) (start : Z) (entityKey : option string)
         (h : heap),
    (0 < n)%nat ->
    start < 0 \/ Z.of_nat (List.length chars) < start + Z.of_nat n ->
    exists h', applyEntity_loop n chars start entityKey h = (Throw TypeError, h').
Proof.
  induction n as [| n IH]; intros chars start entityKey h Hpos Hout; [lia |].
  cbn [applyEntity_loop].
  destruct (Array_get chars start) as [current |] eqn:Hcur.
  - unfold Array_get in Hcur. destruct (Z.ltb_spec start 0); [discriminate |].
    assert (Hlt : (Z.to_nat start < List.length chars)%nat)
      by (apply nth_error_Some; congruence).
    destruct (applyEntity_fresh current entityKey h) as (u & Hu & _).
    unfold bind. rewrite Hu.
    apply IH; [lia |]. right. rewrite length_Array_set. lia.
  - eexists. reflexivity.
Qed.

(** X11: [applyEntityToContentBlock(block, start, end, key)] with
    0 <= start <= end <= length gives every character at an offset in
    [start, end) the entity key, keeping its style, and leaves the other
    characters (the same objects), the text, key, type, depth and data as
    they are.  With start < end and start negative or end beyond the
    characters it throws a TypeError. *)
Theorem applyEntityToContentBlock_spec (b : ContentBlock.t) (start end_ : Z)
    (entityKey : option string) (h : heap) :
  (0 <= start <= end_ ->
   end_ <= Z.of_nat (List.length (ContentBlock.characterList b)) ->
   exists b' h',
     applyEntityToContentBlock (Some b) start end_ entityKey h = (Ok b', h')
     /\ ContentBlock.key b' = ContentBlock.key b
     /\ ContentBlock.text b' = ContentBlock.text b
     /\ ContentBlock.type b' = ContentBlock.type b
     /\ ContentBlock.depth b' = ContentBlock.depth b
     /\ ContentBlock.data b' = ContentBlock.data b
     /\ List.length (ContentBlock.characterList b')
        = List.length (ContentBlock.characterList b)
     /\ (forall i c, start <= Z.of_nat i < end_ ->
                     nth_error (ContentBlock.characterList b) i = Some c ->
                     exists c', nth_error (ContentBlock.characterList b') i = Some c'
                                /\ cm_entity c' = entityKey
                                /\ cm_style c' = cm_style c)
     /\ (forall i, Z.of_nat i < start \/ end_ <= Z.of_nat i ->
                   nth_error (ContentBlock.characterList b') i
                   = nth_error (ContentBlock.characterList b) i))
  /\ (start < end_ ->
      start < 0 \/ Z.of_nat (List.length (ContentBlock.characterList b)) < end_ ->
      exists h', applyEntityToContentBlock (Some b) start end_ entityKey h
                 = (Throw TypeError, h')).
Proof.
  split.
  - intros Hse Hlen. unfold applyEntityToContentBlock, ContentBlock.getCharacterList.
    destruct (applyEntity_loop_in_range (Z.to_nat (end_ - start))
                (ContentBlock.characterList b) (Z.to_nat start) entityKey h)
      as (chars' & Hrun & Hl & Hin & Hout); [lia |].
    rewrite Z2Nat.id in Hrun by lia.
    unfold bind. rewrite Hrun. cbn.
    eexists. eexists. split; [reflexivity |]. cbn.
    repeat split; try assumption.
    + intros i c Hi Hc. apply (Hin i c); [lia | lia | exact Hc].
    + intros i Hi. apply Hout. lia.
  - intros Hlt Hout. unfold applyEntityToContentBlock, ContentBlock.getCharacterList.
    destruct (applyEntity_loop_out_of_range (Z.to_nat (end_ - start))
                (ContentBlock.characterList b) start entityKey h)
      as (h' & Hrun); [lia | |].
    + destruct Hout as [Hneg | Hbig]; [left; exact Hneg | right; lia].
    + exists h'. unfold bind. rewrite Hrun. reflexivity.
Qed.

Lemma applyEntityToContentBlock_spec_witness :
  exists b' h',
    applyEntityToContentBlock (Some sample_blockA) 1 3 (Some "1") sample_heap = (Ok b', h')
    /\ ContentBlock.text b' = "Alpha"
    /\ List.length (ContentBlock.characterList b') = 5%nat.
Proof.
  destruct (proj1 (applyEntityToContentBlock_spec sample_blockA 1 3 (Some "1") sample_heap))
    as (b' & h' & H1 & _ & H2 & _ & _ & _ & H3 & _); [lia | cbn; lia |].
  exists b', h'. repeat split; assumption.
Defined.

(** ** Theorems: the operation of modifyInlineStyle *)

Lemma modifyStyle_loop_in_range (n : nat) :
  forall (chars : list CharacterMetadata.t) (start : nat) (inlineStyle : string)
         (addOrRemove : bool) (h : heap),
    (start + n <= List.length chars)%nat ->
    exists chars',
      modifyStyle_loop n chars (Z.of_nat start) inlineStyle addOrRemove h
      = (Ok chars', mkHeap (next_ref h + n)%nat (pool h))
      /\ List.length chars' = List.length chars
      /\ (forall i c, (start <= i)%nat -> (i < start + n)%nat ->
                      nth_error chars i = Some c ->
                      exists c', nth_error chars' i = Some c'
                                 /\ cm_entity c' = cm_entity c
                                 /\ cm_style c'
                                    = if addOrRemove then Set_add (cm_style c) inlineStyle
                                      else Set_delete (cm_style c) inlineStyle)
      /\ (forall i, (i < start)%nat \/ (start + n <= i)%nat ->
                    nth_error chars' i = nth_error chars i).
Proof.
  induction n as [| n IH]; intros chars start inlineStyle addOrRemove h Hle.
  - exists chars. cbn. rewrite Nat.add_0_r. destruct h. repeat split.
    intros i c Hs He. lia.
  - cbn [modifyStyle_loop]. rewrite Array_get_of_nat.
    destruct (nth_error chars start) as [current |] eqn:Hcur;
      [| apply nth_error_None in Hcur; lia].
    set (u := {| cm_self := next_ref h;
                 cm_style := if addOrRemove then Set_add (cm_style current) inlineStyle
                             else Set_delete (cm_style current) inlineStyle;
                 cm_entity := cm_entity current |}).
    assert (Hu : (if addOrRemove
                  then CharacterMetadata.applyStyle current inlineStyle
                  else CharacterMetadata.removeStyle current inlineStyle) h
                 = (Ok u, mkHeap (S (next_ref h)) (pool h)))
      by (destruct addOrRemove; reflexivity).
    unfold bind. rewrite Hu.
    replace (Z.of_nat start + 1) with (Z.of_nat (S start)) by lia.
    destruct (IH (Array_set chars (Z.of_nat start) u) (S start) inlineStyle addOrRemove
                (mkHeap (S (next_ref h)) (pool h)))
      as (chars' & Hrun & Hlen & Hin & Hout).
    { rewrite length_Array_set. lia. }
    exists chars'. rewrite Hrun. cbn [next_ref pool].
    replace (S (next_ref h) + n)%nat with (next_ref h + S n)%nat by lia.
    split; [reflexivity |].
    split; [rewrite Hlen; apply length_Array_set |].
    split.
    + intros i c Hs He Hc.
      destruct (Nat.eq_dec i start) as [-> | Hne].
      * exists u. rewrite (Hout start) by lia.
        rewrite nth_error_Array_set by lia.
        destruct (decide (start = start)); [| congruence].
        rewrite Hcur in Hc. injection Hc as <-. repeat split.
      * apply (Hin i c); [lia | lia |].
        rewrite nth_error_Array_set by lia.
        destruct (decide (start = i)); [lia | exact Hc].
    + intros i Hi. rewrite (Hout i) by lia.
      rewrite nth_error_Array_set by lia.
      destruct (decide (start = i)); [lia | reflexivity].
Qed.

(** X12: the operation of [modifyInlineStyle], called as
    [modifyBlockForContentState] calls it (with the block and no key).  When
    the start key and the end key of the selection differ it adds the style
    to (or removes it from) every character of the block, whatever the
    offsets of the selection, keeping entities; when they are equal it does
    so for the offsets of the selection only, provided they lie inside the
    block. *)
Theorem modifyInlineStyle_operation_spec (startKey endKey : string)
    (startOffset endOffset : Z) (inlineStyle : string) (addOrRemove : bool)
    (b : ContentBlock.t) (h : heap) :
  let restyled (c c' : CharacterMetadata.t) : Prop :=
    cm_entity c' = cm_entity c
    /\ cm_style c' = if addOrRemove then Set_add (cm_style c) inlineStyle
                     else Set_delete (cm_style c) inlineStyle in
  List.length (ContentBlock.characterList b) = String.length (ContentBlock.text b) ->
  (startKey <> endKey ->
   exists b' h',
     modifyInlineStyle_operation startKey endKey startOffset endOffset inlineStyle
       addOrRemove (Some b) None h = (Ok b', h')
     /\ ContentBlock.text b' = ContentBlock.text b
     /\ forall i c, nth_error (ContentBlock.characterList b) i = Some c ->
                    exists c', nth_error (ContentBlock.characterList b') i = Some c'
                               /\ restyled c c')
  /\ (startKey = endKey ->
      0 <= startOffset <= endOffset ->
      endOffset <= Z.of_nat (List.length (ContentBlock.characterList b)) ->
      exists b' h',
        modifyInlineStyle_operation startKey endKey startOffset endOffset inlineStyle
          addOrRemove (Some b) None h = (Ok b', h')
        /\ ContentBlock.text b' = ContentBlock.text b
        /\ (forall i c, startOffset <= Z.of_nat i < endOffset ->
                        nth_error (ContentBlock.characterList b) i = Some c ->
                        exists c', nth_error (ContentBlock.characterList b') i = Some c'
                                   /\ restyled c c')
        /\ (forall i, Z.of_nat i < startOffset \/ endOffset <= Z.of_nat i ->
                      nth_error (ContentBlock.characterList b') i
                      = nth_error (ContentBlock.characterList b) i)).
Proof.
  intros restyled Hchars. split.
  - intros Hne. unfold modifyInlineStyle_operation.
    rewrite (proj2 (String.eqb_neq startKey endKey) Hne).
    unfold key_is. rewrite !bool_decide_eq_false_2 by discriminate.
    unfold bind at 1. cbn [ret fst snd].
    unfold ContentBlock.getLength, ContentBlock.getText, ContentBlock.getCharacterList.
    rewrite Z.sub_0_r, Nat2Z.id, <- Hchars.
    destruct (modifyStyle_loop_in_range (List.length (ContentBlock.characterList b))
                (ContentBlock.characterList b) 0 inlineStyle addOrRemove h)
      as (chars' & Hrun & _ & Hin & _); [lia |].
    change (Z.of_nat 0) with 0 in Hrun. unfold bind. rewrite Hrun. cbn.
    eexists. eexists. split; [reflexivity |]. cbn. split; [reflexivity |].
    intros i c Hc. apply (Hin i c); [lia | | exact Hc].
    apply nth_error_Some. rewrite Hc. discriminate.
  - intros Heq Hse Hlen. unfold modifyInlineStyle_operation.
    rewrite (proj2 (String.eqb_eq startKey endKey) Heq).
    unfold bind at 1. cbn [ret fst snd]. unfold ContentBlock.getCharacterList.
    destruct (modifyStyle_loop_in_range (Z.to_nat (endOffset - startOffset))
                (ContentBlock.characterList b) (Z.to_nat startOffset) inlineStyle
                addOrRemove h)
      as (chars' & Hrun & _ & Hin & Hout); [lia |].
    rewrite Z2Nat.id in Hrun by lia. unfold bind. rewrite Hrun. cbn.
    eexists. eexists. split; [reflexivity |]. cbn. split; [reflexivity |]. split.
    + intros i c Hi Hc. apply (Hin i c); [lia | lia | exact Hc].
    + intros i Hi. apply Hout. lia.
Qed.

Lemma modifyInlineStyle_operation_spec_witness :
  exists b' h',
    modifyInlineStyle_operation "a" "b" 1 3 "BOLD" true (Some sample_blockB) None
      sample_heap = (Ok b', h')
    /\ ContentBlock.text b' = "Bravo".
Proof.
  destruct (proj1 (modifyInlineStyle_operation_spec "a" "b" 1 3 "BOLD" true
                     sample_blockB sample_heap eq_refl))
    as (b' & h' & H1 & H2 & _); [discriminate |].
  exists b', h'. split; assumption.
Defined.

(** ** Theorems: the blocks modifyBlockForContentState rewrites *)

Lemma modifyBlock_entries_done
    (operation : option ContentBlock.t -> M ContentBlock.t) (startKey endKey : string)
    (entries : BlockMap) (h : heap) :
  modifyBlock_entries operation startKey endKey 2 entries h = (Ok [], h).
Proof.
  induction entries as [| e rest IH]; cbn; [reflexivity | exact IH].
Qed.

Lemma modifyBlock_entries_taking
    (operation : option ContentBlock.t -> M ContentBlock.t) (startKey endKey : string)
    (entries : BlockMap) :
  forall h : heap,
    modifyBlock_entries operation startKey endKey 1 entries h
    = operate operation (entries_through endKey entries) h.
Proof.
  induction entries as [| e rest IH]; intros h; cbn; [reflexivity |].
  destruct (key_is (fst e) endKey); cbn; unfold bind;
    destruct (operation (snd e) h) as [[b | ex] h1]; try reflexivity.
  - rewrite modifyBlock_entries_done. reflexivity.
  - rewrite IH. reflexivity.
Qed.

Lemma modifyBlock_entries_range
    (operation : option ContentBlock.t -> M ContentBlock.t) (startKey endKey : string)
    (entries : BlockMap) :
  forall h : heap,
    modifyBlock_entries operation startKey endKey 0 entries h
    = operate operation (entries_through endKey (entries_after startKey entries)) h.
Proof.
  induction entries as [| e rest IH]; intros h; cbn; [reflexivity |].
  destruct (key_is (fst e) startKey); cbn.
  - apply modifyBlock_entries_taking.
  - apply IH.
Qed.

(** X13: [modifyBlockForContentState] calls the operation, in document
    order, on the blocks that follow the first block with the start key, up
    to and including the first of them with the end key (on all of them when
    none has the end key), and on no other; the rewritten blocks replace the
    old ones under their keys, and both selections of the result are the
    selection given. *)
Theorem modifyBlockForContentState_range (c : ContentState.t) (sel : SelectionState.t)
    (operation : option ContentBlock.t -> M ContentBlock.t) (h : heap) :
  modifyBlockForContentState c sel operation h
  = (let* updated :=
       operate operation
         (entries_through (SelectionState.getEndKey sel)
            (entries_after (SelectionState.getStartKey sel) (ContentState.blockMap c))) in
     ContentState.set c
       {| ContentState.put_blockMap :=
            Some (Map_of_entries (ContentState.blockMap c ++ updated)%list);
          ContentState.put_entityMap := None;
          ContentState.put_selectionBefore := Some (Some sel);
          ContentState.put_selectionAfter := Some (Some sel) |}) h.
Proof.
  unfold modifyBlockForContentState, bind, ContentState.getBlockMap.
  rewrite modifyBlock_entries_range. reflexivity.
Qed.

(** ** Theorems: adjustBlockDepthForContentState *)

Section MapLemmas2.
Context {K V : Type} `{EqDecision K}.

Lemma Map_get_In (m : list (K * V)) (k : K) (v : V) :
  List.NoDup (Map_keys m) -> List.In (k, v) m -> Map_get m k = Some v.
Proof.
  induction m as [| [k0 v0] rest IH]; intros Hnd Hin; [destruct Hin |].
  cbn in Hnd. inversion Hnd as [| ? ? Hnotin Hnd']; subst. cbn.
  destruct Hin as [Heq | Hin].
  - injection Heq as -> ->. destruct (decide (k = k)); [reflexivity | congruence].
  - destruct (decide (k0 = k)) as [-> | _]; [| apply IH; assumption].
    exfalso. apply Hnotin. change k with (fst (k, v)). apply in_map. exact Hin.
Qed.

Lemma Map_get_fold_In (updated m : list (K * V)) (k : K) (v : V) :
  List.NoDup (Map_keys updated) -> List.In (k, v) updated ->
  Map_get (fold_left (fun acc e => Map_set acc (fst e) (snd e)) updated m) k = Some v.
Proof.
  revert m. induction updated as [| [k0 v0] rest IH]; intros m Hnd Hin; [destruct Hin |].
  cbn in Hnd. inversion Hnd as [| ? ? Hnotin Hnd']; subst. cbn.
  destruct Hin as [Heq | Hin].
  - injection Heq as -> ->. rewrite Map_get_fold_other.
    + rewrite Map_get_set. destruct (decide (k = k)); [reflexivity | congruence].
    + intros e He Hk. apply Hnotin. rewrite <- Hk. apply in_map. exact He.
  - apply IH; assumption.
Qed.

Lemma Map_keys_set_present (m : list (K * V)) (k : K) (v : V) :
  List.In k (Map_keys m) -> Map_keys (Map_set m k v) = Map_keys m.
Proof.
  induction m as [| [k0 v0] rest IH]; cbn; intros Hin; [destruct Hin |].
  destruct (decide (k0 = k)) as [-> | Hne]; cbn; [reflexivity |].
  f_equal. apply IH. destruct Hin as [Heq | Hin]; [congruence | exact Hin].
Qed.

Lemma Map_keys_fold_present (updated m : list (K * V)) :
  (forall e, List.In e updated -> List.In (fst e) (Map_keys m)) ->
  Map_keys (fold_left (fun acc e => Map_set acc (fst e) (snd e)) updated m) = Map_keys m.
Proof.
  revert m. induction updated as [| e rest IH]; intros m Hall; cbn [fold_left];
    [reflexivity |].
  rewrite IH.
  - apply Map_keys_set_present. apply Hall. left. reflexivity.
  - intros e' He'. rewrite Map_keys_set_present by (apply Hall; left; reflexivity).
    apply Hall. right. exact He'.
Qed.

End MapLemmas2.

Lemma entries_after_suffix (key : string) (entries : BlockMap) :
  exists pre, entries = (pre ++ entries_after key entries)%list.
Proof.
  induction entries as [| e rest [pre IH]]; cbn; [exists []; reflexivity |].
  destruct (key_is (fst e) key).
  - exists [e]. reflexivity.
  - exists (e :: pre). cbn. rewrite <- IH. reflexivity.
Qed.

Lemma entries_through_prefix (key : string) (entries : BlockMap) :
  exists post, entries = (entries_through key entries ++ post)%list.
Proof.
  induction entries as [| e rest [post IH]]; cbn; [exists []; reflexivity |].
  destruct (key_is (fst e) key).
  - exists rest. reflexivity.
  - exists post. cbn. rewrite <- IH. reflexivity.
Qed.

(** The blocks between the start and the end key are a segment of the block
    map. *)
Lemma selected_entries_segment (startKey endKey : string) (entries : BlockMap) :
  exists pre post,
    entries
    = (pre ++ entries_through endKey (entries_after startKey entries) ++ post)%list.
Proof.
  destruct (entries_after_suffix startKey entries) as [pre Hpre].
  destruct (entries_through_prefix endKey (entries_after startKey entries)) as [post Hpost].
  exists pre, post. rewrite <- Hpost. exact Hpre.
Qed.

Lemma segment_keys_unique (pre mid post : BlockMap) :
  List.NoDup (Map_keys (pre ++ mid ++ post)) -> List.NoDup (Map_keys mid).
Proof.
  unfold Map_keys. rewrite !map_app. intros Hnd.
  apply NoDup_app_remove_l in Hnd. apply NoDup_app_remove_r in Hnd. exact Hnd.
Qed.

Lemma Forall2_keys (entries updated : BlockMap)
    (R : option string * option ContentBlock.t ->
         option string * option ContentBlock.t -> Prop) :
  (forall e u, R e u -> fst u = fst e) ->
  Forall2 R entries updated -> Map_keys updated = Map_keys entries.
Proof.
  intros HR Hall. unfold Map_keys.
  induction Hall as [| e u es us Heu _ IH]; cbn [map]; [reflexivity |].
  rewrite (HR e u Heu), IH. reflexivity.
Qed.

Lemma Forall2_In_r (entries updated : BlockMap)
    (R : option string * option ContentBlock.t ->
         option string * option ContentBlock.t -> Prop) (u : option string * option ContentBlock.t) :
  Forall2 R entries updated -> List.In u updated ->
  exists e, List.In e entries /\ R e u.
Proof.
  intros Hall. induction Hall as [| e u' es us Heu _ IH]; intros Hin; [destruct Hin |].
  destruct Hin as [<- | Hin].
  - exists e. split; [left; reflexivity | exact Heu].
  - destruct (IH Hin) as (e0 & He0 & HR). exists e0. split; [right; exact He0 | exact HR].
Qed.

Lemma Forall2_In_l (entries updated : BlockMap)
    (R : option string * option ContentBlock.t ->
         option string * option ContentBlock.t -> Prop) (e : option string * option ContentBlock.t) :
  Forall2 R entries updated -> List.In e entries ->
  exists u, List.In u updated /\ R e u.
Proof.
  intros Hall. induction Hall as [| e' u es us Heu _ IH]; intros Hin; [destruct Hin |].
  destruct Hin as [<- | Hin].
  - exists u. split; [left; reflexivity | exact Heu].
  - destruct (IH Hin) as (u0 & Hu0 & HR). exists u0. split; [right; exact Hu0 | exact HR].
Qed.

(** What an operation that relates each block to its result does to the
    selected entries. *)
Lemma operate_related (R : ContentBlock.t -> ContentBlock.t -> Prop)
    (operation : option ContentBlock.t -> M ContentBlock.t) :
  (forall block h0 b' h1,
      operation block h0 = (Ok b', h1) -> exists b, block = Some b /\ R b b') ->
  forall (entries : BlockMap) (h : heap) (updated : BlockMap) (h' : heap),
    operate operation entries h = (Ok updated, h') ->
    Forall2 (fun e u =>
               fst u = fst e
               /\ exists b b', snd e = Some b /\ snd u = Some b' /\ R b b')
            entries updated.
Proof.
  intros Hop. induction entries as [| e rest IH]; intros h updated h' Hrun.
  - cbn in Hrun. injection Hrun as <- _. constructor.
  - cbn in Hrun. unfold bind in Hrun.
    destruct (operation (snd e) h) as [[b' | ex] h1] eqn:Hb; [| discriminate].
    destruct (operate _ rest _) as [[more | ex] h2] eqn:Hmore; [| discriminate].
    cbn in Hrun. injection Hrun as <- _. constructor.
    + split; [reflexivity |]. destruct (Hop _ _ _ _ Hb) as (b & Hsome & HR).
      exists b, b'. split; [exact Hsome |]. split; [reflexivity | exact HR].
    + eapply IH. exact Hmore.
Qed.

(** [modifyBlockForContentState] on a block map with unique keys, with an
    operation that relates each block to its result by [R]: the keys stay,
    every block stays or is related to the old one, the selected blocks are
    related to the old ones, and the block of the start key stays. *)
Lemma modifyBlock_pointwise (R : ContentBlock.t -> ContentBlock.t -> Prop)
    (operation : option ContentBlock.t -> M ContentBlock.t)
    (c : ContentState.t) (sel : SelectionState.t)
    (h : heap) (c' : ContentState.t) (h' : heap) :
  (forall block h0 b' h1,
      operation block h0 = (Ok b', h1) -> exists b, block = Some b /\ R b b') ->
  List.NoDup (Map_keys (ContentState.blockMap c)) ->
  modifyBlockForContentState c sel operation h = (Ok c', h') ->
  Map_keys (ContentState.blockMap c') = Map_keys (ContentState.blockMap c)
  /\ (forall k b',
         BlockMap_get (ContentState.blockMap c') k = Some b' ->
         exists b,
           BlockMap_get (ContentState.blockMap c) k = Some b
           /\ (b' = b \/ R b b'))
  /\ (forall k b,
         List.In (Some k, Some b)
           (entries_through (SelectionState.getEndKey sel)
              (entries_after (SelectionState.getStartKey sel) (ContentState.blockMap c))) ->
         exists b',
           BlockMap_get (ContentState.blockMap c') k = Some b' /\ R b b')
  /\ BlockMap_get (ContentState.blockMap c') (SelectionState.getStartKey sel)
     = BlockMap_get (ContentState.blockMap c) (SelectionState.getStartKey sel).
Proof.
  intros HopR Hnd Hrun.
  assert (Hstart := proj1 (modifyBlock_keeps_start_block c sel _ h c' h' Hnd Hrun)).
  unfold modifyBlockForContentState, ContentState.getBlockMap in Hrun.
  unfold bind in Hrun. rewrite modifyBlock_entries_range in Hrun.
  set (selected := entries_through (SelectionState.getEndKey sel)
                     (entries_after (SelectionState.getStartKey sel)
                        (ContentState.blockMap c))) in *.
  destruct (operate _ selected h) as [[updated | ex] h1] eqn:Hop; [| discriminate].
  cbn in Hrun. injection Hrun as <- _. cbn [ContentState.blockMap].
  pose proof (operate_related R operation HopR _ _ _ _ Hop) as Hall.
  assert (Hkeys : Map_keys updated = Map_keys selected)
    by (eapply Forall2_keys; [| exact Hall]; intros e u [Hk _]; exact Hk).
  destruct (selected_entries_segment (SelectionState.getStartKey sel)
              (SelectionState.getEndKey sel) (ContentState.blockMap c))
    as (pre & post & Hseg). fold selected in Hseg.
  assert (Hsel_in : forall e, List.In e selected -> List.In e (ContentState.blockMap c)).
  { intros e He. rewrite Hseg. apply in_or_app. right. apply in_or_app. left. exact He. }
  assert (Hnd_sel : List.NoDup (Map_keys selected))
    by (apply (segment_keys_unique pre selected post); rewrite <- Hseg; exact Hnd).
  assert (Hnd_upd : List.NoDup (Map_keys updated)) by (rewrite Hkeys; exact Hnd_sel).
  rewrite Map_of_entries_app, (Map_of_entries_unique _ Hnd).
  split; [| split; [| split]].
  - apply Map_keys_fold_present. intros u Hu.
    destruct (Forall2_In_r _ _ _ u Hall Hu) as (e & He & Hk & _).
    rewrite Hk. unfold Map_keys. apply in_map. apply Hsel_in. exact He.
  - intros k b' Hget. unfold BlockMap_get in *.
    destruct (in_dec (decide_rel eq) (Some k) (Map_keys updated)) as [Hin | Hnot].
    + unfold Map_keys in Hin. apply in_map_iff in Hin. destruct Hin as ([k0 v0] & Hk0 & Hu).
      cbn in Hk0. subst k0.
      rewrite (Map_get_fold_In updated _ (Some k) v0 Hnd_upd Hu) in Hget.
      destruct (Forall2_In_r _ _ _ _ Hall Hu) as (e & He & Hk & b & b0 & Hb & Hb0 & Hadj).
      cbn in Hk, Hb0. subst v0. injection Hget as <-.
      exists b. split; [| right; exact Hadj].
      destruct e as [ke ve]. cbn in Hk, Hb. subst ke ve.
      rewrite (Map_get_In _ (Some k) (Some b) Hnd (Hsel_in _ He)). reflexivity.
    + rewrite Map_get_fold_other in Hget.
      * destruct (Map_get (ContentState.blockMap c) (Some k)) as [[b |] |];
          try discriminate.
        exists b. split; [reflexivity | left; congruence].
      * intros e He Hk. apply Hnot. rewrite <- Hk. unfold Map_keys. apply in_map. exact He.
  - intros k b Hin.
    destruct (Forall2_In_l _ _ _ _ Hall Hin) as ([ku vu] & Hu & Hk & b0 & b' & Hb & Hb' & Hadj).
    cbn in Hk, Hb, Hb'. subst ku vu. injection Hb as <-.
    exists b'. split; [| exact Hadj].
    unfold BlockMap_get. rewrite (Map_get_fold_In updated _ (Some k) (Some b') Hnd_upd Hu).
    reflexivity.
  - rewrite <- Hstart. cbn [ContentState.blockMap].
    rewrite Map_of_entries_app, (Map_of_entries_unique _ Hnd). reflexivity.
Qed.

Lemma adjustBlockDepth_operation_related (adjustment maxDepth : Z) :
  forall block h0 b' h1,
    adjustBlockDepth_operation adjustment maxDepth block h0 = (Ok b', h1) ->
    exists b, block = Some b /\ depth_adjusted adjustment maxDepth b b'.
Proof.
  intros [b |] h0 b' h1 Hrun; cbn in Hrun; [| discriminate].
  injection Hrun as <- _. exists b. split; [reflexivity |]. repeat split.
Qed.

(** X14: [adjustBlockDepthForContentState] on a block map with unique keys.
    When it returns, the keys and their order are as before; every block
    keeps its key, type, text, characters and data, and its depth either
    stays or becomes max(0, min(depth + adjustment, maxDepth)); the blocks
    that follow the start block up to the end block get that clamped depth;
    the block of the start key keeps its depth. *)
Theorem adjustBlockDepth_spec (c : ContentState.t) (sel : SelectionState.t)
    (adjustment maxDepth : Z) (h : heap) (c' : ContentState.t) (h' : heap) :
  List.NoDup (Map_keys (ContentState.blockMap c)) ->
  adjustBlockDepthForContentState c sel adjustment maxDepth h = (Ok c', h') ->
  Map_keys (ContentState.blockMap c') = Map_keys (ContentState.blockMap c)
  /\ (forall k b',
         BlockMap_get (ContentState.blockMap c') k = Some b' ->
         exists b,
           BlockMap_get (ContentState.blockMap c) k = Some b
           /\ (b' = b \/ depth_adjusted adjustment maxDepth b b'))
  /\ (forall k b,
         List.In (Some k, Some b)
           (entries_through (SelectionState.getEndKey sel)
              (entries_after (SelectionState.getStartKey sel) (ContentState.blockMap c))) ->
         exists b',
           BlockMap_get (ContentState.blockMap c') k = Some b'
           /\ depth_adjusted adjustment maxDepth b b')
  /\ BlockMap_get (ContentState.blockMap c') (SelectionState.getStartKey sel)
     = BlockMap_get (ContentState.blockMap c) (SelectionState.getStartKey sel).
Proof.
  intros Hnd Hrun.
  exact (modifyBlock_pointwise (depth_adjusted adjustment maxDepth) _ c sel h c' h'
           (adjustBlockDepth_operation_related adjustment maxDepth) Hnd Hrun).
Qed.

Lemma adjustBlockDepth_spec_witness :
  exists c' h',
    adjustBlockDepthForContentState sample_content (cursor 30%nat "a" 0) 1 4 sample_heap
    = (Ok c', h')
    /\ Map_keys (ContentState.blockMap c') = Map_keys (ContentState.blockMap sample_content).
Proof.
  destruct (adjustBlockDepthForContentState sample_content (cursor 30%nat "a" 0) 1 4
              sample_heap) as [[c' | e] h'] eqn:Hrun.
  - exists c', h'. split; [reflexivity |].
    apply (adjustBlockDepth_spec _ _ _ _ _ _ _ sample_keys_unique Hrun).
  - vm_compute in Hrun. discriminate.
Defined.

(** ** Theorems: slices of strings and arrays *)


Lemma slice_index_zero (len : Z) : 0 <= len -> slice_index len 0 = 0%nat.
Proof. intros Hlen. unfold slice_index. cbn. lia. Qed.

Lemma slice_index_len (len : Z) : 0 <= len -> slice_index len len = Z.to_nat len.
Proof.
  intros Hlen. unfold slice_index. destruct (Z.ltb_spec len 0); [lia |].
  rewrite Z.min_id. reflexivity.
Qed.






(** ** Theorems: splitBlockInContentState *)

Lemma entries_around_miss (pivot : ContentBlock.t) (entries : BlockMap) (switched : bool) :
  (forall e, List.In e entries -> same_block (snd e) (Some pivot) = false) ->
  entries_around pivot entries switched
  = if switched then ([], entries) else (entries, []).
Proof.
  induction entries as [| e rest IH]; intros Hmiss; cbn [entries_around].
  - destruct switched; reflexivity.
  - rewrite (Hmiss e) by (left; reflexivity).
    rewrite IH by (intros e' He'; apply Hmiss; right; exact He').
    destruct switched; reflexivity.
Qed.

Lemma entries_around_split (pivot : ContentBlock.t) (pre post : BlockMap)
    (k : option string) :
  (forall e, List.In e pre -> same_block (snd e) (Some pivot) = false) ->
  (forall e, List.In e post -> same_block (snd e) (Some pivot) = false) ->
  entries_around pivot (pre ++ (k, Some pivot) :: post)%list false = (pre, post).
Proof.
  intros Hpre Hpost. induction pre as [| e pre IH]; cbn [app entries_around snd].
  - rewrite same_block_refl. rewrite (entries_around_miss pivot post true Hpost).
    reflexivity.
  - rewrite (Hpre e) by (left; reflexivity).
    rewrite IH by (intros e' He'; apply Hpre; right; exact He'). reflexivity.
Qed.


(** An object held under one key only, in a map with unique keys, is held
    by one entry. *)
Lemma single_holder_split (m pre post : BlockMap) (key : string) (b : ContentBlock.t) :
  List.NoDup (Map_keys m) ->
  m = (pre ++ (Some key, Some b) :: post)%list ->
  (forall e, List.In e m -> same_block (snd e) (Some b) = true -> fst e = Some key) ->
  (forall e, List.In e pre -> same_block (snd e) (Some b) = false)
  /\ (forall e, List.In e post -> same_block (snd e) (Some b) = false)
  /\ ~ List.In (Some key) (Map_keys pre)
  /\ ~ List.In (Some key) (Map_keys post).
Proof.
  intros Hnd -> Hone. unfold Map_keys in Hnd. rewrite map_app in Hnd. cbn in Hnd.
  pose proof (NoDup_remove_2 _ _ _ Hnd) as Hnot.
  assert (Hpre : ~ List.In (Some key) (Map_keys pre))
    by (intros Hin; apply Hnot; apply in_or_app; left; exact Hin).
  assert (Hpost : ~ List.In (Some key) (Map_keys post))
    by (intros Hin; apply Hnot; apply in_or_app; right; exact Hin).
  split; [| split; [| split; assumption]].
  - intros e He. destruct (same_block (snd e) (Some b)) eqn:E; [| reflexivity].
    exfalso. apply Hpre. rewrite <- (Hone e); [apply in_map; exact He | | exact E].
    apply in_or_app. left. exact He.
  - intros e He. destruct (same_block (snd e) (Some b)) eqn:E; [| reflexivity].
    exfalso. apply Hpost. rewrite <- (Hone e); [apply in_map; exact He | | exact E].
    apply in_or_app. right. right. exact He.
Qed.




(** X16: [splitBlockInContentState] fails with an invariant violation, and
    allocates nothing, when the selection is not collapsed or when the
    block map has no block under the anchor key. *)
Theorem splitBlock_invariants (keyBelow : string) (c : ContentState.t)
    (sel : SelectionState.t) (h : heap) :
  SelectionState.isCollapsed sel = false
  \/ BlockMap_get (ContentState.blockMap c) (SelectionState.getAnchorKey sel) = None ->
  splitBlockInContentState keyBelow c sel h = (Throw InvariantViolation, h).
Proof.
  intros Hbad. unfold splitBlockInContentState, ContentState.getBlockMap.
  destruct (SelectionState.isCollapsed sel) eqn:Hcol; [| reflexivity].
  destruct Hbad as [Hbad | Hnone]; [discriminate |].
  unfold invariant. unfold bind at 1. unfold ret at 1.
  rewrite Hnone. reflexivity.
Qed.

Lemma splitBlock_invariants_witness :
  splitBlockInContentState "n" sample_content (cursor 30%nat "z" 0) sample_heap
  = (Throw InvariantViolation, sample_heap).
Proof. apply splitBlock_invariants. right. reflexivity. Defined.

Lemma collapsed_keys (sel : SelectionState.t) :
  SelectionState.isCollapsed sel = true ->
  SelectionState.getStartKey sel = SelectionState.getAnchorKey sel
  /\ SelectionState.getEndKey sel = SelectionState.getAnchorKey sel.
Proof.
  unfold SelectionState.isCollapsed, SelectionState.getStartKey, SelectionState.getEndKey.
  intros Hcol. apply andb_prop in Hcol. destruct Hcol as [Hk _].
  apply String.eqb_eq in Hk. rewrite <- Hk.
  destruct (SelectionState.getIsBackward sel); split; reflexivity.
Qed.

Lemma entries_after_keys_fresh (key : string) (entries : BlockMap) :
  List.NoDup (Map_keys entries) ->
  ~ List.In (Some key) (Map_keys (entries_after key entries)).
Proof.
  induction entries as [| e rest IH]; cbn; intros Hnd; [intros [] |].
  apply NoDup_cons_iff in Hnd. destruct Hnd as [Hnot Hnd].
  destruct (key_is (fst e) key) eqn:Hk.
  - apply key_is_true in Hk. rewrite <- Hk. exact Hnot.
  - apply IH. exact Hnd.
Qed.

Lemma entries_through_absent (key : string) (entries : BlockMap) :
  ~ List.In (Some key) (Map_keys entries) -> entries_through key entries = entries.
Proof.
  induction entries as [| e rest IH]; cbn; intros Hnot; [reflexivity |].
  destruct (key_is (fst e) key) eqn:Hk.
  - apply key_is_true in Hk. exfalso. apply Hnot. left. exact Hk.
  - f_equal. apply IH. intros Hin. apply Hnot. right. exact Hin.
Qed.

(** X17: splitting an empty list item.  With the cursor in a list item
    whose text is empty, in a block map with unique keys,
    [splitBlockInContentState] adds no block; when it returns, the list
    item of the cursor is the very block it was, still a list item, and it
    is every block after it that has become an 'unstyled' block of depth 0,
    with its key, text, characters and data kept. *)
Theorem splitBlock_empty_list_item (keyBelow : string) (c : ContentState.t)
    (sel : SelectionState.t) (b : ContentBlock.t) (h : heap)
    (c' : ContentState.t) (h' : heap) :
  SelectionState.isCollapsed sel = true ->
  List.NoDup (Map_keys (ContentState.blockMap c)) ->
  BlockMap_get (ContentState.blockMap c) (SelectionState.getAnchorKey sel) = Some b ->
  ContentBlock.text b = "" ->
  ContentBlock.type b = "unordered-list-item"
  \/ ContentBlock.type b = "ordered-list-item" ->
  splitBlockInContentState keyBelow c sel h = (Ok c', h') ->
  Map_keys (ContentState.blockMap c') = Map_keys (ContentState.blockMap c)
  /\ BlockMap_get (ContentState.blockMap c') (SelectionState.getAnchorKey sel) = Some b
  /\ (forall k x,
         List.In (Some k, Some x)
           (entries_after (SelectionState.getAnchorKey sel) (ContentState.blockMap c)) ->
         exists x',
           BlockMap_get (ContentState.blockMap c') k = Some x'
           /\ ContentBlock.type x' = "unstyled"
           /\ ContentBlock.depth x' = 0
           /\ ContentBlock.key x' = ContentBlock.key x
           /\ ContentBlock.text x' = ContentBlock.text x
           /\ ContentBlock.characterList x' = ContentBlock.characterList x
           /\ ContentBlock.data x' = ContentBlock.data x).
Proof.
  intros Hcol Hnd Hget Htext Htype.
  unfold splitBlockInContentState, ContentState.getBlockMap.
  rewrite Hcol. unfold invariant. unfold bind at 1. unfold ret at 1.
  rewrite Hget. unfold ContentBlock.getText, ContentBlock.getType. rewrite Htext.
  assert (Hitem : String.eqb (ContentBlock.type b) "unordered-list-item"
                  || String.eqb (ContentBlock.type b) "ordered-list-item" = true)
    by (destruct Htype as [-> | ->]; reflexivity).
  rewrite Hitem. cbn [String.length Nat.eqb andb].
  intros Hrun.
  destruct (collapsed_keys sel Hcol) as [Hstart Hend].
  pose proof
    (fun Hop =>
     modifyBlock_pointwise
       (fun x x' =>
          ContentBlock.type x' = "unstyled"
          /\ ContentBlock.depth x' = 0
          /\ ContentBlock.key x' = ContentBlock.key x
          /\ ContentBlock.text x' = ContentBlock.text x
          /\ ContentBlock.characterList x' = ContentBlock.characterList x
          /\ ContentBlock.data x' = ContentBlock.data x)
       _ c sel h c' h' Hop Hnd Hrun) as Hpoint.
  destruct Hpoint as (Hkeys & _ & Hsel & Hsame).
  { intros [x |] h0 x' h1 Hop; cbn in Hop; [| discriminate].
    injection Hop as <- _. exists x. split; [reflexivity |]. repeat split. }
  rewrite Hstart, Hend in Hsel. rewrite Hstart in Hsame.
  rewrite entries_through_absent in Hsel by (apply entries_after_keys_fresh; exact Hnd).
  split; [exact Hkeys |]. split; [rewrite Hsame; exact Hget | exact Hsel].
Qed.

Lemma splitBlock_empty_list_item_witness :
  exists (c' : ContentState.t) (h' : heap),
    splitBlockInContentState "n" sample_list_content (cursor 30%nat "a" 0) sample_heap
    = (Ok c', h')
    /\ BlockMap_get (ContentState.blockMap c') "a" = Some sample_item.
Proof.
  destruct (splitBlockInContentState "n" sample_list_content (cursor 30%nat "a" 0)
              sample_heap) as [[c' | e] h'] eqn:Hrun.
  - exists c', h'. split; [reflexivity |].
    refine (proj1 (proj2 (splitBlock_empty_list_item "n" sample_list_content
                            (cursor 30%nat "a" 0) sample_item sample_heap c' h'
                            _ _ _ _ _ Hrun))).
    + reflexivity.
    + cbn. repeat constructor; cbn; intuition discriminate.
    + reflexivity.
    + reflexivity.
    + left. reflexivity.
  - vm_compute in Hrun. discriminate.
Defined.

(** ** Theorems: moveBlockInContentState *)

Lemma Map_delete_app (m1 m2 : BlockMap) (k : option string) :
  Map_delete (m1 ++ m2)%list k = (Map_delete m1 k ++ Map_delete m2 k)%list.
Proof. unfold Map_delete. apply List.filter_app. Qed.

Lemma Map_delete_In (m : BlockMap) (k : option string)
    (e : option string * option ContentBlock.t) :
  List.In e (Map_delete m k) -> List.In e m /\ fst e <> k.
Proof.
  unfold Map_delete. intros Hin. apply filter_In in Hin. destruct Hin as [Hin Hk].
  split; [exact Hin |]. apply negb_true_iff in Hk. apply bool_decide_eq_false_1 in Hk.
  exact Hk.
Qed.

Lemma Map_delete_keys_unique (m : BlockMap) (k : option string) :
  List.NoDup (Map_keys m) ->
  List.NoDup (Map_keys (Map_delete m k)) /\ ~ List.In k (Map_keys (Map_delete m k)).
Proof.
  intros Hnd. split.
  - induction m as [| e rest IH]; cbn; [constructor |].
    cbn in Hnd. apply NoDup_cons_iff in Hnd. destruct Hnd as [Hnot Hnd].
    destruct (negb (bool_decide (fst e = k))); cbn; [| apply IH; exact Hnd].
    constructor; [| apply IH; exact Hnd].
    intros Hin. apply Hnot. unfold Map_keys in Hin. apply in_map_iff in Hin.
    destruct Hin as (e' & Hk & He'). apply Map_delete_In in He'.
    rewrite <- Hk. apply in_map. exact (proj1 He').
  - intros Hin. unfold Map_keys in Hin. apply in_map_iff in Hin.
    destruct Hin as (e & Hk & He). apply Map_delete_In in He.
    exact (proj2 He Hk).
Qed.

(** The blocks around a target that one entry holds, once the key of the
    moved block is deleted. *)
Lemma around_target (m : BlockMap) (target : ContentBlock.t) (blockKey : string) :
  List.NoDup (Map_keys m) ->
  List.In (Some (ContentBlock.key target), Some target) m ->
  (forall e, List.In e m -> same_block (snd e) (Some target) = true ->
             fst e = Some (ContentBlock.key target)) ->
  blockKey <> ContentBlock.key target ->
  exists pre post,
    Map_delete m (Some blockKey)
    = (pre ++ (Some (ContentBlock.key target), Some target) :: post)%list
    /\ entries_around target (Map_delete m (Some blockKey)) false = (pre, post).
Proof.
  intros Hnd Hin Hone Hne.
  destruct (in_split _ _ Hin) as (pre & post & Hm).
  destruct (single_holder_split m pre post _ target Hnd Hm Hone) as (Hpre & Hpost & _ & _).
  exists (Map_delete pre (Some blockKey)), (Map_delete post (Some blockKey)).
  assert (Hdel : Map_delete m (Some blockKey)
                 = (Map_delete pre (Some blockKey)
                    ++ (Some (ContentBlock.key target), Some target)
                    :: Map_delete post (Some blockKey))%list).
  { rewrite Hm, Map_delete_app. f_equal. unfold Map_delete at 1. cbn [List.filter fst].
    rewrite bool_decide_eq_false_2 by congruence. reflexivity. }
  split; [exact Hdel |]. rewrite Hdel.
  apply entries_around_split; intros e He; apply Map_delete_In in He;
    [apply Hpre | apply Hpost]; exact (proj1 He).
Qed.

Lemma keys_unique_insert (pre post : BlockMap) (k : option string)
    (v : option ContentBlock.t) :
  List.NoDup (Map_keys (pre ++ post)%list) ->
  ~ List.In k (Map_keys (pre ++ post)%list) ->
  List.NoDup (Map_keys (pre ++ (k, v) :: post)%list).
Proof.
  unfold Map_keys. rewrite !map_app. cbn [map fst]. intros Hnd Hnot.
  apply (NoDup_Add (a := k) (l := (map fst pre ++ map fst post)%list)).
  - apply Add_app.
  - split; assumption.
Qed.

(** X18: what [moveBlockInContentState] rejects.  Mode 'replace' and a
    block moved next to itself (equal keys) fail with an invariant
    violation.  In a block map with unique keys, with a target whose key is
    in the map, modes 'before' and 'after' both look at the entry that
    FOLLOWS the target: when the target is the last block the move throws a
    TypeError, and when the following block has the key of the moved block
    the move fails with an invariant violation, in mode 'before' too.  No
    failure allocates. *)
Theorem moveBlock_rejections (c : ContentState.t) (moved target : ContentBlock.t)
    (mode : string) (h : heap) :
  (mode = "replace" \/ ContentBlock.key moved = ContentBlock.key target ->
   moveBlockInContentState c moved target mode h = (Throw InvariantViolation, h))
  /\ (List.NoDup (Map_keys (ContentState.blockMap c)) ->
      mode = "before" \/ mode = "after" ->
      ContentBlock.key moved <> ContentBlock.key target ->
      (forall pre v,
          ContentState.blockMap c = (pre ++ [(Some (ContentBlock.key target), v)])%list ->
          moveBlockInContentState c moved target mode h = (Throw TypeError, h))
      /\ (forall pre v k z post,
             ContentState.blockMap c
             = (pre ++ (Some (ContentBlock.key target), v) :: (k, Some z) :: post)%list ->
             ContentBlock.key z = ContentBlock.key moved ->
             moveBlockInContentState c moved target mode h
             = (Throw InvariantViolation, h))).
Proof.
  split.
  - intros Hbad. unfold moveBlockInContentState.
    destruct (String.eqb_spec mode "replace") as [-> | Hmode]; [reflexivity |].
    destruct Hbad as [Hbad | Hsame]; [contradiction |].
    unfold ContentBlock.getKey. rewrite Hsame, String.eqb_refl. reflexivity.
  - intros Hnd Hmode Hne.
    assert (Hnot_replace : String.eqb mode "replace" = false)
      by (destruct Hmode as [-> | ->]; reflexivity).
    assert (Hkeys : String.eqb (ContentBlock.key moved) (ContentBlock.key target) = false)
      by (apply String.eqb_neq; exact Hne).
    assert (Hlook : forall pre v post,
               ContentState.blockMap c
               = (pre ++ (Some (ContentBlock.key target), v) :: post)%list ->
               (if String.eqb mode "before"
                then ContentState_getBlockBefore c (ContentBlock.key target)
                else ContentState_getBlockAfter c (ContentBlock.key target))
               = match post with
                 | e :: _ => Ok (snd e)
                 | [] => Throw TypeError
                 end).
    { intros pre v post Hm.
      assert (Hi : nth_error (Map_keys (ContentState.blockMap c)) (List.length pre)
                   = Some (Some (ContentBlock.key target))).
      { rewrite Hm. unfold Map_keys. rewrite map_app.
        rewrite nth_error_app2 by (rewrite length_map; lia).
        rewrite length_map, Nat.sub_diag. reflexivity. }
      assert (Hafter := getBlockAfter_at c _ _ Hnd Hi).
      assert (Hnext : nth_error (ContentState.blockMap c) (S (List.length pre))
                      = match post with e :: _ => Some e | [] => None end).
      { rewrite Hm. rewrite nth_error_app2 by lia.
        replace (S (List.length pre) - List.length pre)%nat with 1%nat by lia.
        destruct post; reflexivity. }
      rewrite Hnext in Hafter.
      replace (if String.eqb mode "before"
               then ContentState_getBlockBefore c (ContentBlock.key target)
               else ContentState_getBlockAfter c (ContentBlock.key target))
        with (ContentState_getBlockAfter c (ContentBlock.key target)).
      - rewrite Hafter. destruct post; reflexivity.
      - destruct (String.eqb mode "before"); [| reflexivity].
        symmetry. apply getBlockBefore_in; [exact Hnd |].
        apply nth_error_In with (n := List.length pre). exact Hi. }
    split.
    + intros pre v Hm. specialize (Hlook pre v [] Hm).
      unfold moveBlockInContentState, ContentBlock.getKey.
      rewrite Hnot_replace, Hkeys. cbn [negb invariant]. unfold bind at 1 2.
      cbn [ret]. unfold bind at 1.
      destruct Hmode as [-> | ->]; cbn [String.eqb Ascii.eqb Bool.eqb] in *;
        unfold bind at 1; rewrite Hlook; reflexivity.
    + intros pre v k z post Hm Hz. specialize (Hlook pre v ((k, Some z) :: post) Hm).
      unfold moveBlockInContentState, ContentBlock.getKey.
      rewrite Hnot_replace, Hkeys. cbn [negb invariant]. unfold bind at 1 2.
      cbn [ret]. unfold bind at 1.
      destruct Hmode as [-> | ->]; cbn [String.eqb Ascii.eqb Bool.eqb] in *;
        unfold bind at 1; rewrite Hlook; cbn [snd lift ret];
        unfold bind at 1; unfold not_the_block, ContentBlock.getKey;
        rewrite Hz, String.eqb_refl; reflexivity.
Qed.

Lemma moveBlock_rejections_witness :
  moveBlockInContentState sample_three_blocks sample_blockC sample_blockB "before"
    sample_heap
  = (Throw InvariantViolation, sample_heap).
Proof.
  refine (proj2 (proj2 (moveBlock_rejections sample_three_blocks sample_blockC
                          sample_blockB "before" sample_heap) _ _ _)
            [(Some "a", Some sample_blockA)] (Some sample_blockB) (Some "c")
            sample_blockC [] _ _).
  - cbn. repeat constructor; cbn; intuition discriminate.
  - left. reflexivity.
  - cbn. discriminate.
  - reflexivity.
  - reflexivity.
Defined.

(** X19: a move that [moveBlockInContentState] performs.  In a block map
    with unique keys that holds the target under its key only, in mode
    'before' or 'after', when the block that follows the target exists and
    has not the key of the moved block, and the content has a selection
    after: the result holds the entries of the old map without the key of
    the moved block, in their order, with the moved block inserted right
    before or right after the target; the selection before is the old
    selection after, and the selection after is that selection with both
    keys set to the key of the moved block and its offsets kept. *)
Theorem moveBlock_spec (c : ContentState.t) (moved target : ContentBlock.t)
    (mode : string) (following : option ContentBlock.t) (s : SelectionState.t)
    (h : heap) :
  mode = "before" \/ mode = "after" ->
  ContentBlock.key moved <> ContentBlock.key target ->
  List.NoDup (Map_keys (ContentState.blockMap c)) ->
  List.In (Some (ContentBlock.key target), Some target) (ContentState.blockMap c) ->
  (forall e, List.In e (ContentState.blockMap c) ->
             same_block (snd e) (Some target) = true ->
             fst e = Some (ContentBlock.key target)) ->
  ContentState_getBlockAfter c (ContentBlock.key target) = Ok following ->
  not_the_block following (ContentBlock.key moved) = true ->
  ContentState.selectionAfter c = Some s ->
  exists (c' : ContentState.t) (h' : heap) (pre post : BlockMap)
         (after : SelectionState.t),
    moveBlockInContentState c moved target mode h = (Ok c', h')
    /\ Map_delete (ContentState.blockMap c) (Some (ContentBlock.key moved))
       = (pre ++ (Some (ContentBlock.key target), Some target) :: post)%list
    /\ ContentState.blockMap c'
       = (pre
          ++ (if String.eqb mode "before"
              then [(Some (ContentBlock.key moved), Some moved);
                    (Some (ContentBlock.key target), Some target)]
              else [(Some (ContentBlock.key target), Some target);
                    (Some (ContentBlock.key moved), Some moved)])
          ++ post)%list
    /\ ContentState.entityMap c' = ContentState.entityMap c
    /\ ContentState.selectionBefore c' = Some s
    /\ ContentState.selectionAfter c' = Some after
    /\ SelectionState.anchorKey after = ContentBlock.key moved
    /\ SelectionState.focusKey after = ContentBlock.key moved
    /\ SelectionState.anchorOffset after = SelectionState.anchorOffset s
    /\ SelectionState.focusOffset after = SelectionState.focusOffset s.
Proof.
  intros Hmode Hne Hnd Hin Hone Hafter Hnot Hsel.
  destruct (around_target _ target (ContentBlock.key moved) Hnd Hin Hone Hne)
    as (pre & post & Hdel & Haround).
  destruct (Map_delete_keys_unique (ContentState.blockMap c)
              (Some (ContentBlock.key moved)) Hnd) as [Hnd_del Hfresh].
  rewrite Hdel in Hnd_del, Hfresh.
  assert (Hbefore : ContentState_getBlockBefore c (ContentBlock.key target) = Ok following).
  { rewrite getBlockBefore_in; [exact Hafter | exact Hnd |].
    unfold Map_keys. apply in_map_iff. eexists. split; [| exact Hin]. reflexivity. }
  assert (Hkeys : String.eqb (ContentBlock.key moved) (ContentBlock.key target) = false)
    by (apply String.eqb_neq; exact Hne).
  destruct Hmode as [-> | ->]; cbn [String.eqb Ascii.eqb Bool.eqb];
    eexists _, _, pre, post, _.
  - split.
    { unfold moveBlockInContentState, ContentBlock.getKey, ContentState.getBlockMap,
        ContentState.getSelectionAfter.
      rewrite Hkeys, Haround, Hsel. cbn [String.eqb Ascii.eqb Bool.eqb negb invariant fst snd].
      unfold bind at 1 2. cbn [ret]. unfold bind at 1. unfold bind at 1.
      rewrite Hbefore. cbn [lift ret]. unfold bind at 1. rewrite Hnot.
      cbn [invariant ret].
      unfold bind, SelectionState.set, ContentState.set, alloc, ret; cbn; reflexivity. }
    split; [exact Hdel |].
    split.
    { cbn [ContentState.blockMap default app]. apply Map_of_entries_unique.
      apply keys_unique_insert; assumption. }
    cbn. repeat split; reflexivity.
  - split.
    { unfold moveBlockInContentState, ContentBlock.getKey, ContentState.getBlockMap,
        ContentState.getSelectionAfter.
      rewrite Hkeys, Haround, Hsel. cbn [String.eqb Ascii.eqb Bool.eqb negb invariant fst snd].
      unfold bind at 1 2. cbn [ret]. unfold bind at 1. unfold bind at 1.
      rewrite Hafter. cbn [lift ret]. unfold bind at 1. rewrite Hnot.
      cbn [invariant ret].
      unfold bind, SelectionState.set, ContentState.set, alloc, ret; cbn; reflexivity. }
    split; [exact Hdel |].
    split.
    { cbn [ContentState.blockMap default app]. apply Map_of_entries_unique.
      change (pre ++ (Some (ContentBlock.key target), Some target)
                  :: (Some (ContentBlock.key moved), Some moved) :: post)%list
        with (pre ++ [(Some (ContentBlock.key target), Some target)]
                  ++ (Some (ContentBlock.key moved), Some moved) :: post)%list.
      rewrite app_assoc. apply keys_unique_insert; rewrite <- app_assoc; assumption. }
    cbn. repeat split; reflexivity.
Qed.

Lemma moveBlock_spec_witness :
  exists (c' : ContentState.t) (h' : heap),
    moveBlockInContentState sample_three_blocks sample_blockC sample_blockA "after"
      sample_heap = (Ok c', h')
    /\ Map_keys (ContentState.blockMap c') = [Some "a"; Some "c"; Some "b"].
Proof.
  destruct (moveBlock_spec sample_three_blocks sample_blockC sample_blockA "after"
              (Some sample_blockB) sample_selection sample_heap)
    as (c' & h' & pre & post & after & Hrun & Hdel & Hmap & _).
  - right. reflexivity.
  - cbn. discriminate.
  - cbn. repeat constructor; cbn; intuition discriminate.
  - left. reflexivity.
  - intros e [<- | [<- | [<- | []]]] Hsame; [reflexivity | discriminate Hsame ..].
  - reflexivity.
  - reflexivity.
  - reflexivity.
  - exists c', h'. split; [exact Hrun |].
    rewrite Hmap. cbn [String.eqb Ascii.eqb Bool.eqb].
    change (Map_keys (pre ++ [(Some "a", Some sample_blockA);
                              (Some "c", Some sample_blockC)] ++ post)%list
            = [Some "a"; Some "c"; Some "b"]).
    destruct pre as [| e0 pre].
    + cbn in Hdel. injection Hdel as <-. reflexivity.
    + cbn in Hdel. injection Hdel as <- Hrest.
      destruct pre as [| e1 pre]; cbn in Hrest; [discriminate Hrest |].
      injection Hrest as <- Hrest. destruct pre; discriminate Hrest.
Defined.

(** ** Theorems: the history of an EditorState *)

Section EditorStateHistory.
Variable X : collaborators.

(** One step of [redo] on a non-empty redo stack whose first entry has all
    its blocks defined. *)
Lemma redo_step (e : EditorState.t X) (r0 : ContentState.t) (rs : list ContentState.t)
    (h : heap) :
  EditorState.getAllowUndo X e = true ->
  EditorState.getRedoStack X e = r0 :: rs ->
  blocks_defined r0 ->
  exists e' h',
    EditorState.redo X e h = (Ok e', h')
    /\ EditorState.getAllowUndo X e' = true
    /\ EditorState.getCurrentContent X e' = r0
    /\ EditorState.getRedoStack X e' = rs
    /\ EditorState.getUndoStack X e'
       = (EditorState.getUndoStack X e ++ [EditorState.getCurrentContent X e])%list
    /\ EditorState.getSelection X e' = ContentState.getSelectionAfter r0
    /\ EditorState.getLastChangeType X e' = Some "redo".
Proof.
  intros Hundo Hstack Hall. unfold EditorState.redo. rewrite Hundo, Hstack. cbn [negb].
  change (Array_get (r0 :: rs) 0) with (Some r0). cbv beta iota.
  destruct (getDirectionMap_defined X r0 (Some (EditorState.getDirectionMap X e)) Hall)
    as [directionMap Hmap].
  unfold bind at 1. rewrite Hmap. cbn [lift ret].
  match goal with |- context [EditorState.set X e ?p ?h0] =>
    destruct (set_without_decorator X e p h0 eq_refl Hall)
      as (e' & h' & Hset & Ha & Hc & Hu & Hr & Hs & Hl & Hn) end.
  exists e', h'. rewrite Hset, Ha, Hc, Hu, Hr, Hs, Hl. cbn.
  rewrite Array_slice_from_one. repeat split; assumption.
Qed.

(** X20: [redo].  With undo enabled and a non-empty redo stack whose first
    entry has all its blocks defined, [redo] makes that FIRST entry the
    current content and takes it off the stack, appends the content that
    was current to the undo stack, sets the selection to the selectionAfter
    of the restored content and the last change type to 'redo'.  When that
    entry has an undefined block, [redo] throws a TypeError (in
    [EditorBidiService.getDirectionMap]) and allocates nothing.  With undo
    disabled or an empty redo stack it returns the EditorState it was given
    and allocates nothing. *)
Theorem redo_restores_first (e : EditorState.t X) (h : heap) :
  (EditorState.getAllowUndo X e = true ->
   forall r0 rs,
     EditorState.getRedoStack X e = r0 :: rs ->
     (blocks_defined r0 ->
      exists e' h',
        EditorState.redo X e h = (Ok e', h')
        /\ EditorState.getCurrentContent X e' = r0
        /\ EditorState.getRedoStack X e' = rs
        /\ EditorState.getUndoStack X e'
           = (EditorState.getUndoStack X e ++ [EditorState.getCurrentContent X e])%list
        /\ EditorState.getSelection X e' = ContentState.getSelectionAfter r0
        /\ EditorState.getLastChangeType X e' = Some "redo")
     /\ (has_undefined_block r0 ->
         EditorState.redo X e h = (Throw TypeError, h)))
  /\ (EditorState.getAllowUndo X e = false \/ EditorState.getRedoStack X e = [] ->
      EditorState.redo X e h = (Ok e, h)).
Proof.
  split.
  - intros Hundo r0 rs Hstack. split.
    + intros Hall.
      destruct (redo_step e r0 rs h Hundo Hstack Hall)
        as (e' & h' & Hrun & _ & Hc & Hr & Hu & Hs & Hl).
      exists e', h'. repeat split; assumption.
    + intros Hbad. unfold EditorState.redo. rewrite Hundo, Hstack. cbn [negb].
      change (Array_get (r0 :: rs) 0) with (Some r0). cbv beta iota.
      unfold bind at 1. rewrite (getDirectionMap_undefined X r0 _ Hbad). reflexivity.
  - intros [Hoff | Hempty]; unfold EditorState.redo.
    + rewrite Hoff. reflexivity.
    + rewrite Hempty. destruct (EditorState.getAllowUndo X e); reflexivity.
Qed.

(** X21: [undo] followed by [redo].  With undo enabled and a non-empty undo
    stack, when the entries the two calls restore have all their blocks
    defined, both succeed; afterwards the undo stack is the old one
    rotated, its first entry moved to the end.  When the redo stack was
    empty the current content is again the one before the [undo] and the
    redo stack is empty again; when it was not, [redo] brings back the
    first entry of the old redo stack, not the content that was undone. *)
Theorem undo_then_redo (e : EditorState.t X) (u0 : ContentState.t)
    (us : list ContentState.t) (h : heap) :
  EditorState.getAllowUndo X e = true ->
  EditorState.getUndoStack X e = u0 :: us ->
  blocks_defined u0 ->
  blocks_defined (hd (EditorState.getCurrentContent X e) (EditorState.getRedoStack X e)) ->
  exists e1 h1 e2 h2,
    EditorState.undo X e h = (Ok e1, h1)
    /\ EditorState.redo X e1 h1 = (Ok e2, h2)
    /\ EditorState.getUndoStack X e2 = (us ++ [u0])%list
    /\ EditorState.getCurrentContent X e2
       = hd (EditorState.getCurrentContent X e) (EditorState.getRedoStack X e)
    /\ EditorState.getRedoStack X e2
       = tl (EditorState.getRedoStack X e ++ [EditorState.getCurrentContent X e])%list
    /\ EditorState.getSelection X e2
       = ContentState.getSelectionAfter (EditorState.getCurrentContent X e2).
Proof.
  intros Hundo Hstack Hall0 Hall1.
  destruct (undo_step X e u0 us h Hundo Hstack Hall0)
    as (e1 & h1 & Hrun1 & Ha1 & Hc1 & Hu1 & Hr1 & _ & _).
  assert (Hredo : EditorState.getRedoStack X e1
                  = hd (EditorState.getCurrentContent X e) (EditorState.getRedoStack X e)
                    :: tl (EditorState.getRedoStack X e
                           ++ [EditorState.getCurrentContent X e])%list)
    by (rewrite Hr1; destruct (EditorState.getRedoStack X e); reflexivity).
  destruct (redo_step e1 _ _ h1 Ha1 Hredo Hall1)
    as (e2 & h2 & Hrun2 & _ & Hc2 & Hr2 & Hu2 & Hs2 & _).
  exists e1, h1, e2, h2. rewrite Hc2, Hr2, Hu2, Hs2, Hu1, Hc1.
  repeat split; assumption.
Qed.

(** X22: [push] followed by [undo].  With undo enabled, after a [push] at a
    boundary of a content other than the current one, [undo] restores the
    FIRST entry of the old undo stack; it restores the content that was
    current before the [push] only when that stack was empty (the pushed
    content and the restored one having all their blocks defined, both
    calls succeed).  The content that was pushed is the one entry of the
    redo stack, and the undo stack is the old one with its first entry
    dropped and the content before the [push] appended. *)
Theorem push_then_undo (e : EditorState.t X) (c : ContentState.t) (changeType : string)
    (force : bool) (h : heap) :
  EditorState.getAllowUndo X e = true ->
  ContentState.same (EditorState.getCurrentContent X e) c = false ->
  EditorState.is_boundary X e changeType = true ->
  blocks_defined c ->
  blocks_defined (hd (EditorState.getCurrentContent X e) (EditorState.getUndoStack X e)) ->
  exists e1 h1 e2 h2,
    EditorState.push X e c changeType force h = (Ok e1, h1)
    /\ EditorState.undo X e1 h1 = (Ok e2, h2)
    /\ EditorState.getCurrentContent X e2
       = hd (EditorState.getCurrentContent X e) (EditorState.getUndoStack X e)
    /\ EditorState.getUndoStack X e2
       = tl (EditorState.getUndoStack X e ++ [EditorState.getCurrentContent X e])%list
    /\ EditorState.getRedoStack X e2 = [EditorState.getCurrentContent X e1]
    /\ ContentState.blockMap (EditorState.getCurrentContent X e1) = ContentState.blockMap c.
Proof.
  intros Hundo Hdiff Hb Hall Hall0.
  destruct (push_with_undo X e c changeType force h Hundo Hdiff Hall)
    as (e1 & h1 & Hrun1 & Ha1 & Hu1 & Hr1 & _ & _ & _ & Hblocks & _ & _).
  rewrite Hb in Hu1.
  assert (Hstack : EditorState.getUndoStack X e1
                   = hd (EditorState.getCurrentContent X e) (EditorState.getUndoStack X e)
                     :: tl (EditorState.getUndoStack X e
                            ++ [EditorState.getCurrentContent X e])%list)
    by (rewrite Hu1; destruct (EditorState.getUndoStack X e); reflexivity).
  destruct (undo_step X e1 _ _ h1 Ha1 Hstack Hall0)
    as (e2 & h2 & Hrun2 & _ & Hc2 & Hu2 & Hr2 & _ & _).
  exists e1, h1, e2, h2. rewrite Hc2, Hu2, Hr2, Hr1.
  repeat split; assumption.
Qed.

(** X23: what [push] does to the history, for a content other than the
    current one.  When all its blocks are defined: with undo disabled both
    stacks stay as they are and the very object pushed becomes the current
    content; with undo enabled the redo stack is emptied, and the current
    content is a new object, not the one pushed, with the block map of the
    one pushed; in both cases the selection is the selectionAfter of the
    pushed content and the last change type is the one given.  When it has
    an undefined block, [push] throws a TypeError and allocates nothing. *)
Theorem push_history (e : EditorState.t X) (c : ContentState.t) (changeType : string)
    (force : bool) (h : heap) :
  ContentState.same (EditorState.getCurrentContent X e) c = false ->
  (blocks_defined c ->
   exists e' h',
     EditorState.push X e c changeType force h = (Ok e', h')
     /\ EditorState.getSelection X e' = ContentState.getSelectionAfter c
     /\ EditorState.getLastChangeType X e' = Some changeType
     /\ ContentState.blockMap (EditorState.getCurrentContent X e')
        = ContentState.blockMap c
     /\ (EditorState.getAllowUndo X e = false ->
         EditorState.getCurrentContent X e' = c
         /\ EditorState.getUndoStack X e' = EditorState.getUndoStack X e
         /\ EditorState.getRedoStack X e' = EditorState.getRedoStack X e)
     /\ (EditorState.getAllowUndo X e = true ->
         (ContentState.self c < next_ref h)%nat ->
         EditorState.getRedoStack X e' = []
         /\ ContentState.same (EditorState.getCurrentContent X e') c = false))
  /\ (has_undefined_block c ->
      EditorState.push X e c changeType force h = (Throw TypeError, h)).
Proof.
  intros Hdiff. split; [| intros Hbad; apply push_undefined_block; assumption].
  intros Hall. destruct (EditorState.getAllowUndo X e) eqn:Hundo.
  - destruct (push_with_undo X e c changeType force h Hundo Hdiff Hall)
      as (e' & h' & Hrun & _ & _ & Hr & Hl & Hs & _ & Hblocks & Hself & _).
    exists e', h'. split; [exact Hrun |]. split; [exact Hs |]. split; [exact Hl |].
    split; [exact Hblocks |]. split; [discriminate |].
    intros _ Hold. split; [exact Hr |].
    apply same_content_fresh with (n := next_ref h); assumption.
  - unfold EditorState.push. rewrite Hdiff.
    destruct (getDirectionMap_defined X c (Some (EditorState.getDirectionMap X e)) Hall)
      as [directionMap Hmap].
    unfold bind at 1. rewrite Hmap. cbn [lift ret]. rewrite Hundo. cbn [negb].
    match goal with |- context [EditorState.set X e ?p ?h0] =>
      destruct (set_without_decorator X e p h0 eq_refl Hall)
        as (e' & h' & Hset & Ha & Hc & Hu & Hr & Hs & Hl & Hn) end.
    exists e', h'. rewrite Hset, Hc, Hu, Hr, Hs, Hl. cbn.
    repeat split; try reflexivity; discriminate.
Qed.

Lemma generate_entries_undefined (c : ContentState.t) (decorator : option Decorator)
    (entries : BlockMap) :
  (exists entry, List.In entry entries /\ snd entry = None) ->
  EditorState.generate_entries X c decorator entries = Throw TypeError.
Proof.
  induction entries as [| entry rest IH]; intros (bad & Hin & Hbad); [destruct Hin |].
  cbn [EditorState.generate_entries].
  destruct (snd entry) as [block |] eqn:Hblock; [| reflexivity].
  rewrite IH.
  - unfold BlockTree_generate. destruct (ContentBlock.getLength block =? 0); reflexivity.
  - destruct Hin as [<- | Hin]; [congruence |]. exists bad. split; assumption.
Qed.

(** X24: [EditorState.set] with a decorator other than the existing one.
    Whenever it returns, it has stored the decorator, a regenerated tree
    map and a null nativelyRenderedContent, and dropped every other property
    of [put]: the content, the selection, both stacks, the last change type
    and the flags of the result are those of the EditorState given.  When
    the old or the new decorator is null it returns if every block of the
    new content (the content of [put], else the current one) is defined,
    and throws a TypeError if one is not.  When a decorator replaces a
    decorator it throws a TypeError as soon as the decorations of one entry
    of the tree map differ, since [BlockTree.generate] is then called with
    an array of ranges; when none differs it returns with an EMPTY tree
    map. *)
Theorem set_new_decorator_drops_put (e : EditorState.t X) (put : EditorState.config X)
    (d : option Decorator) (h : heap) :
  let newContent :=
    default (EditorState.getCurrentContent X e) (EditorState.put_currentContent X put) in
  let dropped (e' : EditorState.t X) : Prop :=
    EditorState.getDecorator X e' = d
    /\ EditorState.getNativelyRenderedContent X e' = None
    /\ EditorState.getCurrentContent X e' = EditorState.getCurrentContent X e
    /\ EditorState.getSelection X e' = EditorState.getSelection X e
    /\ EditorState.getUndoStack X e' = EditorState.getUndoStack X e
    /\ EditorState.getRedoStack X e' = EditorState.getRedoStack X e
    /\ EditorState.getLastChangeType X e' = EditorState.getLastChangeType X e
    /\ EditorState.getAllowUndo X e' = EditorState.getAllowUndo X e
    /\ EditorState.mustForceSelection X e' = EditorState.mustForceSelection X e
    /\ EditorState.getInlineStyleOverride X e' = EditorState.getInlineStyleOverride X e in
  EditorState.put_decorator X put = Some d ->
  d <> EditorState.getDecorator X e ->
  (d = None \/ EditorState.getDecorator X e = None ->
   (blocks_defined newContent ->
    exists e' h', EditorState.set X e put h = (Ok e', h') /\ dropped e')
   /\ (has_undefined_block newContent ->
       EditorState.set X e put h = (Throw TypeError, h)))
  /\ (forall new old : Decorator,
         d = Some new ->
         EditorState.getDecorator X e = Some old ->
         let differing :=
           List.filter (fun entry => decorations_differ X new old (snd entry) newContent)
             (EditorState.treeMap X (EditorState._state X e)) in
         (differing <> [] -> EditorState.set X e put h = (Throw TypeError, h))
         /\ (differing = [] ->
             exists e' h',
               EditorState.set X e put h = (Ok e', h')
               /\ EditorState.treeMap X (EditorState._state X e') = []
               /\ dropped e')).
Proof.
  intros newContent dropped Hput Hne.
  assert (Hd : match d with Some d0 => Some d0 | None => None end = d)
    by (destruct d; reflexivity).
  assert (Hset : EditorState.set X e put h
                 = (let* newState :=
                      let* newTreeMap :=
                        lift (match d, EditorState.getDecorator X e with
                              | Some new, Some old =>
                                  EditorState.regenerateTreeForNewDecorator X newContent
                                    (ContentState.getBlockMap newContent)
                                    (EditorState.treeMap X (EditorState._state X e))
                                    new old
                              | _, _ => EditorState.generateNewTreeMap X newContent d
                              end) in
                      ret (EditorState.assign X (EditorState._state X e)
                             {| EditorState.put_allowUndo := None;
                                EditorState.put_currentContent := None;
                                EditorState.put_decorator := Some d;
                                EditorState.put_directionMap := None;
                                EditorState.put_forceSelection := None;
                                EditorState.put_inCompositionMode := None;
                                EditorState.put_inlineStyleOverride := None;
                                EditorState.put_lastChangeType := None;
                                EditorState.put_nativelyRenderedContent := Some None;
                                EditorState.put_redoStack := None;
                                EditorState.put_selection := None;
                                EditorState.put_treeMap := Some newTreeMap;
                                EditorState.put_undoStack := None |}) in
                    let* r := alloc in
                    ret {| EditorState.self := r; EditorState._state := newState |}) h).
  { unfold EditorState.set. rewrite Hput, Hd. unfold EditorState.same_decorator.
    rewrite bool_decide_eq_false_2 by exact Hne. cbn [negb].
    subst newContent. unfold EditorState.getDecorator.
    destruct (EditorState.put_currentContent X put); reflexivity. }
  rewrite Hset. clear Hset. split.
  - intros Hnull.
    assert (Hgen : match d, EditorState.getDecorator X e with
                   | Some new, Some old =>
                       EditorState.regenerateTreeForNewDecorator X newContent
                         (ContentState.getBlockMap newContent)
                         (EditorState.treeMap X (EditorState._state X e)) new old
                   | _, _ => EditorState.generateNewTreeMap X newContent d
                   end = EditorState.generateNewTreeMap X newContent d).
    { destruct Hnull as [-> | ->]; [reflexivity | destruct d; reflexivity]. }
    rewrite Hgen. unfold EditorState.generateNewTreeMap, ContentState.getBlockMap. split.
    + intros Hall.
      destruct (generate_entries_defined X newContent d _ Hall) as [trees Htrees].
      rewrite Htrees. eexists; eexists. split; [cbn; reflexivity |].
      subst dropped. cbn. repeat split; reflexivity.
    + intros Hbad. rewrite (generate_entries_undefined newContent d _ Hbad). reflexivity.
  - intros new old -> Hold differing. rewrite Hold.
    unfold EditorState.regenerateTreeForNewDecorator. fold differing. split.
    + intros Hsome. destruct differing; [congruence | reflexivity].
    + intros ->. eexists; eexists. split; [cbn; reflexivity |].
      split; [reflexivity |]. subst dropped. cbn. repeat split; reflexivity.
Qed.

(** X25: [forceSelection] and [acceptSelection] touch the selection only.
    Both leave the content, the stacks and the decorator as they are and
    clear the inline style override and the natively rendered content;
    [forceSelection] raises the force flag and stores a selection that has
    focus, the given object itself when it has focus already and else a
    copy of it with the same keys, offsets and direction;
    [acceptSelection] lowers the flag and stores the given object. *)
Theorem selection_updates (e : EditorState.t X) (sel : SelectionState.t) (h : heap) :
  (exists e' h' s',
      EditorState.forceSelection X e sel h = (Ok e', h')
      /\ EditorState.getSelection X e' = Some s'
      /\ SelectionState.hasFocus s' = true
      /\ (SelectionState.hasFocus sel = true -> s' = sel)
      /\ SelectionState.anchorKey s' = SelectionState.anchorKey sel
      /\ SelectionState.anchorOffset s' = SelectionState.anchorOffset sel
      /\ SelectionState.focusKey s' = SelectionState.focusKey sel
      /\ SelectionState.focusOffset s' = SelectionState.focusOffset sel
      /\ SelectionState.isBackward s' = SelectionState.isBackward sel
      /\ EditorState.mustForceSelection X e' = true
      /\ EditorState.getInlineStyleOverride X e' = None
      /\ EditorState.getNativelyRenderedContent X e' = None
      /\ EditorState.getCurrentContent X e' = EditorState.getCurrentContent X e
      /\ EditorState.getUndoStack X e' = EditorState.getUndoStack X e
      /\ EditorState.getRedoStack X e' = EditorState.getRedoStack X e
      /\ EditorState.getDecorator X e' = EditorState.getDecorator X e)
  /\ (exists e' h',
         EditorState.acceptSelection X e sel h = (Ok e', h')
         /\ EditorState.getSelection X e' = Some sel
         /\ EditorState.mustForceSelection X e' = false
         /\ EditorState.getInlineStyleOverride X e' = None
         /\ EditorState.getNativelyRenderedContent X e' = None
         /\ EditorState.getCurrentContent X e' = EditorState.getCurrentContent X e
         /\ EditorState.getUndoStack X e' = EditorState.getUndoStack X e
         /\ EditorState.getRedoStack X e' = EditorState.getRedoStack X e
         /\ EditorState.getDecorator X e' = EditorState.getDecorator X e).
Proof.
  assert (Hupdate : forall (s : SelectionState.t) (f : bool) (h0 : heap),
             exists e' h',
               EditorState.updateSelection X e s f h0 = (Ok e', h')
               /\ EditorState.getSelection X e' = Some s
               /\ EditorState.mustForceSelection X e' = f
               /\ EditorState.getInlineStyleOverride X e' = None
               /\ EditorState.getNativelyRenderedContent X e' = None
               /\ EditorState.getCurrentContent X e' = EditorState.getCurrentContent X e
               /\ EditorState.getUndoStack X e' = EditorState.getUndoStack X e
               /\ EditorState.getRedoStack X e' = EditorState.getRedoStack X e
               /\ EditorState.getDecorator X e' = EditorState.getDecorator X e).
  { intros s f h0. unfold EditorState.updateSelection, EditorState.set.
    cbn [EditorState.put_decorator EditorState.put_currentContent].
    unfold EditorState.same_decorator.
    rewrite bool_decide_eq_true_2 by reflexivity. cbn [negb].
    unfold ContentState.same. rewrite Nat.eqb_refl. cbn [negb].
    eexists; eexists. split; [cbn; reflexivity |]. cbn. repeat split; reflexivity. }
  split.
  - unfold EditorState.forceSelection, SelectionState.getHasFocus.
    destruct (SelectionState.hasFocus sel) eqn:Hfocus; cbn [negb].
    + unfold bind, ret.
      destruct (Hupdate sel true h) as (e' & h' & Hrun & Hs & Hrest).
      exists e', h', sel. split; [exact Hrun |]. split; [exact Hs |].
      split; [exact Hfocus |]. split; [reflexivity |].
      repeat (split; [reflexivity |]). exact Hrest.
    + pose (s := SelectionState.mk (next_ref h) (SelectionState.anchorKey sel)
                   (SelectionState.anchorOffset sel) (SelectionState.focusKey sel)
                   (SelectionState.focusOffset sel) (SelectionState.isBackward sel) true).
      destruct (Hupdate s true {| next_ref := S (next_ref h); pool := pool h |})
        as (e' & h' & Hrun & Hs & Hrest).
      exists e', h', s.
      split; [exact Hrun |]. split; [exact Hs |].
      split; [reflexivity |]. split; [discriminate |].
      repeat (split; [reflexivity |]). exact Hrest.
  - unfold EditorState.acceptSelection. apply Hupdate.
Qed.

End EditorStateHistory.

Lemma redo_restores_first_witness :
  exists e' h',
    EditorState.redo no_collaborators
      (sample_editor 14%nat sample_content2 [sample_content1] [sample_content3]
         (Some (cursor 26%nat "a" 3)) (Some "undo"))
      sample_heap = (Ok e', h')
    /\ EditorState.getCurrentContent no_collaborators e' = sample_content3.
Proof.
  destruct (proj1 (proj1 (redo_restores_first no_collaborators
                            (sample_editor 14%nat sample_content2 [sample_content1]
                               [sample_content3] (Some (cursor 26%nat "a" 3))
                               (Some "undo"))
                            sample_heap)
                     eq_refl sample_content3 [] eq_refl)
              (sample_blockMap_defined sample_content3 eq_refl))
    as (e' & h' & Hrun & Hc & _).
  exists e', h'. split; assumption.
Defined.

Lemma undo_then_redo_witness :
  exists e1 h1 e2 h2,
    EditorState.undo no_collaborators sample_editor_one_undo sample_heap = (Ok e1, h1)
    /\ EditorState.redo no_collaborators e1 h1 = (Ok e2, h2)
    /\ EditorState.getCurrentContent no_collaborators e2 = sample_content2.
Proof.
  destruct (undo_then_redo no_collaborators sample_editor_one_undo sample_content1 []
              sample_heap eq_refl eq_refl
              (sample_blockMap_defined sample_content1 eq_refl)
              (sample_blockMap_defined sample_content2 eq_refl))
    as (e1 & h1 & e2 & h2 & Hrun1 & Hrun2 & _ & Hc & _).
  exists e1, h1, e2, h2. repeat split; assumption.
Defined.

Lemma push_then_undo_witness :
  exists e1 h1 e2 h2,
    EditorState.push no_collaborators sample_editor_one_undo sample_content3
      "change-inline-style" true sample_heap = (Ok e1, h1)
    /\ EditorState.undo no_collaborators e1 h1 = (Ok e2, h2)
    /\ EditorState.getCurrentContent no_collaborators e2 = sample_content1.
Proof.
  destruct (push_then_undo no_collaborators sample_editor_one_undo sample_content3
              "change-inline-style" true sample_heap eq_refl eq_refl eq_refl
              (sample_blockMap_defined sample_content3 eq_refl)
              (sample_blockMap_defined sample_content1 eq_refl))
    as (e1 & h1 & e2 & h2 & Hrun1 & Hrun2 & Hc & _).
  exists e1, h1, e2, h2. repeat split; assumption.
Defined.

Lemma push_history_witness :
  exists e' h',
    EditorState.push no_collaborators
      (sample_editor 14%nat sample_content2 [sample_content1] [sample_content3]
         (Some (cursor 26%nat "a" 3)) (Some "undo"))
      sample_content4 "insert-characters" true sample_heap = (Ok e', h')
    /\ EditorState.getRedoStack no_collaborators e' = [].
Proof.
  destruct (proj1 (push_history no_collaborators
                     (sample_editor 14%nat sample_content2 [sample_content1]
                        [sample_content3] (Some (cursor 26%nat "a" 3)) (Some "undo"))
                     sample_content4 "insert-characters" true sample_heap eq_refl)
              (sample_blockMap_defined sample_content4 eq_refl))
    as (e' & h' & Hrun & _ & _ & _ & _ & Hon).
  exists e', h'. split; [exact Hrun |].
  apply Hon; [reflexivity | cbn; lia].
Defined.

Lemma selection_updates_witness :
  exists e' h' s',
    EditorState.forceSelection no_collaborators sample_editor0
      (SelectionState.mk 30%nat "a" 1 "b" 2 false false) sample_heap = (Ok e', h')
    /\ EditorState.getSelection no_collaborators e' = Some s'
    /\ SelectionState.hasFocus s' = true.
Proof.
  destruct (proj1 (selection_updates no_collaborators sample_editor0
                     (SelectionState.mk 30%nat "a" 1 "b" 2 false false) sample_heap))
    as (e' & h' & s' & Hrun & Hs & Hfocus & _).
  exists e', h', s'. repeat split; assumption.
Defined.

Lemma set_new_decorator_drops_put_witness :
  (exists e' h',
      EditorState.set no_collaborators sample_editor0
        (EditorState.mkConfig no_collaborators None (Some sample_content1)
           (Some (Some 50%nat)) None None None None None None None None None None)
        sample_heap = (Ok e', h')
      /\ EditorState.getCurrentContent no_collaborators e' = sample_content)
  /\ EditorState.set differing_collaborators
       (sample_editor_decorated 14%nat sample_content 60%nat)
       (EditorState.mkConfig differing_collaborators None None
          (Some (Some 61%nat)) None None None None None None None None None None)
       sample_heap = (Throw TypeError, sample_heap).
Proof.
  split.
  - destruct (proj1 (proj1 (set_new_decorator_drops_put no_collaborators sample_editor0
                              (EditorState.mkConfig no_collaborators None
                                 (Some sample_content1) (Some (Some 50%nat))
                                 None None None None None None None None None None)
                              (Some 50%nat) sample_heap eq_refl ltac:(discriminate))
                       (or_intror eq_refl))
                (sample_blockMap_defined sample_content1 eq_refl))
      as (e' & h' & Hrun & _ & _ & Hc & _).
    exists e', h'. split; assumption.
  - refine (proj1 (proj2 (set_new_decorator_drops_put differing_collaborators
                            (sample_editor_decorated 14%nat sample_content 60%nat)
                            (EditorState.mkConfig differing_collaborators None None
                               (Some (Some 61%nat)) None None None None None None None
                               None None None)
                            (Some 61%nat) sample_heap eq_refl _)
                     61%nat 60%nat eq_refl eq_refl) _).
    + cbn. intros Heq. injection Heq as Heq. discriminate Heq.
    + cbn. discriminate.
Defined.

(** ** Theorems: lookUpwardForInlineStyle *)

Lemma lookUpward_loop_searching (fromKey : string) (entries rest : BlockMap) :
  ~ List.In (Some fromKey) (Map_keys entries) ->
  lookUpward_loop fromKey 0 (entries ++ rest)%list = lookUpward_loop fromKey 0 rest.
Proof.
  induction entries as [| e entries IH]; intros Hnot; [reflexivity |].
  cbn [app lookUpward_loop]. cbn [Z.eqb andb].
  unfold key_is. rewrite bool_decide_eq_false_2
    by (intros Hk; apply Hnot; left; exact Hk).
  cbn [Z.eqb]. apply IH. intros Hin. apply Hnot. right. exact Hin.
Qed.

Lemma lookUpward_loop_found (fromKey : string) (entries : BlockMap) :
  (forall e, List.In e entries -> snd e <> None) ->
  lookUpward_loop fromKey 2 entries
  = Ok (match List.find has_text entries with
        | Some e => snd e
        | None => None
        end).
Proof.
  induction entries as [| e entries IH]; intros Hall; [reflexivity |].
  cbn [lookUpward_loop List.find]. cbn [Z.eqb andb Pos.eqb].
  unfold has_text at 1.
  destruct (snd e) as [b |] eqn:Hb; [| exfalso; apply (Hall e); [left; reflexivity | exact Hb]].
  destruct (negb (ContentBlock.getLength b =? 0)); [rewrite Hb; reflexivity |].
  apply IH. intros e' He'. apply Hall. right. exact He'.
Qed.

(** X26: [lookUpwardForInlineStyle] skips the block directly above.  In a
    block map with unique keys, for a key with at least one block above it,
    the result does not depend on the block directly above: it is the style
    of the last character of the nearest block with text among the blocks
    further up, and the empty style when none of those has text (the blocks
    further up all being defined).  For the key of the first block and for
    a key that is not in the map it is the empty style. *)
Theorem lookUpward_skips_block_before (c : ContentState.t) (fromKey : string) :
  List.NoDup (Map_keys (ContentState.blockMap c)) ->
  (forall (above below : BlockMap) (before : option string * option ContentBlock.t)
          (v : option ContentBlock.t),
      ContentState.blockMap c = (above ++ before :: (Some fromKey, v) :: below)%list ->
      (forall e, List.In e above -> snd e <> None) ->
      lookUpwardForInlineStyle c fromKey = Ok (last_text_style above))
  /\ (forall (below : BlockMap) (v : option ContentBlock.t),
         ContentState.blockMap c = (Some fromKey, v) :: below ->
         lookUpwardForInlineStyle c fromKey = Ok EMPTY_STYLE)
  /\ (~ List.In (Some fromKey) (Map_keys (ContentState.blockMap c)) ->
      lookUpwardForInlineStyle c fromKey = Ok EMPTY_STYLE).
Proof.
  intros Hnd. split; [| split].
  - intros above below before v Hm Hall.
    unfold lookUpwardForInlineStyle, ContentState.getBlockMap. rewrite Hm.
    assert (Hbelow : ~ List.In (Some fromKey) (Map_keys (rev below))).
    { rewrite Hm in Hnd. unfold Map_keys in *. rewrite map_app in Hnd. cbn [map fst] in Hnd.
      change (map fst above ++ fst before :: Some fromKey :: map fst below)%list
        with (map fst above ++ [fst before] ++ Some fromKey :: map fst below)%list in Hnd.
      rewrite app_assoc in Hnd. apply NoDup_remove_2 in Hnd.
      intros Hin. apply Hnd. apply in_or_app. right.
      rewrite map_rev in Hin. apply in_rev in Hin. exact Hin. }
    replace (rev (above ++ before :: (Some fromKey, v) :: below)%list)
      with (rev below ++ (Some fromKey, v) :: before :: rev above)%list
      by (rewrite rev_app_distr; cbn [rev]; rewrite <- !app_assoc; reflexivity).
    rewrite (lookUpward_loop_searching fromKey _ _ Hbelow).
    cbn [lookUpward_loop fst Z.eqb andb]. unfold key_is.
    rewrite bool_decide_eq_true_2 by reflexivity.
    cbn [Z.add Pos.add Z.eqb Pos.eqb andb].
    rewrite lookUpward_loop_found
      by (intros e He; apply Hall; apply in_rev; exact He).
    unfold last_text_style.
    destruct (List.find has_text (rev above)) as [[k [b |]] |] eqn:Hfind; try reflexivity.
  - intros below v Hm.
    unfold lookUpwardForInlineStyle, ContentState.getBlockMap. rewrite Hm.
    assert (Hbelow : ~ List.In (Some fromKey) (Map_keys (rev below))).
    { rewrite Hm in Hnd. cbn in Hnd. apply NoDup_cons_iff in Hnd.
      intros Hin. apply (proj1 Hnd). unfold Map_keys in Hin.
      rewrite map_rev in Hin. apply in_rev in Hin. exact Hin. }
    cbn [rev]. rewrite (lookUpward_loop_searching fromKey _ _ Hbelow).
    cbn [lookUpward_loop fst Z.eqb andb]. unfold key_is.
    rewrite bool_decide_eq_true_2 by reflexivity. reflexivity.
  - intros Hnot.
    unfold lookUpwardForInlineStyle, ContentState.getBlockMap.
    rewrite <- (app_nil_r (rev (ContentState.blockMap c))).
    rewrite lookUpward_loop_searching; [reflexivity |].
    unfold Map_keys in *. rewrite map_rev. intros Hin. apply in_rev in Hin.
    exact (Hnot Hin).
Qed.

Lemma lookUpward_skips_block_before_witness :
  lookUpwardForInlineStyle sample_three_blocks "c"
  = Ok (last_text_style [(Some "a", Some sample_blockA)]).
Proof.
  refine (proj1 (lookUpward_skips_block_before sample_three_blocks "c" _)
            [(Some "a", Some sample_blockA)] [] (Some "b", Some sample_blockB)
            (Some sample_blockC) eq_refl _).
  - cbn. repeat constructor; cbn; intuition discriminate.
  - intros e [<- | []]. discriminate.
Defined.

(** ** Theorems: what removeRangeFromContentState leaves alone *)

Lemma filter_keys_unique (f : option string * option ContentBlock.t -> bool)
    (m : BlockMap) :
  List.NoDup (Map_keys m) -> List.NoDup (Map_keys (List.filter f m)).
Proof.
  induction m as [| e rest IH]; cbn; intros Hnd; [constructor |].
  apply NoDup_cons_iff in Hnd. destruct Hnd as [Hnot Hnd].
  destruct (f e); cbn; [| apply IH; exact Hnd].
  constructor; [| apply IH; exact Hnd].
  intros Hin. apply Hnot. unfold Map_keys in *. apply in_map_iff in Hin.
  destruct Hin as (e' & Hk & He'). apply filter_In in He'.
  rewrite <- Hk. apply in_map. exact (proj1 He').
Qed.

Lemma BlockMap_get_absent (m : BlockMap) (k : string) :
  ~ List.In (Some k) (Map_keys m) -> BlockMap_get m k = None.
Proof.
  unfold BlockMap_get. induction m as [| [k0 v0] rest IH]; cbn; intros Hnot; [reflexivity |].
  destruct (decide (k0 = Some k)) as [-> | Hne]; [exfalso; apply Hnot; left; reflexivity |].
  apply IH. intros Hin. apply Hnot. right. exact Hin.
Qed.

(** Dropping the entries that hold no block changes no lookup. *)
Lemma BlockMap_get_defined (m : BlockMap) (k : string) :
  List.NoDup (Map_keys m) ->
  BlockMap_get
    (List.filter (fun e => match snd e with Some _ => true | None => false end) m) k
  = BlockMap_get m k.
Proof.
  induction m as [| [k0 v0] rest IH]; intros Hnd; [reflexivity |].
  cbn in Hnd. apply NoDup_cons_iff in Hnd. destruct Hnd as [Hnot Hnd].
  cbn [List.filter snd]. destruct v0 as [b |].
  - unfold BlockMap_get in *. cbn [Map_get].
    destruct (decide (k0 = Some k)); [reflexivity | apply IH; exact Hnd].
  - rewrite (IH Hnd). unfold BlockMap_get at 2. cbn [Map_get].
    destruct (decide (k0 = Some k)) as [-> | Hne]; [| reflexivity].
    apply BlockMap_get_absent. exact Hnot.
Qed.

Lemma with_shared_array_keys (m : BlockMap) (b : ContentBlock.t)
    (arr : list CharacterMetadata.t) :
  Map_keys (with_shared_array m b arr) = Map_keys m.
Proof.
  unfold Map_keys, with_shared_array. rewrite map_map. apply map_ext.
  intros [k [b' |]]; cbn; [| reflexivity].
  destruct (ContentBlock.same b' b); reflexivity.
Qed.

Lemma with_shared_array_get (m : BlockMap) (b : ContentBlock.t)
    (arr : list CharacterMetadata.t) (k : string) :
  match BlockMap_get (with_shared_array m b arr) k, BlockMap_get m k with
  | Some b', Some b0 =>
      ContentBlock.text b' = ContentBlock.text b0
      /\ ContentBlock.key b' = ContentBlock.key b0
      /\ ContentBlock.type b' = ContentBlock.type b0
      /\ ContentBlock.depth b' = ContentBlock.depth b0
      /\ ContentBlock.data b' = ContentBlock.data b0
  | None, None => True
  | _, _ => False
  end.
Proof.
  unfold BlockMap_get. induction m as [| [k0 v0] rest IH]; cbn; [exact I |].
  destruct v0 as [b0 |]; cbn.
  - destruct (ContentBlock.same b0 b); cbn;
      (destruct (decide (k0 = Some k)); [repeat split | exact IH]).
  - destruct (decide (k0 = Some k)); [exact I | exact IH].
Qed.

(** X27: [removeRangeFromContentState] never removes text.  On a block map
    with unique keys, whenever it returns a content, that content has a
    block under exactly the keys that had one, and each block has the text,
    key, type, depth and data it had: no range of text is ever cut out. *)
Theorem removeRange_keeps_every_text (c : ContentState.t) (sel : SelectionState.t)
    (h : heap) (c' : ContentState.t) (h' : heap) :
  List.NoDup (Map_keys (ContentState.blockMap c)) ->
  removeRangeFromContentState c sel h = (Ok c', h') ->
  forall k : string,
    match BlockMap_get (ContentState.blockMap c') k,
          BlockMap_get (ContentState.blockMap c) k with
    | Some b', Some b =>
        ContentBlock.text b' = ContentBlock.text b
        /\ ContentBlock.key b' = ContentBlock.key b
        /\ ContentBlock.type b' = ContentBlock.type b
        /\ ContentBlock.depth b' = ContentBlock.depth b
        /\ ContentBlock.data b' = ContentBlock.data b
    | None, None => True
    | _, _ => False
    end.
Proof.
  intros Hnd Hrun k.
  assert (Hsame : forall m : BlockMap,
             match BlockMap_get m k, BlockMap_get m k with
             | Some b', Some b =>
                 ContentBlock.text b' = ContentBlock.text b
                 /\ ContentBlock.key b' = ContentBlock.key b
                 /\ ContentBlock.type b' = ContentBlock.type b
                 /\ ContentBlock.depth b' = ContentBlock.depth b
                 /\ ContentBlock.data b' = ContentBlock.data b
             | None, None => True
             | _, _ => False
             end)
    by (intros m; destruct (BlockMap_get m k); [repeat split | exact I]).
  unfold removeRangeFromContentState, ContentState.getBlockMap in Hrun.
  destruct (SelectionState.isCollapsed sel).
  { injection Hrun as <- _. apply Hsame. }
  destruct (BlockMap_get (ContentState.blockMap c) (SelectionState.getStartKey sel))
    as [sb |] eqn:Hsb; [| discriminate].
  destruct (BlockMap_get (ContentState.blockMap c) (SelectionState.getEndKey sel))
    as [eb |] eqn:Heb; [| discriminate].
  unfold bind at 1 in Hrun.
  destruct (same_block (Some sb) (Some eb)).
  - destruct (removeFromList _ _ _) as [[v | ex] arr]; [| discriminate].
    cbn [ret fst snd] in Hrun. unfold bind at 1 in Hrun. cbn [alloc] in Hrun.
    destruct (map _ (removeRange_entries _ _ _ _ _)); [| discriminate].
    cbn in Hrun. injection Hrun as <- _. cbn [ContentState.blockMap].
    rewrite Map_of_entries_unique
      by (apply filter_keys_unique; rewrite with_shared_array_keys; exact Hnd).
    rewrite BlockMap_get_defined by (rewrite with_shared_array_keys; exact Hnd).
    apply with_shared_array_get.
  - cbn [ret fst snd] in Hrun. unfold bind at 1 in Hrun. cbn [alloc] in Hrun.
    destruct (map _ (removeRange_entries _ _ _ _ _)); [| discriminate].
    cbn in Hrun. injection Hrun as <- _. cbn [ContentState.blockMap].
    rewrite Map_of_entries_unique by (apply filter_keys_unique; exact Hnd).
    rewrite BlockMap_get_defined by exact Hnd.
    apply Hsame.
Qed.

Lemma removeRange_keeps_every_text_witness :
  exists c' h',
    removeRangeFromContentState sample_content (range 30%nat "b" 0 1) sample_heap
    = (Ok c', h')
    /\ match BlockMap_get (ContentState.blockMap c') "b",
             BlockMap_get (ContentState.blockMap sample_content) "b" with
       | Some b', Some b =>
           ContentBlock.text b' = ContentBlock.text b
           /\ ContentBlock.key b' = ContentBlock.key b
           /\ ContentBlock.type b' = ContentBlock.type b
           /\ ContentBlock.depth b' = ContentBlock.depth b
           /\ ContentBlock.data b' = ContentBlock.data b
       | None, None => True
       | _, _ => False
       end.
Proof.
  destruct (removeRangeFromContentState sample_content (range 30%nat "b" 0 1)
              sample_heap) as [[c' | e] h'] eqn:Hrun.
  - exists c', h'. split; [reflexivity |].
    apply (removeRange_keeps_every_text _ _ _ _ _ sample_keys_unique Hrun "b").
  - vm_compute in Hrun. discriminate.
Defined.

Lemma removeRange_entries_searching (startKey endKey : string) (pre rest : BlockMap) :
  ~ List.In (Some startKey) (Map_keys pre) ->
  removeRange_entries startKey endKey [] 0 (pre ++ rest)%list
  = removeRange_entries startKey endKey [] 0 rest.
Proof.
  induction pre as [| e pre IH]; intros Hnot; [reflexivity |].
  cbn [app removeRange_entries]. cbn [Z.eqb andb].
  unfold key_is at 1. rewrite bool_decide_eq_false_2
    by (intros Hk; apply Hnot; left; exact Hk).
  apply IH. intros Hin. apply Hnot. right. exact Hin.
Qed.

Lemma removeRange_entries_collecting (startKey endKey : string) (mid rest : BlockMap)
    (v : option ContentBlock.t) :
  removeRange_entries startKey endKey [] 1 (mid ++ (Some endKey, v) :: rest)%list <> [].
Proof.
  induction mid as [| e mid IH]; cbn [app removeRange_entries]; cbn [Z.eqb Pos.eqb andb].
  - unfold key_is. cbn [fst]. rewrite bool_decide_eq_true_2 by reflexivity. discriminate.
  - destruct (key_is (fst e) endKey); [discriminate |]. cbn [existsb]. discriminate.
Qed.

Lemma shift_loop_throws (iterations : nat) :
  forall (v : listValue) (ex : exn), shift_loop iterations v = Throw ex -> ex = TypeError.
Proof.
  induction iterations as [| n IH]; intros v ex; cbn; [discriminate |].
  destruct v as [[| c l] | c |]; try (intros [= <-]; reflexivity); apply IH.
Qed.

Lemma removeFromList_throws (l : list CharacterMetadata.t) (startOffset endOffset : Z)
    (ex : exn) :
  fst (removeFromList l startOffset endOffset) = Throw ex -> ex = TypeError.
Proof.
  unfold removeFromList. destruct (startOffset =? 0); cbn [fst].
  - apply shift_loop_throws.
  - intros [= <-]. reflexivity.
Qed.

(** X28: removing a range that spans blocks never succeeds.  When the block
    map has unique keys and holds the block of the start key somewhere
    before the block of another end key, [removeRangeFromContentState]
    throws a TypeError, whatever the offsets: the entries it adds to the
    new block map are not pairs. *)
Theorem removeRange_across_blocks_throws (c : ContentState.t) (sel : SelectionState.t)
    (pre mid post : BlockMap) (sb eb : ContentBlock.t) (h : heap) :
  List.NoDup (Map_keys (ContentState.blockMap c)) ->
  ContentState.blockMap c
  = (pre ++ (Some (SelectionState.getStartKey sel), Some sb)
         :: mid ++ (Some (SelectionState.getEndKey sel), Some eb) :: post)%list ->
  exists h', removeRangeFromContentState c sel h = (Throw TypeError, h').
Proof.
  intros Hnd Hm.
  assert (Hpre : ~ List.In (Some (SelectionState.getStartKey sel)) (Map_keys pre)).
  { rewrite Hm in Hnd. unfold Map_keys in *. rewrite map_app in Hnd. cbn [map fst] in Hnd.
    apply NoDup_remove_2 in Hnd. intros Hin. apply Hnd. apply in_or_app. left. exact Hin. }
  assert (Hne : SelectionState.getStartKey sel <> SelectionState.getEndKey sel).
  { intros Heq. rewrite Hm in Hnd. unfold Map_keys in Hnd.
    rewrite map_app in Hnd. cbn [map fst] in Hnd.
    apply NoDup_remove_2 in Hnd. apply Hnd. apply in_or_app. right.
    rewrite map_app. apply in_or_app. right. left. cbn. rewrite Heq. reflexivity. }
  assert (Hcol : SelectionState.isCollapsed sel = false).
  { unfold SelectionState.isCollapsed.
    destruct (String.eqb_spec (SelectionState.getAnchorKey sel)
                (SelectionState.getFocusKey sel)) as [Heq | _]; [| reflexivity].
    exfalso. apply Hne.
    unfold SelectionState.getStartKey, SelectionState.getEndKey.
    destruct (SelectionState.getIsBackward sel); congruence. }
  assert (Hentries : forall m1 : BlockMap,
             Map_keys m1 = Map_keys (ContentState.blockMap c) ->
             removeRange_entries (SelectionState.getStartKey sel)
               (SelectionState.getEndKey sel) [] 0 m1 <> []).
  { intros m1 Hkeys. rewrite Hm in Hkeys.
    unfold Map_keys in Hkeys. rewrite map_app in Hkeys. cbn [map fst] in Hkeys.
    rewrite map_app in Hkeys. cbn [map fst] in Hkeys.
    apply map_eq_app in Hkeys. destruct Hkeys as (pre1 & rest1 & -> & Hp & Hr).
    destruct rest1 as [| [ks vs] rest1]; [discriminate |].
    cbn [map fst] in Hr. injection Hr as -> Hr.
    apply map_eq_app in Hr. destruct Hr as (mid1 & rest2 & -> & Hmid & Hr).
    destruct rest2 as [| [ke ve] rest2]; [discriminate |].
    cbn [map fst] in Hr. injection Hr as -> Hr.
    rewrite removeRange_entries_searching by (unfold Map_keys; rewrite Hp; exact Hpre).
    cbn [removeRange_entries fst Z.eqb andb]. unfold key_is at 1.
    rewrite bool_decide_eq_true_2 by reflexivity.
    apply removeRange_entries_collecting. }
  unfold removeRangeFromContentState, ContentState.getBlockMap. rewrite Hcol.
  assert (Hsb : BlockMap_get (ContentState.blockMap c) (SelectionState.getStartKey sel)
                = Some sb).
  { unfold BlockMap_get.
    rewrite (Map_get_In (ContentState.blockMap c) _ (Some sb) Hnd); [reflexivity |].
    rewrite Hm. apply in_or_app. right. left. reflexivity. }
  assert (Heb : BlockMap_get (ContentState.blockMap c) (SelectionState.getEndKey sel)
                = Some eb).
  { unfold BlockMap_get.
    rewrite (Map_get_In (ContentState.blockMap c) _ (Some eb) Hnd); [reflexivity |].
    rewrite Hm. apply in_or_app. right. right. apply in_or_app. right. left. reflexivity. }
  rewrite Hsb, Heb. unfold bind at 1.
  destruct (same_block (Some sb) (Some eb)).
  - destruct (removeFromList _ _ _) as [[v | ex] arr] eqn:Hremove.
    + cbn [ret fst snd]. unfold bind at 1. cbn [alloc].
      destruct (map _ (removeRange_entries _ _ _ _ _)) eqn:Hmap; [| eexists; reflexivity].
      exfalso. apply map_eq_nil in Hmap.
      exact (Hentries _ (with_shared_array_keys _ _ _) Hmap).
    + rewrite (removeFromList_throws _ _ _ ex) by (rewrite Hremove; reflexivity).
      eexists. reflexivity.
  - cbn [ret fst snd]. unfold bind at 1. cbn [alloc].
    destruct (map _ (removeRange_entries _ _ _ _ _)) eqn:Hmap; [| eexists; reflexivity].
    exfalso. apply map_eq_nil in Hmap. exact (Hentries _ eq_refl Hmap).
Qed.

Lemma removeRange_across_blocks_throws_witness :
  exists h',
    removeRangeFromContentState sample_content
      (SelectionState.mk 30%nat "a" 2 "b" 3 false true) sample_heap
    = (Throw TypeError, h').
Proof.
  apply (removeRange_across_blocks_throws sample_content
           (SelectionState.mk 30%nat "a" 2 "b" 3 false true) [] [] []
           sample_blockA sample_blockB sample_heap sample_keys_unique).
  reflexivity.
Defined.

(** ** Theorems: insertIntoList at every offset *)

Lemma Array_slice_head {A : Type} (l : list A) (i : Z) :
  Array_slice l 0 i = firstn (slice_index (Z.of_nat (List.length l)) i) l.
Proof.
  unfold Array_slice. rewrite slice_index_zero by lia.
  rewrite Nat.sub_0_r. reflexivity.
Qed.

Lemma Array_slice_tail {A : Type} (l : list A) (i : Z) :
  Array_slice_from l i = skipn (slice_index (Z.of_nat (List.length l)) i) l.
Proof.
  unfold Array_slice_from, Array_slice.
  set (len := Z.of_nat (List.length l)).
  rewrite (slice_index_len len) by lia.
  apply firstn_all2. rewrite length_skipn. lia.
Qed.

(** X29: [insertIntoList] for every integer offset.  The result is the
    target list with the inserted elements spliced in at the position
    [slice] gives the offset (the offset itself from 0 to the length, the
    length beyond it, counted from the end when negative); so it always has
    the elements of both lists, those of each in their order. *)
Theorem insertIntoList_spec (T : Type) (targetList toInsert : list T) (offset : Z) :
  let position := slice_index (Z.of_nat (List.length targetList)) offset in
  insertIntoList targetList toInsert offset
  = (firstn position targetList ++ toInsert ++ skipn position targetList)%list
  /\ List.length (insertIntoList targetList toInsert offset)
     = (List.length targetList + List.length toInsert)%nat
  /\ (0 <= offset <= Z.of_nat (List.length targetList) -> position = Z.to_nat offset).
Proof.
  intros position.
  assert (Hsplice : insertIntoList targetList toInsert offset
                    = (firstn position targetList ++ toInsert
                       ++ skipn position targetList)%list).
  { unfold insertIntoList, position.
    destruct (Z.eqb_spec offset (Z.of_nat (List.length targetList))) as [-> | Hne].
    - rewrite fold_push, slice_index_len by lia.
      rewrite Nat2Z.id, firstn_all, skipn_all, app_nil_r. reflexivity.
    - destruct (Z.eqb_spec offset 0) as [-> | Hne0].
      + rewrite fold_unshift, rev_involutive, slice_index_zero by lia. reflexivity.
      + rewrite Array_slice_head, Array_slice_tail. reflexivity. }
  split; [exact Hsplice |]. split.
  - rewrite Hsplice, !length_app.
    rewrite <- (firstn_skipn position targetList) at 3. rewrite length_app. lia.
  - intros Hoff. unfold position, slice_index.
    destruct (Z.ltb_spec offset 0); [lia |]. rewrite Z.min_l by lia. reflexivity.
Qed.

Lemma insertIntoList_spec_witness :
  slice_index (Z.of_nat (List.length [1; 2; 3])) 2 = Z.to_nat 2.
Proof.
  apply (proj2 (proj2 (insertIntoList_spec Z [1; 2; 3] [9] 2))). cbn. lia.
Defined.
